(** * ValutaTrade Hub: wallets, portfolios, trades and the rate cache

    A shallow embedding of the Python sources

      - [valutatrade_hub/core/models.py]     ([User], [Wallet], [Portfolio]),
      - [valutatrade_hub/core/usecases.py]   ([register_user], [login_user],
                                              [show_portfolio], [get_rate],
                                              [buy_currency], [sell_currency]),
      - [valutatrade_hub/core/currencies.py] (the constructors of [Currency],
                                              [FiatCurrency], [CryptoCurrency]
                                              and the registry),
      - [valutatrade_hub/cli/interface.py]   ([is_rate_fresh],
                                              [fetch_rate_from_parser],
                                              [get_exchange_rate]),

    followed by the properties of the specification, stated on it.

    Modelling choices.

    - A Python [float] is an IEEE 754 binary64 number: Rocq's primitive
      [float], with the same rounding, the same NaN and infinities and the
      same comparisons ([a > b] is [b <? a]). What the proofs need of its
      arithmetic is derived from the specification of the primitive
      operations ([FloatAxioms], [SpecFloat]).
    - A Python [dict] keyed by strings is a [gmap string _]; the list
      [portfolios_data] is a [list] updated by index.
    - A Python [str] that is only compared, concatenated or used as a key is
      a [string]. Where the code looks at the characters ([len], [strip],
      [encode], in [User] and its use cases) the string is the list of its
      code points, and these three are then those of Python on every string.
      [isupper], [upper] and [lower] (in the currencies) are given for
      strings of ASCII characters; the properties that rest on them are
      stated for such strings.
    - An exception is a value of [exn]; a method or function that may raise
      and that mutates an object is a state transformer
      [S -> result A * S]: the state it leaves behind is explicit also when
      it raises.
    - A [Wallet] object is only ever reachable through the dictionary
      [_wallets] of its portfolio, so a reference to it is the key it is
      stored under: two references obtained for the same code alias.
    - [datetime.now()] reads a clock oracle that lives in the world; the
      effects a caller can observe (element assignment in [portfolios_data],
      calls of the rate source, [save_json] of the rate cache) are recorded
      in a journal, newest first. *)

From Stdlib Require Import ZArith Floats Ascii String.
From stdpp Require Import gmap strings list fin_maps.

Set Warnings "-inexact-float".
Local Open Scope Z_scope.

(** ** Exceptions and the state-and-exception monad *)

(** The [ValueError]s the modelled code raises, by the place that raises
    them. *)
Inductive value_error : Type :=
  | NegativeBalance        (* Wallet._validate_balance: amount < 0 *)
  | NonPositiveDeposit     (* Wallet.deposit: amount <= 0 *)
  | NonPositiveWithdraw    (* Wallet.withdraw: amount <= 0 *)
  | CurrencyAlreadyHeld (code : string)   (* Portfolio.add_currency *)
  | BadCurrencyName        (* Currency.__init__: empty name *)
  | BadCurrencyCode.       (* Currency.__init__: code check *)

Inductive exn : Type :=
  | ValueError (why : value_error)
  | InsufficientFundsError (available required : float) (code : string)
  | TypeError              (* naive datetime minus aware datetime *)
  | AttributeError.        (* method call on None *)

Inductive result (A : Type) : Type :=
  | Ok (a : A)
  | Raise (e : exn).
Arguments Ok {A} a.
Arguments Raise {A} e.

(** A computation over a mutable state [S]. *)
Definition M (S A : Type) : Type := S -> result A * S.

Definition ret {S A} (a : A) : M S A := fun s => (Ok a, s).

Definition bind {S A B} (m : M S A) (k : A -> M S B) : M S B :=
  fun s =>
    match m s with
    | (Ok a, s') => k a s'
    | (Raise e, s') => (Raise e, s')
    end.

Definition raise {S A} (e : exn) : M S A := fun s => (Raise e, s).
Definition gets {S A} (f : S -> A) : M S A := fun s => (Ok (f s), s).
Definition modify {S} (f : S -> S) : M S unit := fun s => (Ok tt, f s).

Declare Scope py_scope.
Delimit Scope py_scope with py.
Notation "x <- m ;; k" := (bind m (fun x => k))
  (at level 100, m at next level, right associativity) : py_scope.
Notation "m ;;; k" := (bind m (fun _ => k))
  (at level 100, right associativity) : py_scope.
Local Open Scope py_scope.

(** ** [Wallet] (models.py) *)

Record Wallet : Type := mkWallet {
  _currency_code : string;
  _balance : float
}.

(** [Wallet._validate_balance]: the [isinstance] test is the type; [float(amount)]
    is the identity on a float. *)
Definition _validate_balance (amount : float) : result float :=
  if (amount <? 0)%float then Raise (ValueError NegativeBalance)
  else Ok amount.

(** [Wallet.__init__]. *)
Definition Wallet_init (currency_code : string) (balance : float) : result Wallet :=
  match _validate_balance balance with
  | Ok b => Ok (mkWallet currency_code b)
  | Raise e => Raise e
  end.

(** The properties [currency_code] and [balance], and the setter of
    [balance]: the assignment happens only after the validation returned. *)
Definition currency_code (w : Wallet) : string := _currency_code w.

Definition balance (w : Wallet) : float := _balance w.

Definition set_balance (value : float) : M Wallet unit :=
  fun w =>
    match _validate_balance value with
    | Ok b => (Ok tt, mkWallet (_currency_code w) b)
    | Raise e => (Raise e, w)
    end.

(** [Wallet.deposit]: [self.balance += amount]. *)
Definition deposit (amount : float) : M Wallet unit :=
  fun w =>
    if (amount <=? 0)%float then (Raise (ValueError NonPositiveDeposit), w)
    else set_balance (balance w + amount)%float w.

(** [Wallet.withdraw]: [self.balance -= amount], returns [True]. *)
Definition withdraw (amount : float) : M Wallet bool :=
  fun w =>
    if (amount <=? 0)%float then (Raise (ValueError NonPositiveWithdraw), w)
    else if (balance w <? amount)%float then
      (Raise (InsufficientFundsError (balance w) amount (currency_code w)), w)
    else (set_balance (balance w - amount)%float ;;; ret true) w.

(** [Wallet.to_dict]: the record stored under ["wallets"][code]. *)
Record WalletData : Type := mkWalletData {
  wd_currency_code : string;   (* "currency_code" *)
  wd_balance : float           (* "balance" *)
}.

Definition Wallet_to_dict (w : Wallet) : WalletData :=
  mkWalletData (_currency_code w) (balance w).

(** [Wallet.from_dict(currency_code, data)]: only [data["balance"]] is read. *)
Definition Wallet_from_dict (currency_code : string) (data : WalletData) : result Wallet :=
  Wallet_init currency_code (wd_balance data).

(** A caller that tries a list of wallet operations one after the other,
    catching what each raises. *)
Inductive wallet_op : Type :=
  | Deposit (amount : float)
  | Withdraw (amount : float).

Definition apply_op (op : wallet_op) : M Wallet unit :=
  match op with
  | Deposit x => deposit x
  | Withdraw x => withdraw x ;;; ret tt
  end.

Fixpoint run_ops (ops : list wallet_op) (w : Wallet) : Wallet :=
  match ops with
  | [] => w
  | op :: rest => run_ops rest (snd (apply_op op w))
  end.

(** An amount that is a finite number: neither NaN nor plus infinity. *)
Definition finite_amount (op : wallet_op) : Prop :=
  match op with
  | Deposit x | Withdraw x => (x <? infinity)%float = true
  end.

(** ** [Portfolio] (models.py) *)

Record Portfolio : Type := mkPortfolio {
  _user_id : Z;
  _wallets : gmap string Wallet
}.

(** [Portfolio.get_wallet]: [self._wallets.get(currency_code)]. *)
Definition get_wallet (currency_code : string) (p : Portfolio) : option Wallet :=
  _wallets p !! currency_code.

(** [currency_code in self._wallets]. *)
Definition holds (currency_code : string) (p : Portfolio) : bool :=
  match _wallets p !! currency_code with
  | Some _ => true
  | None => false
  end.

(** [Portfolio.add_currency]: a new wallet with the default balance [0.0]. *)
Definition add_currency (currency_code : string) : M Portfolio unit :=
  fun p =>
    if holds currency_code p then
      (Raise (ValueError (CurrencyAlreadyHeld currency_code)), p)
    else
      match Wallet_init currency_code 0%float with
      | Ok w => (Ok tt, mkPortfolio (_user_id p) (<[currency_code := w]> (_wallets p)))
      | Raise e => (Raise e, p)
      end.

(** A method call through the reference returned by [get_wallet]: the
    wallet object stored under [currency_code] is the one that changes. On
    [None] the call is an [AttributeError]. *)
Definition on_wallet {A} (currency_code : string) (m : M Wallet A) : M Portfolio A :=
  fun p =>
    match _wallets p !! currency_code with
    | Some w =>
        let (r, w') := m w in
        (r, mkPortfolio (_user_id p) (<[currency_code := w']> (_wallets p)))
    | None => (Raise AttributeError, p)
    end.

(** The record of one portfolio in [portfolios_data]. *)
Record PortfolioData : Type := mkPortfolioData {
  pd_user_id : Z;                        (* "user_id" *)
  pd_wallets : gmap string WalletData    (* "wallets" *)
}.

(** [Portfolio.to_dict]. *)
Definition Portfolio_to_dict (p : Portfolio) : PortfolioData :=
  mkPortfolioData (_user_id p) (Wallet_to_dict <$> _wallets p).

(** The dictionary comprehension of [Portfolio.from_dict]: one
    [Wallet.from_dict] per item; the first one that raises ends it. *)
Definition wallets_from_dict (ws : gmap string WalletData) : result (gmap string Wallet) :=
  map_fold
    (fun code wallet_data acc =>
       match acc with
       | Ok m =>
           match Wallet_from_dict code wallet_data with
           | Ok w => Ok (<[code := w]> m)
           | Raise e => Raise e
           end
       | Raise e => Raise e
       end)
    (Ok ∅) ws.

(** [Portfolio.from_dict]. *)
Definition Portfolio_from_dict (data : PortfolioData) : result Portfolio :=
  match wallets_from_dict (pd_wallets data) with
  | Ok wallets => Ok (mkPortfolio (pd_user_id data) wallets)
  | Raise e => Raise e
  end.

(** ** The world of the use cases *)

(** An entry of [rates_data]. *)
Record RateEntry : Type := mkRateEntry {
  rate : float;          (* "rate" *)
  updated_at : string    (* "updated_at" *)
}.

Inductive event : Type :=
  | PortfolioWrite (i : nat) (p : PortfolioData)   (* portfolios_data[i] = p *)
  | ParserCall (from_curr to_curr : string)        (* fetch_rate_from_parser(...) *)
  | SaveRates (rates : gmap string RateEntry).     (* save_json("data/rates.json", ...) *)

(** The objects a use case is handed by reference ([portfolios_data],
    [rates_data]), the clock and the journal. *)
Record World : Type := mkWorld {
  portfolios_data : list PortfolioData;   (* the list the use cases are given *)
  rates_data : gmap string RateEntry;     (* the dictionary they are given *)
  clock : nat -> Z;    (* what the n-th call of datetime.now() returns, in microseconds *)
  ticks : nat;         (* how many times the clock has been read *)
  journal : list event (* observable effects, newest first *)
}.

Definition is_parser_call (ev : event) : bool :=
  match ev with ParserCall _ _ => true | _ => false end.

(** A computation on a local object [o]: when it raises, the object is lost
    with the frame that held it. *)
Definition with_object {S O A} (o : O) (m : M O A) : M S (A * O) :=
  fun s =>
    match m o with
    | (Ok a, o') => (Ok (a, o'), s)
    | (Raise e, _) => (Raise e, s)
    end.

(** ** Use cases (usecases.py) *)

(** The index and the record of the first portfolio of [user_id]. *)
Definition find_portfolio (user_id : Z) (data : list PortfolioData)
  : option (nat * PortfolioData) :=
  list_find (fun p => pd_user_id p = user_id) data.

(** [show_portfolio]. *)
Definition show_portfolio (user_id : Z) : M World (option Portfolio) :=
  fun w =>
    match find_portfolio user_id (portfolios_data w) with
    | Some (_, portfolio_data) =>
        match Portfolio_from_dict portfolio_data with
        | Ok p => (Ok (Some p), w)
        | Raise e => (Raise e, w)
        end
    | None => (Ok None, w)
    end.

(** [portfolios_data[i] = d]. *)
Definition write_portfolio (i : nat) (d : PortfolioData) (w : World) : World :=
  mkWorld (<[i := d]> (portfolios_data w)) (rates_data w) (clock w) (ticks w)
          (PortfolioWrite i d :: journal w).

(** The closing loop of both trades: the first record of [user_id] is
    replaced, then [break]. *)
Definition store_portfolio (user_id : Z) (d : PortfolioData) : M World unit :=
  fun w =>
    match find_portfolio user_id (portfolios_data w) with
    | Some (i, _) => (Ok tt, write_portfolio i d w)
    | None => (Ok tt, w)
    end.

(** What [buy_currency] does to the portfolio object once its checks have
    passed: [usd_wallet.withdraw(usd_cost)], the wallet of [currency] created
    when there is none, [target_wallet.deposit(amount)]. *)
Definition buy_transfer (currency : string) (amount usd_cost : float) : M Portfolio unit :=
  on_wallet "USD" (withdraw usd_cost) ;;;
  has <- gets (holds currency) ;;
  (if has then ret tt else add_currency currency) ;;;
  on_wallet currency (deposit amount).

(** The same for [sell_currency]: [wallet.withdraw(amount)], then the deposit
    of the revenue into the USD wallet, created when there is none. *)
Definition sell_transfer (currency : string) (amount usd_revenue : float) : M Portfolio unit :=
  on_wallet currency (withdraw amount) ;;;
  usd_wallet <- gets (get_wallet "USD") ;;
  match usd_wallet with
  | Some _ => on_wallet "USD" (deposit usd_revenue)
  | None =>
      add_currency "USD" ;;;
      on_wallet "USD" (deposit usd_revenue)
  end.

(** [buy_currency]. *)
Definition buy_currency (user_id : Z) (currency : string) (amount : float) : M World bool :=
  portfolio <- show_portfolio user_id ;;
  match portfolio with
  | None => ret false
  | Some portfolio =>
      rates <- gets rates_data ;;
      match rates !! (currency +:+ "_USD") with
      | None => ret false
      | Some entry =>
          let rate := rate entry in
          let usd_cost := (amount * rate)%float in
          match get_wallet "USD" portfolio with
          | None => ret false
          | Some usd_wallet =>
              if (balance usd_wallet <? usd_cost)%float then ret false
              else
                r <- with_object portfolio (buy_transfer currency amount usd_cost) ;;
                store_portfolio user_id (Portfolio_to_dict (snd r)) ;;;
                ret true
          end
      end
  end.

(** [sell_currency]. *)
Definition sell_currency (user_id : Z) (currency : string) (amount : float) : M World bool :=
  portfolio <- show_portfolio user_id ;;
  match portfolio with
  | None => ret false
  | Some portfolio =>
      match get_wallet currency portfolio with
      | None => ret false
      | Some wallet =>
          if (balance wallet <? amount)%float then ret false
          else
            rates <- gets rates_data ;;
            match rates !! (currency +:+ "_USD") with
            | None => ret false
            | Some entry =>
                let rate := rate entry in
                let usd_revenue := (amount * rate)%float in
                r <- with_object portfolio (sell_transfer currency amount usd_revenue) ;;
                store_portfolio user_id (Portfolio_to_dict (snd r)) ;;;
                ret true
            end
      end
  end.

(** The balance a portfolio record shows for a code. *)
Definition stored_balance (d : PortfolioData) (code : string) : option float :=
  wd_balance <$> pd_wallets d !! code.

(** The same, a missing wallet counting as the [0.0] it would be created with. *)
Definition holding (d : PortfolioData) (code : string) : float :=
  default 0%float (stored_balance d code).

(** ** The rate cache (cli/interface.py) *)

(** What [datetime.fromisoformat] makes of a string: a [ValueError], a naive
    datetime or an aware one. A datetime is its count of microseconds. *)
Inductive parsed_datetime : Type :=
  | Malformed
  | NaiveDT (t : Z)
  | AwareDT (t : Z).

(** [datetime.now()]: a naive datetime. *)
Definition datetime_now : M World Z :=
  fun w =>
    (Ok (clock w (ticks w)),
     mkWorld (portfolios_data w) (rates_data w) (clock w) (S (ticks w)) (journal w)).

(** [timedelta(minutes=m)]. *)
Definition timedelta_minutes (m : Z) : Z := m * 60 * 1000000.

Definition log_event (ev : event) : M World unit :=
  modify (fun w =>
    mkWorld (portfolios_data w) (rates_data w) (clock w) (ticks w) (ev :: journal w)).

(** [rates_data[key] = entry]. *)
Definition set_rate (key : string) (entry : RateEntry) : M World unit :=
  modify (fun w =>
    mkWorld (portfolios_data w) (<[key := entry]> (rates_data w)) (clock w) (ticks w)
            (journal w)).

(** [save_json("data/rates.json", rates_data)], when the file is written: a
    write that fails is not modelled. *)
Definition save_rates : M World unit :=
  rates <- gets rates_data ;;
  log_event (SaveRates rates).

(** The table [mock_rates] of the stub rate source. *)
Definition mock_rates : gmap string float :=
  <["ETH_USD" := 3731.34%float]>
    (<["USD_ETH" := 0.000268%float]>
      (<["BTC_USD" := 59337.21%float]>
        (<["USD_BTC" := 0.00001685%float]> ∅))).

Section RateCache.

(** The two library functions on ISO 8601 strings. *)
Variable fromisoformat : string -> parsed_datetime.
Variable isoformat : Z -> string.

(** [is_rate_fresh]: the clock is read after the string was parsed; the
    [ValueError] of the parser is caught, the [TypeError] of subtracting an
    aware datetime from a naive one is not. *)
Definition is_rate_fresh (updated_at_str : string) (max_age_minutes : Z) : M World bool :=
  match fromisoformat updated_at_str with
  | Malformed => ret false
  | NaiveDT updated_at =>
      now <- datetime_now ;;
      ret (now - updated_at <=? timedelta_minutes max_age_minutes)
  | AwareDT _ =>
      datetime_now ;;;
      raise TypeError
  end.

(** [fetch_rate_from_parser]: the stub of the rate source. *)
Definition fetch_rate_from_parser (from_curr to_curr : string) : M World (option RateEntry) :=
  log_event (ParserCall from_curr to_curr) ;;;
  let key := from_curr +:+ "_" +:+ to_curr in
  match mock_rates !! key with
  | Some r =>
      now <- datetime_now ;;
      ret (Some (mkRateEntry r (isoformat now)))
  | None => ret None
  end.

(** [get_exchange_rate]; [is_rate_fresh] is called with its default of 5
    minutes. *)
Definition get_exchange_rate (from_curr to_curr : string) : M World (option RateEntry) :=
  let key := from_curr +:+ "_" +:+ to_curr in
  rates <- gets rates_data ;;
  hit <- match rates !! key with
         | Some rate_entry =>
             fresh <- is_rate_fresh (updated_at rate_entry) 5 ;;
             ret (if fresh then Some rate_entry else None)
         | None => ret None
         end ;;
  match hit with
  | Some rate_entry => ret (Some rate_entry)
  | None =>
      new_rate <- fetch_rate_from_parser from_curr to_curr ;;
      match new_rate with
      | Some entry =>
          set_rate key entry ;;;
          save_rates ;;;
          ret (Some entry)
      | None => ret None
      end
  end.

End RateCache.

(** The freshness window of [get_exchange_rate], in microseconds. *)
Definition freshness_window : Z := timedelta_minutes 5.

(** The world after one reading of the clock. *)
Definition ticked (w : World) : World :=
  mkWorld (portfolios_data w) (rates_data w) (clock w) (S (ticks w)) (journal w).

(** The world after a call of the rate source for a pair it does not know. *)
Definition asked (from_curr to_curr : string) (w : World) : World :=
  mkWorld (portfolios_data w) (rates_data w) (clock w) (ticks w)
          (ParserCall from_curr to_curr :: journal w).

(** ** [Currency] (currencies.py) *)

Definition is_ascii_upper (c : ascii) : bool :=
  ((65 <=? N_of_ascii c) && (N_of_ascii c <=? 90))%N.

Definition is_ascii_lower (c : ascii) : bool :=
  ((97 <=? N_of_ascii c) && (N_of_ascii c <=? 122))%N.

Fixpoint string_forallb (f : ascii -> bool) (s : string) : bool :=
  match s with
  | EmptyString => true
  | String c rest => f c && string_forallb f rest
  end.

Fixpoint string_existsb (f : ascii -> bool) (s : string) : bool :=
  match s with
  | EmptyString => false
  | String c rest => f c || string_existsb f rest
  end.

(** [str.isupper] on a string of ASCII characters: no cased character is
    lowercase and there is at least one cased character. Digits, punctuation
    and white space are not cased. *)
Definition isupper (s : string) : bool :=
  string_forallb (fun c => negb (is_ascii_lower c)) s
  && string_existsb is_ascii_upper s.

(** [' ' in code]. *)
Definition has_space (s : string) : bool :=
  string_existsb (fun c => (N_of_ascii c =? 32)%N) s.

Record Currency : Type := mkCurrency {
  name : string;
  code : string
}.

(** The condition under which [Currency.__init__] raises for [code]. *)
Definition code_rejected (code : string) : bool :=
  match code with EmptyString => true | _ => false end
  || (String.length code <? 2)%nat
  || (5 <? String.length code)%nat
  || has_space code
  || negb (isupper code).

(** [Currency.__init__]. *)
Definition Currency_init (name code : string) : result Currency :=
  match name with
  | EmptyString => Raise (ValueError BadCurrencyName)
  | _ =>
      if code_rejected code then Raise (ValueError BadCurrencyCode)
      else Ok (mkCurrency name code)
  end.

(** The pattern [^[A-Z]{2,5}$] of the specification: two to five characters,
    each one of [A] to [Z]. *)
Definition matches_code_pattern (s : string) : bool :=
  (2 <=? String.length s)%nat && (String.length s <=? 5)%nat
  && string_forallb is_ascii_upper s.

(** The balance that [portfolios_data] shows for a user and a code: that of
    the first record of the user, the one every use case reads and writes. *)
Definition stored_for (user_id : Z) (code : string) (w : World) : option float :=
  match find_portfolio user_id (portfolios_data w) with
  | Some (_, d) => stored_balance d code
  | None => None
  end.

(** A record that loads: no stored balance compares below zero. *)
Definition valid_record (d : PortfolioData) : Prop :=
  forall k x, pd_wallets d !! k = Some x -> (wd_balance x <? 0)%float = false.

(** A trade that is refused: [False] is returned or a [ValueError] is raised. *)
Definition refused (r : result bool) : Prop :=
  r = Ok false \/ exists why, r = Raise (ValueError why).

(** ** Further exceptions *)

(** The [ValueError]s of the code below, by the place that raises them. *)
Inductive value_error_more : Type :=
  | EmptyUsername          (* User._validate_username *)
  | ShortPassword          (* User._hash_password, User.change_password *)
  | CannotEncode           (* str.encode: UnicodeEncodeError, a ValueError *)
  | BadIsoString           (* datetime.fromisoformat *)
  | NoFixedRate (base_currency : string)   (* Portfolio.get_total_value *)
  | EmptyIssuingCountry    (* FiatCurrency.__init__ *)
  | EmptyAlgorithm         (* CryptoCurrency.__init__ *)
  | NegativeMarketCap.     (* CryptoCurrency.__init__ *)

Inductive failure : Type :=
  | Earlier (e : exn)                       (* an exception of the first part *)
  | ValueErrorIn (why : value_error_more)
  | CurrencyNotFoundError (code : string).  (* currencies.CurrencyNotFoundError *)

Inductive outcome (A : Type) : Type :=
  | Returns (a : A)
  | Raises (e : failure).
Arguments Returns {A} a.
Arguments Raises {A} e.

(** ** Strings *)

(** Where the code looks at the characters of a [str] (with [len], [strip]
    or [encode]) the string is the list of its code points, each one a
    number below [0x110000]. *)
Definition str : Type := list N.

(** An ASCII literal as a [str]. *)
Definition str_of (s : string) : str :=
  (fun c => N_of_ascii c) <$> list_ascii_of_string s.

(** [str.isspace] on one character, that is, what [str.strip()] removes:
    U+0009 to U+000D, U+001C to U+0020, U+0085, U+00A0, U+1680, U+2000 to
    U+200A, U+2028, U+2029, U+202F, U+205F and U+3000. *)
Definition isspace (c : N) : bool :=
  (((9 <=? c) && (c <=? 13)) || ((28 <=? c) && (c <=? 32))
   || (c =? 133) || (c =? 160) || (c =? 5760)
   || ((8192 <=? c) && (c <=? 8202))
   || (c =? 8232) || (c =? 8233) || (c =? 8239) || (c =? 8287) || (c =? 12288))%N.

Fixpoint lstrip (s : str) : str :=
  match s with
  | [] => []
  | c :: rest => if isspace c then lstrip rest else s
  end.

Fixpoint rstrip (s : str) : str :=
  match s with
  | [] => []
  | c :: rest =>
      match rstrip rest with
      | [] => if isspace c then [] else [c]
      | kept => c :: kept
      end
  end.

(** [str.strip()]. *)
Definition strip (s : str) : str := rstrip (lstrip s).

(** [str.encode()], to UTF-8, raises [UnicodeEncodeError] for a string that
    holds a surrogate, U+D800 to U+DFFF, and for no other string. *)
Definition is_surrogate (c : N) : bool := ((55296 <=? c) && (c <=? 57343))%N.

Definition encodable (s : str) : bool := forallb (fun c => negb (is_surrogate c)) s.

(** [str.upper()] and [str.lower()] on a string of ASCII characters, one
    byte each. *)
Definition ascii_upper (c : ascii) : ascii :=
  if is_ascii_lower c then ascii_of_N (N_of_ascii c - 32) else c.

Definition ascii_lower (c : ascii) : ascii :=
  if is_ascii_upper c then ascii_of_N (N_of_ascii c + 32) else c.

Fixpoint string_map (f : ascii -> ascii) (s : string) : string :=
  match s with
  | EmptyString => EmptyString
  | String c rest => String (f c) (string_map f rest)
  end.

Definition upper (s : string) : string := string_map ascii_upper s.
Definition lower (s : string) : string := string_map ascii_lower s.

(** A string of ASCII characters: on these, [isupper], [upper], [lower]
    and [String.length] above are [str.isupper], [str.upper], [str.lower]
    and [len]. *)
Definition ascii_only (s : string) : Prop :=
  string_forallb (fun c => (N_of_ascii c <? 128)%N) s = true.

(** ** [User] (models.py) and the user use cases (usecases.py) *)

(** A [datetime] object, naive or aware. *)
Inductive datetime : Type :=
  | Naive (t : Z)
  | Aware (t : Z).

Definition parsed_value (p : parsed_datetime) : option datetime :=
  match p with
  | Malformed => None
  | NaiveDT t => Some (Naive t)
  | AwareDT t => Some (Aware t)
  end.

Record User : Type := mkUser {
  user_user_id : Z;                  (* _user_id *)
  user_username : str;               (* _username *)
  user_hashed_password : str;        (* _hashed_password *)
  user_salt : str;                   (* _salt *)
  user_registration_date : datetime  (* _registration_date *)
}.

(** The record of one user in [users_data]. *)
Record UserData : Type := mkUserData {
  ud_user_id : Z;              (* "user_id" *)
  ud_username : str;           (* "username" *)
  ud_hashed_password : str;    (* "hashed_password" *)
  ud_salt : str;               (* "salt" *)
  ud_registration_date : str   (* "registration_date" *)
}.

(** [User._validate_username]: the empty string strips to itself. *)
Definition _validate_username (username : str) : outcome str :=
  match username with
  | [] => Raises (ValueErrorIn EmptyUsername)
  | _ =>
      match strip username with
      | [] => Raises (ValueErrorIn EmptyUsername)
      | stripped => Returns stripped
      end
  end.

(** [User.__init__]. *)
Definition User_init (user_id : Z) (username hashed_password salt : str)
    (registration_date : datetime) : outcome User :=
  match _validate_username username with
  | Returns name => Returns (mkUser user_id name hashed_password salt registration_date)
  | Raises e => Raises e
  end.

(** [max((u["user_id"] for u in users_data), default=0)]. *)
Definition max_user_id (users_data : list UserData) : Z :=
  match users_data with
  | [] => 0
  | u :: rest => fold_left (fun m v => Z.max m (ud_user_id v)) rest (ud_user_id u)
  end.

Section Users.

(** [hashlib.sha256(s.encode()).hexdigest()] for a string [s] that encodes,
    and the two functions on ISO strings, here for both kinds of datetime. *)
Variable sha256_hexdigest : str -> str.
Variable fromisoformat : str -> parsed_datetime.
Variable isoformat_of : datetime -> str.

(** [hashlib.sha256(s.encode()).hexdigest()]. *)
Definition sha256_of (s : str) : outcome str :=
  if encodable s then Returns (sha256_hexdigest s)
  else Raises (ValueErrorIn CannotEncode).

(** [User._hash_password]: the length is tested before the encoding. *)
Definition _hash_password (self : User) (password : str) : outcome str :=
  if (length password <? 4)%nat then Raises (ValueErrorIn ShortPassword)
  else sha256_of (password ++ user_salt self).

(** [User.change_password]: the user after the call when it returns. *)
Definition change_password (self : User) (new_password : str) : outcome User :=
  if (length new_password <? 4)%nat then Raises (ValueErrorIn ShortPassword)
  else
    match _hash_password self new_password with
    | Returns h =>
        Returns (mkUser (user_user_id self) (user_username self) h (user_salt self)
                        (user_registration_date self))
    | Raises e => Raises e
    end.

(** [User.verify_password]: [except ValueError] catches what
    [_hash_password] raises, the [UnicodeEncodeError] included. *)
Definition verify_password (self : User) (password : str) : bool :=
  match _hash_password self password with
  | Returns h => bool_decide (h = user_hashed_password self)
  | Raises _ => false
  end.

(** [User.to_dict]. *)
Definition User_to_dict (self : User) : UserData :=
  mkUserData (user_user_id self) (user_username self) (user_hashed_password self)
             (user_salt self) (isoformat_of (user_registration_date self)).

(** [User.from_dict]: the date is parsed before [__init__] is entered. *)
Definition User_from_dict (data : UserData) : outcome User :=
  match parsed_value (fromisoformat (ud_registration_date data)) with
  | None => Raises (ValueErrorIn BadIsoString)
  | Some registration_date =>
      User_init (ud_user_id data) (ud_username data) (ud_hashed_password data)
                (ud_salt data) registration_date
  end.

(** [register_user]: the password is hashed as it is given, before
    [User.__init__] looks at the name. *)
Definition register_user (users_data : list UserData) (username password salt : str)
    (registration_date : datetime) : outcome User :=
  let user_id := max_user_id users_data + 1 in
  match sha256_of (password ++ salt) with
  | Returns hashed_password =>
      User_init user_id username hashed_password salt registration_date
  | Raises e => Raises e
  end.

(** [login_user]. *)
Fixpoint login_user (users_data : list UserData) (username password : str)
    : outcome (option User) :=
  match users_data with
  | [] => Returns None
  | user_data :: rest =>
      if bool_decide (ud_username user_data = username) then
        match User_from_dict user_data with
        | Returns user =>
            if verify_password user password then Returns (Some user)
            else login_user rest username password
        | Raises e => Raises e
        end
      else login_user rest username password
  end.

End Users.

(** ** The two kinds of currency and the registry (currencies.py) *)

Record FiatCurrency : Type := mkFiatCurrency {
  fiat_currency : Currency;     (* name, code *)
  issuing_country : string
}.

Record CryptoCurrency : Type := mkCryptoCurrency {
  crypto_currency : Currency;   (* name, code *)
  algorithm : string;
  market_cap : float
}.

(** A value of the class [Currency]: an instance of one of its two
    subclasses. *)
Inductive currency : Type :=
  | Fiat (c : FiatCurrency)
  | Crypto (c : CryptoCurrency).

(** The attribute [code] of an instance. *)
Definition currency_code_of (c : currency) : string :=
  match c with
  | Fiat f => code (fiat_currency f)
  | Crypto k => code (crypto_currency k)
  end.

(** [FiatCurrency.__init__]: [super().__init__] first. *)
Definition FiatCurrency_init (name code issuing_country : string) : outcome FiatCurrency :=
  match Currency_init name code with
  | Raise e => Raises (Earlier e)
  | Ok base =>
      match issuing_country with
      | EmptyString => Raises (ValueErrorIn EmptyIssuingCountry)
      | _ => Returns (mkFiatCurrency base issuing_country)
      end
  end.

(** [CryptoCurrency.__init__]. *)
Definition CryptoCurrency_init (name code algorithm : string) (market_cap : float)
    : outcome CryptoCurrency :=
  match Currency_init name code with
  | Raise e => Raises (Earlier e)
  | Ok base =>
      match algorithm with
      | EmptyString => Raises (ValueErrorIn EmptyAlgorithm)
      | _ =>
          if (market_cap <? 0)%float then Raises (ValueErrorIn NegativeMarketCap)
          else Returns (mkCryptoCurrency base algorithm market_cap)
      end
  end.

(** [register_currency], on the dictionary [_CURRENCY_REGISTRY]. *)
Definition register_currency (c : currency) (registry : gmap string currency)
    : gmap string currency :=
  <[currency_code_of c := c]> registry.

(** [get_currency]; [upper] is [str.upper] on a code of ASCII characters. *)
Definition get_currency (code : string) (registry : gmap string currency)
    : outcome currency :=
  let code := upper code in
  match registry !! code with
  | Some c => Returns c
  | None => Raises (CurrencyNotFoundError code)
  end.

(** ** [Portfolio.get_total_value] (models.py) *)

(** The table [exchange_rates] of the method. *)
Definition exchange_rates : gmap string float :=
  <["RUB" := 0.013%float]>
    (<["BTC" := 40000%float]>
      (<["EUR" := 1.1%float]>
        (<["USD" := 1%float]> ∅))).

(** One turn of the loop of [get_total_value]. *)
Definition add_wallet_value (base_rate : float) (total : float) (wallet : Wallet) : float :=
  match exchange_rates !! currency_code wallet with
  | None => total
  | Some r => (total + balance wallet * (r / base_rate))%float
  end.

(** [Portfolio.get_total_value], on [values], the wallets that
    [self._wallets.values()] yields, in the order it yields them. *)
Definition get_total_value (values : list Wallet) (base_currency : string) : outcome float :=
  match exchange_rates !! base_currency with
  | None => Raises (ValueErrorIn (NoFixedRate base_currency))
  | Some base_rate => Returns (fold_left (add_wallet_value base_rate) values 0%float)
  end.

(** [has_rate wallet]: the table has a rate for the currency of the wallet. *)
Definition has_rate (wallet : Wallet) : bool :=
  match exchange_rates !! currency_code wallet with
  | Some _ => true
  | None => false
  end.

(** How an instance came to be: through one of the two constructors. *)
Definition constructed (c : currency) : Prop :=
  match c with
  | Fiat f =>
      exists name code country, FiatCurrency_init name code country = Returns f
  | Crypto k =>
      exists name code algo cap, CryptoCurrency_init name code algo cap = Returns k
  end.

(** What [get_exchange_rate] does from its call of the rate source on, in
    the world [w] it has reached: the answer stamped with the reading of the
    clock is stored, saved and returned; without an answer, [None]. *)
Definition refetch (isoformat : Z -> string) (from_curr to_curr : string) (w : World)
    : result (option RateEntry) * World :=
  let key := from_curr +:+ "_" +:+ to_curr in
  match mock_rates !! key with
  | Some r =>
      let entry := mkRateEntry r (isoformat (clock w (ticks w))) in
      let rates := <[key := entry]> (rates_data w) in
      (Ok (Some entry),
       mkWorld (portfolios_data w) rates (clock w) (S (ticks w))
               (SaveRates rates :: ParserCall from_curr to_curr :: journal w))
  | None => (Ok None, asked from_curr to_curr w)
  end.

(** [get_rate] (usecases.py): the rate of a currency to USD, or [None]. *)
Definition get_rate (rates : gmap string RateEntry) (currency : string) : option float :=
  match rates !! (currency +:+ "_USD") with
  | Some entry => Some (rate entry)
  | None => None
  end.

(** Stand-ins for the hash and for the two functions on ISO strings in the
    examples of users: the theorems hold for every such function. *)
Definition example_sha256_hexdigest (s : str) : str := str_of "sha256:" ++ s.

Definition example_isoformat_of (d : datetime) : str :=
  match d with
  | Naive _ => str_of "2024-01-01T00:00:00"
  | Aware _ => str_of "2024-01-01T00:00:00+00:00"
  end.

Definition example_fromisoformat_str (s : str) : parsed_datetime :=
  if bool_decide (s = str_of "2024-01-01T00:00:00") then NaiveDT 0
  else if bool_decide (s = str_of "2024-01-01T00:00:00+00:00") then AwareDT 0
  else Malformed.

(** ** Values of binary64 numbers *)

(** The value [m * 2^e] of a mantissa and an exponent, counted in units of
    [2^-1074], the smallest positive binary64 number: every finite binary64
    number is a whole number of these units. *)
Definition scaled (m : positive) (e : Z) : Z := Z.pos m * 2 ^ (e + 1074).

(** The exact value of a finite binary64 number, in these units; [None] for
    NaN and for the infinities. *)
Definition exact_value (f : float) : option Z :=
  match Prim2SF f with
  | S754_zero _ => Some 0
  | S754_finite s m e => Some (cond_Zopp s (scaled m e))
  | _ => None
  end.

(** The unit in the last place of a finite number, in the same units: the
    distance between neighbouring binary64 numbers of its exponent. *)
Definition unit_in_last_place (f : float) : Z :=
  match Prim2SF f with
  | S754_finite _ _ e => 2 ^ (e + 1074)
  | _ => 1
  end.

(** What [k] right shifts have made of a mantissa [m]: the quotient by
    [2^k], with the round bit and the sticky bit of the remainder. *)
Definition shr_inv (m k : Z) (mrs : shr_record) : Prop :=
  0 <= shr_m mrs
  /\ exists rem,
       m = shr_m mrs * 2 ^ k + rem
       /\ 0 <= rem < 2 ^ k
       /\ (shr_r mrs = true <-> 2 ^ k <= 2 * rem)
       /\ (shr_s mrs = true <-> 0 < rem /\ 2 * rem <> 2 ^ k).

(** ** Signs of binary64 numbers *)

(** A number of the specification of binary64 that is a zero, an infinity or
    a finite number, of sign [s] ([true] for minus). *)
Inductive has_sign (s : bool) : spec_float -> Prop :=
  | sign_zero : has_sign s (S754_zero s)
  | sign_infinity : has_sign s (S754_infinity s)
  | sign_finite m e : has_sign s (S754_finite s m e).

(** ** Scenarios *)

(** The scenario of the specification: user 1 holds 1000 USD, the cache has
    [BTC_USD] at 50000. *)
Definition scenario_world : World :=
  mkWorld [mkPortfolioData 1 {["USD" := mkWalletData "USD" 1000%float]}]
          {["BTC_USD" := mkRateEntry 50000%float "2024-01-01T00:00:00"]}
          (fun _ => 0) 0 [].

(** Stand-ins for the two library functions in the examples, with time counted
    from 2024-01-01T00:00:00: the strings below are read as the library reads
    them, the clock readings of the examples are written as it writes them. *)
Definition example_fromisoformat (s : string) : parsed_datetime :=
  if String.eqb s "2024-01-01T00:00:00" then NaiveDT 0
  else if String.eqb s "2024-01-01T00:00:00+00:00" then AwareDT 0
  else Malformed.

Definition example_isoformat (t : Z) : string :=
  if t =? 300000000 then "2024-01-01T00:05:00"
  else if t =? 300000001 then "2024-01-01T00:05:00.000001"
  else if t =? 360000000 then "2024-01-01T00:06:00"
  else "2024-01-01T00:00:00".

(** A world whose cache holds one entry, fetched at 2024-01-01T00:00:00, and
    whose clock reads [now], in microseconds after that. *)
Definition cache_world (key : string) (r : float) (now : Z) : World :=
  mkWorld [] {[key := mkRateEntry r "2024-01-01T00:00:00"]} (fun _ => now) 0 [].

(** * Properties *)

(** ** Signs in binary64 arithmetic *)

Section Binary64.


(** A number above zero is not at or below it. *)
Lemma positive_not_nonpositive (x : float) :
  (0 <? x)%float = true -> (x <=? 0)%float = false.
Proof.
  rewrite leb_spec, ltb_spec.
  change (Prim2SF 0) with (S754_zero false).
  unfold SFleb, SFltb.
  destruct (Prim2SF x) as [[]| [] | |[] mx ex]; simpl; congruence.
Qed.

(** Shifting a mantissa to the right keeps it from going below zero. *)
Lemma shr_1_nonneg (mrs : shr_record) :
  0 <= shr_m mrs -> 0 <= shr_m (shr_1 mrs).
Proof.
  destruct mrs as [[|[p|p|]|p] r s]; simpl; lia.
Qed.

Lemma iter_shr_1_nonneg (p : positive) (mrs : shr_record) :
  0 <= shr_m mrs -> 0 <= shr_m (SpecFloat.iter_pos shr_1 p mrs).
Proof.
  revert mrs. induction p as [p IH|p IH|]; intros mrs H; simpl.
  - apply IH, IH. by apply shr_1_nonneg.
  - by apply IH, IH.
  - by apply shr_1_nonneg.
Qed.

Lemma shr_fexp_nonneg (m e : Z) (l : location) :
  0 <= m -> 0 <= shr_m (fst (shr_fexp prec emax m e l)).
Proof.
  intros H. unfold shr_fexp, shr.
  assert (0 <= shr_m (shr_record_of_loc m l)) as H0
    by (destruct l as [|[]]; simpl; lia).
  destruct (fexp prec emax (Zdigits2 m + e) - e) as [|p|p]; simpl; try done.
  by apply iter_shr_1_nonneg.
Qed.

Lemma round_nearest_even_nonneg (m : Z) (l : location) :
  0 <= m -> 0 <= round_nearest_even m l.
Proof.
  intros H. destruct l as [|[]]; simpl; try lia. destruct (Z.even m); lia.
Qed.

Lemma binary_round_aux_sign (s : bool) (m e : Z) (l : location) :
  0 <= m -> has_sign s (binary_round_aux prec emax s m e l).
Proof.
  intros H. unfold binary_round_aux.
  pose proof (shr_fexp_nonneg m e l H) as H1.
  destruct (shr_fexp prec emax m e l) as [mrs' e']. simpl in H1.
  pose proof (shr_fexp_nonneg _ e' loc_Exact
                (round_nearest_even_nonneg _ (loc_of_shr_record mrs') H1)) as H2.
  destruct (shr_fexp prec emax _ e' loc_Exact) as [mrs'' e'']. simpl in H2.
  destruct (shr_m mrs'') as [|p|p]; [constructor| |lia].
  destruct (e'' <=? emax - prec); constructor.
Qed.



Lemma has_sign_false_not_below_zero (r : spec_float) :
  has_sign false r -> SFltb r (S754_zero false) = false.
Proof. by intros []. Qed.

Lemma binary_round_sign (s : bool) (m : positive) (e : Z) :
  has_sign s (binary_round prec emax s m e).
Proof.
  unfold binary_round. destruct (shl_align _ _ _) as [mz ez].
  by apply binary_round_aux_sign.
Qed.

Lemma binary_normalize_nonneg (m e : Z) :
  0 <= m -> has_sign false (binary_normalize prec emax m e false).
Proof.
  intros H. destruct m as [|p|p]; simpl; [constructor| |lia].
  apply binary_round_sign.
Qed.

(** A mantissa of [d] binary digits lies between [2^(d-1)] and [2^d]. *)
Lemma digits2_pos_bounds (m : positive) :
  2 ^ (Z.pos (digits2_pos m) - 1) <= Z.pos m < 2 ^ Z.pos (digits2_pos m).
Proof.
  induction m as [m IH|m IH|]; simpl digits2_pos; [| |simpl; lia];
    rewrite Pos2Z.inj_succ;
    replace (Z.succ (Z.pos (digits2_pos m)) - 1) with (Z.succ (Z.pos (digits2_pos m) - 1)) by lia;
    rewrite !Z.pow_succ_r by lia; lia.
Qed.

Lemma iter_xO_pow2 (m d : positive) :
  Z.pos (Pos.iter xO m d) = Z.pos m * 2 ^ Z.pos d.
Proof.
  induction d as [|d IH] using Pos.peano_ind.
  - simpl. lia.
  - rewrite Pos.iter_succ, Pos2Z.inj_xO, IH, Pos2Z.inj_succ, Z.pow_succ_r by lia. lia.
Qed.

(** What validity says of the mantissa of a binary64 number. *)
Lemma bounded_digits (m : positive) (e : Z) :
  bounded prec emax m e = true ->
  -1074 <= e
  /\ Z.pos (digits2_pos m) <= 53
  /\ (-1074 < e -> Z.pos (digits2_pos m) = 53).
Proof.
  unfold bounded, canonical_mantissa, fexp, emin, prec, emax.
  intros [H _]%andb_prop. apply Z.eqb_eq in H. lia.
Qed.

(** Of two positive binary64 numbers, the one that [SFcompare] does not put
    below the other has the greater aligned mantissa. *)
Lemma aligned_mantissas (mb mx : positive) (eb ex : Z) :
  bounded prec emax mb eb = true ->
  bounded prec emax mx ex = true ->
  SFltb (S754_finite false mb eb) (S754_finite false mx ex) = false ->
  Z.pos (fst (shl_align mx ex (Z.min eb ex)))
  <= Z.pos (fst (shl_align mb eb (Z.min eb ex))).
Proof.
  intros Hb Hx. unfold SFltb; simpl.
  destruct (Z.compare_spec eb ex) as [->|Hlt|Hgt]; [|done|].
  - rewrite Z.min_id. unfold shl_align. rewrite Z.sub_diag. simpl.
    change (Pos.compare_cont Eq mb mx) with (Pos.compare mb mx).
    destruct (Pos.compare_spec mb mx); [lia|done|lia].
  - intros _. rewrite Z.min_r by lia. unfold shl_align. rewrite Z.sub_diag.
    destruct (ex - eb) as [|d|d] eqn:Hd; [lia|lia|]. simpl.
    rewrite iter_xO_pow2.
    apply bounded_digits in Hb as (_ & _ & Hb), Hx as (Hex & Hx & _).
    specialize (Hb ltac:(lia)).
    pose proof (digits2_pos_bounds mb) as [Hmb _].
    pose proof (digits2_pos_bounds mx) as [_ Hmx].
    rewrite Hb in Hmb.
    assert (Z.pos mx < 2 ^ 53)
      by (eapply Z.lt_le_trans; [exact Hmx|apply Z.pow_le_mono_r; lia]).
    assert (2 ^ 1 <= 2 ^ Z.pos d) by (apply Z.pow_le_mono_r; lia).
    change (53 - 1) with 52 in Hmb.
    change (2 ^ 52) with 4503599627370496 in Hmb.
    change (2 ^ 53) with 9007199254740992 in *.
    change (2 ^ 1) with 2 in *. nia.
Qed.

(** The sum of a number that is not below zero and a positive number (or
    NaN) is not below zero. *)
Lemma add_not_below_zero (b x : float) :
  (x <=? 0)%float = false ->
  (b <? 0)%float = false ->
  (b + x <? 0)%float = false.
Proof.
  rewrite !leb_spec, !ltb_spec, add_spec.
  change (Prim2SF 0) with (S754_zero false).
  unfold SFleb, SF64add.
  destruct (Prim2SF x) as [[]| [] | |[] mx ex], (Prim2SF b) as [[]| [] | |[] mb eb];
    simpl; try congruence; try done.
  intros _ _. apply has_sign_false_not_below_zero, binary_round_sign.
Qed.

(** The difference of a number that is not below zero and a positive number
    (or NaN) that it is not below is not below zero. *)
Lemma sub_not_below_zero (b x : float) :
  (x <=? 0)%float = false ->
  (b <? x)%float = false ->
  (b <? 0)%float = false ->
  (b - x <? 0)%float = false.
Proof.
  rewrite !leb_spec, !ltb_spec, sub_spec.
  change (Prim2SF 0) with (S754_zero false).
  pose proof (Prim2SF_valid b) as Hb. pose proof (Prim2SF_valid x) as Hx.
  unfold SFleb, SF64sub.
  destruct (Prim2SF x) as [[]| [] | |[] mx ex], (Prim2SF b) as [[]| [] | |[] mb eb];
    try (simpl; congruence); try done.
  intros _ Hcmp _.
  apply has_sign_false_not_below_zero, binary_normalize_nonneg.
  pose proof (aligned_mantissas mb mx eb ex Hb Hx Hcmp). simpl. lia.
Qed.

Lemma has_sign_false_nonneg (r : spec_float) :
  has_sign false r -> SFleb (S754_zero false) r = true.
Proof. by intros []. Qed.

(** Adding a positive finite number to a number that is at least zero gives
    a number that is at least zero. *)
Lemma add_nonneg (b x : float) :
  (0 <? x)%float = true ->
  (x <? infinity)%float = true ->
  (0 <=? b)%float = true ->
  (0 <=? b + x)%float = true.
Proof.
  rewrite !leb_spec, !ltb_spec, add_spec.
  change (Prim2SF 0) with (S754_zero false).
  change (Prim2SF infinity) with (S754_infinity false).
  unfold SFltb, SF64add.
  destruct (Prim2SF x) as [[]| [] | |[] mx ex], (Prim2SF b) as [[]| [] | |[] mb eb];
    simpl; try congruence; try done.
  intros _ _ _. apply has_sign_false_nonneg, binary_round_sign.
Qed.

(** Taking a positive finite number from a number that is at least zero and
    not below it gives a number that is at least zero. *)
Lemma sub_nonneg (b x : float) :
  (0 <? x)%float = true ->
  (x <? infinity)%float = true ->
  (b <? x)%float = false ->
  (0 <=? b)%float = true ->
  (0 <=? b - x)%float = true.
Proof.
  rewrite !leb_spec, !ltb_spec, sub_spec.
  change (Prim2SF 0) with (S754_zero false).
  change (Prim2SF infinity) with (S754_infinity false).
  pose proof (Prim2SF_valid b) as Hb. pose proof (Prim2SF_valid x) as Hx.
  unfold SF64sub.
  destruct (Prim2SF x) as [[]| [] | |[] mx ex], (Prim2SF b) as [[]| [] | |[] mb eb];
    try (simpl; congruence); try done.
  intros _ _ Hcmp _.
  apply has_sign_false_nonneg, binary_normalize_nonneg.
  pose proof (aligned_mantissas mb mx eb ex Hb Hx Hcmp). simpl. lia.
Qed.

(** At least zero is not below zero. *)
Lemma nonneg_not_below_zero (b : float) :
  (0 <=? b)%float = true -> (b <? 0)%float = false.
Proof.
  rewrite leb_spec, ltb_spec.
  change (Prim2SF 0) with (S754_zero false).
  unfold SFleb, SFltb.
  destruct (Prim2SF b) as [[]| [] | |[] mb eb]; simpl; congruence.
Qed.

(** A finite number that is not at or below zero is above it. *)
Lemma finite_positive (x : float) :
  (x <=? 0)%float = false ->
  (x <? infinity)%float = true ->
  (0 <? x)%float = true.
Proof.
  rewrite leb_spec, !ltb_spec.
  change (Prim2SF 0) with (S754_zero false).
  change (Prim2SF infinity) with (S754_infinity false).
  unfold SFleb, SFltb.
  destruct (Prim2SF x) as [[]| [] | |[] mx ex]; simpl; congruence.
Qed.

End Binary64.

(** ** Rounding in binary64 arithmetic *)

Section Rounding64.

Lemma digits2_pos_unique (m : positive) (d : Z) :
  2 ^ (d - 1) <= Z.pos m < 2 ^ d -> Z.pos (digits2_pos m) = d.
Proof.
  intros [Hlo Hhi]. pose proof (digits2_pos_bounds m) as [Dlo Dhi].
  set (D := Z.pos (digits2_pos m)) in *.
  assert (0 < d).
  { destruct (Z.lt_ge_cases 0 d) as [|Hd]; [done|].
    assert (2 ^ d <= 1); [|lia].
    destruct (Z.eq_dec d 0) as [->|]; [simpl; lia|].
    rewrite Z.pow_neg_r by lia. lia. }
  destruct (Z.lt_trichotomy D d) as [Hlt|[Heq|Hgt]]; [|done|].
  - assert (2 ^ D <= 2 ^ (d - 1)) by (apply Z.pow_le_mono_r; lia). lia.
  - assert (2 ^ d <= 2 ^ (D - 1)) by (apply Z.pow_le_mono_r; lia). lia.
Qed.

Ltac bool_iff :=
  split;
  [first [discriminate | intros _; lia]
  |first [intros; reflexivity | intros; exfalso; lia]].

Lemma shr_inv_bits (m k : Z) (mrs : shr_record) :
  shr_inv m k mrs ->
  0 <= shr_m mrs
  /\ exists rem,
       m = shr_m mrs * 2 ^ k + rem
       /\ 0 <= rem < 2 ^ k
       /\ (if shr_r mrs then 2 ^ k <= 2 * rem else 2 * rem < 2 ^ k)
       /\ (if shr_s mrs then 0 < rem /\ 2 * rem <> 2 ^ k else rem = 0 \/ 2 * rem = 2 ^ k).
Proof.
  intros (Hq & rem & Hm & Hrem & Hr & Hs). split; [done|].
  exists rem. repeat split; try lia.
  - destruct (shr_r mrs).
    + by apply Hr.
    + destruct (Z.le_gt_cases (2 ^ k) (2 * rem)) as [H|H]; [|lia].
      apply Hr in H. discriminate.
  - destruct (shr_s mrs).
    + by apply Hs.
    + destruct (Z.eq_dec rem 0) as [|Hn]; [by left|].
      destruct (Z.eq_dec (2 * rem) (2 ^ k)) as [|Hn2]; [by right|].
      assert (false = true); [|discriminate]. apply Hs. lia.
Qed.

Lemma shr_1_inv (m k : Z) (mrs : shr_record) :
  0 <= k -> shr_inv m k mrs -> shr_inv m (k + 1) (shr_1 mrs).
Proof.
  intros Hk (Hq & rem & Hm & Hrem & Hr & Hs)%shr_inv_bits.
  unfold shr_inv.
  rewrite Z.pow_add_r, Z.pow_1_r by lia.
  assert (0 < 2 ^ k) as HP by (apply Z.pow_pos_nonneg; lia).
  set (P := 2 ^ k) in *. clearbody P.
  destruct mrs as [q [] []]; simpl in *;
    destruct q as [|[p|p|]|p]; simpl; (split; [lia|]); try lia;
    first [ exists rem; split; [lia|]; split; [lia|]; split; bool_iff
          | exists (P + rem); split; [lia|]; split; [lia|]; split; bool_iff ].
Qed.

Lemma iter_shr_1_inv (m : Z) (p : positive) (k : Z) (mrs : shr_record) :
  0 <= k -> shr_inv m k mrs ->
  shr_inv m (k + Z.pos p) (SpecFloat.iter_pos shr_1 p mrs).
Proof.
  revert k mrs. induction p as [p IH|p IH|]; intros k mrs Hk H; simpl.
  - replace (k + Z.pos p~1) with (k + 1 + Z.pos p + Z.pos p) by lia.
    apply IH; [lia|]. apply IH; [lia|]. by apply shr_1_inv.
  - replace (k + Z.pos p~0) with (k + Z.pos p + Z.pos p) by lia.
    apply IH; [lia|]. by apply IH.
  - by apply shr_1_inv.
Qed.

Lemma shr_inv_start (m : Z) :
  0 <= m -> shr_inv m 0 (Build_shr_record m false false).
Proof.
  intros Hm. split; [done|]. exists 0. simpl.
  split; [lia|]. split; [lia|]. split; bool_iff.
Qed.

Lemma fexp_eq (k : Z) : fexp prec emax k = Z.max (k - 53) (-1074).
Proof. reflexivity. Qed.

Lemma canonical_eq (m : positive) (e : Z) :
  canonical_mantissa prec emax m e = true <->
  e = Z.max (Z.pos (digits2_pos m) + e - 53) (-1074).
Proof.
  unfold canonical_mantissa. rewrite fexp_eq, Z.eqb_eq. lia.
Qed.

Lemma pow2_pos (k : Z) : 0 <= k -> 0 < 2 ^ k.
Proof. intros. apply Z.pow_pos_nonneg; lia. Qed.

Lemma scaled_pos (m : positive) (e : Z) : -1074 <= e -> 0 < scaled m e.
Proof.
  intros. unfold scaled. pose proof (pow2_pos (e + 1074)). nia.
Qed.

(** The magnitude [digits + e] grows with the value. *)
Lemma magnitude_mono (M m : positive) (E e : Z) :
  -1074 <= E -> -1074 <= e ->
  scaled M E <= scaled m e ->
  Z.pos (digits2_pos M) + E <= Z.pos (digits2_pos m) + e.
Proof.
  intros HE He H. unfold scaled in H.
  pose proof (digits2_pos_bounds M) as [HM _].
  pose proof (digits2_pos_bounds m) as [_ Hm].
  set (dM := Z.pos (digits2_pos M)) in *. set (dm := Z.pos (digits2_pos m)) in *.
  assert (0 < dM) by (unfold dM; lia). assert (0 < dm) by (unfold dm; lia).
  assert (2 ^ (dM - 1 + (E + 1074)) < 2 ^ (dm + (e + 1074))) as Hlt.
  { rewrite (Z.pow_add_r 2 (dM - 1)), (Z.pow_add_r 2 dm) by lia.
    pose proof (pow2_pos (E + 1074)). pose proof (pow2_pos (e + 1074)).
    assert (2 ^ (dM - 1) * 2 ^ (E + 1074) <= Z.pos M * 2 ^ (E + 1074))
      by (apply Z.mul_le_mono_nonneg_r; lia).
    assert (Z.pos m * 2 ^ (e + 1074) < 2 ^ dm * 2 ^ (e + 1074))
      by (apply Z.mul_lt_mono_pos_r; lia).
    lia. }
  apply Z.pow_lt_mono_r_iff in Hlt; lia.
Qed.

(** Two canonical representations of one value are the same. *)
Lemma canonical_unique (M m : positive) (E e : Z) :
  canonical_mantissa prec emax M E = true ->
  canonical_mantissa prec emax m e = true ->
  scaled M E = scaled m e ->
  M = m /\ E = e.
Proof.
  intros HM Hm H. apply canonical_eq in HM, Hm.
  assert (-1074 <= E) as HE by lia. assert (-1074 <= e) as He by lia.
  pose proof (magnitude_mono M m E e HE He) as Hle.
  pose proof (magnitude_mono m M e E He HE) as Hge.
  assert (E = e) as -> by lia. split; [|done].
  unfold scaled in H. pose proof (pow2_pos (e + 1074)).
  assert (Z.pos M = Z.pos m) by nia. congruence.
Qed.

(** The last step of [binary_round_aux] on a rounded mantissa of 53 bits,
    or on [2^53] when the rounding carried. *)
Lemma binary_round_aux_last (s : bool) (m f : Z) :
  -1074 < f ->
  2 ^ 52 <= m <= 2 ^ 53 ->
  exists m1 e1,
    (let '(mrs, e) := shr_fexp prec emax m f loc_Exact in
     match shr_m mrs with
     | 0 => S754_zero s
     | Z.pos m0 => if e <=? emax - prec then S754_finite s m0 e else S754_infinity s
     | Z.neg _ => S754_nan
     end)
    = (if e1 <=? emax - prec then S754_finite s m1 e1 else S754_infinity s)
    /\ canonical_mantissa prec emax m1 e1 = true
    /\ scaled m1 e1 = m * 2 ^ (f + 1074)
    /\ f <= e1.
Proof.
  intros Hf Hm. destruct (Z.eq_dec m (2 ^ 53)) as [->|Hne].
  - exists (4503599627370496%positive), (f + 1).
    unfold shr_fexp. rewrite fexp_eq.
    change (Zdigits2 (2 ^ 53)) with 54.
    replace (Z.max (54 + f - 53) (-1074) - f) with 1 by lia.
    split; [reflexivity|]. split; [apply canonical_eq; simpl; lia|].
    split; [|lia]. unfold scaled.
    replace (f + 1 + 1074) with (1 + (f + 1074)) by lia.
    rewrite Z.pow_add_r by lia. change (2 ^ 53) with 9007199254740992. lia.
  - destruct m as [|m|m]; [simpl in Hm; lia| |lia].
    assert (Z.pos (digits2_pos m) = 53) as Hd
      by (apply digits2_pos_unique; change (53 - 1) with 52; lia).
    exists m, f. unfold shr_fexp. rewrite fexp_eq. cbn [Zdigits2]. rewrite Hd.
    replace (Z.max (53 + f - 53) (-1074) - f) with 0 by lia.
    split; [reflexivity|]. split; [apply canonical_eq; lia|]. done.
Qed.

Lemma binary_round_aux_spec (s : bool) (mz : positive) (ez : Z) :
  -1074 <= ez ->
  ez <= fexp prec emax (Z.pos (digits2_pos mz) + ez) ->
  exists m1 e1,
    binary_round_aux prec emax s (Z.pos mz) ez loc_Exact
    = (if e1 <=? emax - prec then S754_finite s m1 e1 else S754_infinity s)
    /\ canonical_mantissa prec emax m1 e1 = true
    /\ 2 * Z.abs (scaled mz ez - scaled m1 e1) <= 2 ^ (e1 + 1074)
    /\ (forall M E, canonical_mantissa prec emax M E = true ->
          scaled mz ez <= scaled M E -> scaled m1 e1 <= scaled M E)
    /\ (forall M E, canonical_mantissa prec emax M E = true ->
          scaled M E <= scaled mz ez -> scaled M E <= scaled m1 e1).
Proof.
  intros Hez Hf. rewrite fexp_eq in Hf.
  unfold binary_round_aux. unfold shr_fexp at 1. cbn [Zdigits2]. rewrite fexp_eq.
  set (d := Z.pos (digits2_pos mz)) in *.
  destruct (Z.max (d + ez - 53) (-1074) - ez) as [|p|p] eqn:Hn; [| |lia].
  - (* no bit is shifted out *)
    cbn [shr shr_record_of_loc loc_of_shr_record shr_m round_nearest_even].
    unfold shr_fexp. cbn [Zdigits2]. rewrite fexp_eq. fold d. rewrite Hn.
    cbn [shr shr_record_of_loc shr_m].
    exists mz, ez. split; [reflexivity|].
    split; [apply canonical_eq; fold d; lia|].
    split; [|by split; intros M E _].
    rewrite Z.sub_diag. simpl. pose proof (pow2_pos (ez + 1074)). lia.
  - (* [Z.pos p] bits are shifted out *)
    cbn [shr shr_record_of_loc].
    pose proof (iter_shr_1_inv (Z.pos mz) p 0 _ ltac:(lia)
                  (shr_inv_start (Z.pos mz) ltac:(lia))) as Hinv.
    rewrite Z.add_0_l in Hinv. apply shr_inv_bits in Hinv.
    destruct (SpecFloat.iter_pos shr_1 p _) as [q r sb].
    cbn [shr_m shr_r shr_s] in Hinv. destruct Hinv as (Hq & rem & Hm & Hrem & Hr & Hs).
    cbn [shr_m].
    set (n := Z.pos p) in *. set (N := 2 ^ n) in *.
    assert (0 < n) as Hn0 by (unfold n; lia).
    assert (d = 53 + n) as Hd by lia.
    assert (0 < N) as HN by (apply pow2_pos; lia).
    pose proof (digits2_pos_bounds mz) as [Hlo Hhi]. fold d in Hlo, Hhi.
    replace (d - 1) with (52 + n) in Hlo by lia. rewrite Hd in Hhi.
    rewrite Z.pow_add_r in Hlo, Hhi by lia. fold N in Hlo, Hhi.
    change (2 ^ 52) with 4503599627370496 in *.
    change (2 ^ 53) with 9007199254740992 in *.
    assert (4503599627370496 <= q < 9007199254740992) as Hqb by nia.
    set (m' := round_nearest_even q _).
    assert ((m' = q /\ 2 * rem <= N) \/ (m' = q + 1 /\ N <= 2 * rem)) as Hm'.
    { unfold m'. destruct r, sb; simpl; try (left; split; [done|lia]);
        try (right; split; [done|lia]).
      destruct (Z.even q); [left|right]; (split; [done|lia]). }
    destruct (binary_round_aux_last s m' (ez + n) ltac:(lia)) as (m1 & e1 & -> & Hc & Hv & He1).
    { change (2 ^ 52) with 4503599627370496.
      change (2 ^ 53) with 9007199254740992. lia. }
    exists m1, e1. split; [done|]. split; [done|].
    pose proof (pow2_pos (ez + 1074) ltac:(lia)) as HPz.
    assert (2 ^ (ez + n + 1074) = N * 2 ^ (ez + 1074)) as HNP.
    { replace (ez + n + 1074) with (n + (ez + 1074)) by lia.
      by rewrite Z.pow_add_r by lia. }
    rewrite HNP in Hv.
    set (Pz := 2 ^ (ez + 1074)) in *.
    assert (scaled mz ez = (q * N + rem) * Pz) as Hvz by (unfold scaled; by rewrite Hm).
    assert (q <= m') as Hqm by (destruct Hm' as [[-> _]|[-> _]]; lia).
    split; [|split].
    + rewrite Hvz, Hv.
      assert (N * Pz <= 2 ^ (e1 + 1074)) as Hpow.
      { rewrite <- HNP. apply Z.pow_le_mono_r; lia. }
      destruct Hm' as [[-> Hh]|[-> Hh]].
      * replace ((q * N + rem) * Pz - q * (N * Pz)) with (rem * Pz) by ring.
        rewrite Z.abs_eq by nia. nia.
      * replace ((q * N + rem) * Pz - (q + 1) * (N * Pz)) with (- ((N - rem) * Pz)) by ring.
        rewrite Z.abs_opp, Z.abs_eq by nia. nia.
    + intros M E HcM Hle.
      assert (-1074 <= E) as HE by (apply canonical_eq in HcM; lia).
      pose proof (magnitude_mono mz M ez E Hez HE Hle) as Hmag.
      fold d in Hmag. apply canonical_eq in HcM.
      assert (ez + n <= E) as HfE by lia.
      rewrite Hvz in Hle. rewrite Hv. unfold scaled in *.
      replace (E + 1074) with ((E - (ez + n)) + (n + (ez + 1074))) in * by lia.
      rewrite (Z.pow_add_r 2 (E - (ez + n))) in * by lia.
      rewrite (Z.pow_add_r 2 n) in * by lia. fold N Pz in Hle |- *.
      pose proof (pow2_pos (E - (ez + n)) ltac:(lia)) as HPE.
      set (A := Z.pos M * 2 ^ (E - (ez + n))) in *.
      replace (Z.pos M * (2 ^ (E - (ez + n)) * (N * Pz))) with (A * N * Pz) in * by (unfold A; ring).
      assert (q * N + rem <= A * N) as HA by nia.
      assert (m' <= A) as HmA by (destruct Hm' as [[-> Hh]|[-> Hh]]; nia).
      nia.
    + intros M E HcM Hle.
      assert (-1074 <= E) as HE by (apply canonical_eq in HcM; lia).
      apply canonical_eq in HcM.
      rewrite Hvz in Hle. rewrite Hv. unfold scaled in *.
      destruct (Z.le_gt_cases (ez + n) E) as [HfE|HfE].
      * replace (E + 1074) with ((E - (ez + n)) + (n + (ez + 1074))) in * by lia.
        rewrite (Z.pow_add_r 2 (E - (ez + n))) in * by lia.
        rewrite (Z.pow_add_r 2 n) in * by lia. fold N Pz in Hle |- *.
        pose proof (pow2_pos (E - (ez + n)) ltac:(lia)) as HPE.
        set (A := Z.pos M * 2 ^ (E - (ez + n))) in *.
        replace (Z.pos M * (2 ^ (E - (ez + n)) * (N * Pz))) with (A * N * Pz) in * by (unfold A; ring).
        assert (A * N <= q * N + rem) as HA by nia.
        assert (A <= q) as HAq by nia.
        nia.
      * pose proof (digits2_pos_bounds M) as [_ HMhi].
        set (dM := Z.pos (digits2_pos M)) in *.
        assert (dM <= 53) as HdM by lia.
        assert (0 < dM) as HdM0 by (unfold dM; lia).
        assert (2 ^ dM <= 9007199254740992) as HpM
          by (change 9007199254740992 with (2 ^ 53); apply Z.pow_le_mono_r; lia).
        assert (2 * 2 ^ (E + 1074) <= N * Pz) as HpE.
        { rewrite <- HNP. replace (2 * 2 ^ (E + 1074)) with (2 ^ (1 + (E + 1074)))
            by (rewrite Z.pow_add_r by lia; done).
          apply Z.pow_le_mono_r; lia. }
        pose proof (pow2_pos (E + 1074) ltac:(lia)) as HPE.
        nia.
Qed.

Lemma shl_align_spec (m : positive) (e e' : Z) :
  snd (shl_align m e e') = Z.min e e'
  /\ Z.pos (fst (shl_align m e e')) = Z.pos m * 2 ^ (e - Z.min e e').
Proof.
  unfold shl_align. destruct (e' - e) as [|d|d] eqn:Hd; simpl.
  - rewrite Z.min_l by lia. rewrite Z.sub_diag. simpl. lia.
  - rewrite Z.min_l by lia. rewrite Z.sub_diag. simpl. lia.
  - rewrite Z.min_r by lia. split; [done|]. rewrite iter_xO_pow2. f_equal. f_equal. lia.
Qed.

Lemma shl_align_scaled (m : positive) (e e' : Z) :
  -1074 <= Z.min e e' ->
  scaled (fst (shl_align m e e')) (Z.min e e') = scaled m e.
Proof.
  intros H. unfold scaled. rewrite (proj2 (shl_align_spec m e e')).
  rewrite <- Z.mul_assoc, <- Z.pow_add_r by lia. f_equal. f_equal. lia.
Qed.

Lemma digits2_pos_shift (m m' : positive) (k : Z) :
  0 <= k -> Z.pos m' = Z.pos m * 2 ^ k ->
  Z.pos (digits2_pos m') = Z.pos (digits2_pos m) + k.
Proof.
  intros Hk H. apply digits2_pos_unique. rewrite H.
  pose proof (digits2_pos_bounds m) as [Hlo Hhi].
  set (d := Z.pos (digits2_pos m)) in *.
  assert (0 < d) by (unfold d; lia).
  replace (d + k - 1) with (d - 1 + k) by lia.
  rewrite !Z.pow_add_r by lia. pose proof (pow2_pos k Hk). nia.
Qed.

(** What [binary_round] returns for a mantissa and an exponent of at least
    [-1074]: the canonical representation of a value within half a unit in
    the last place, the same value when it is representable, or an
    infinity. *)
Lemma binary_round_spec (s : bool) (m : positive) (e : Z) :
  -1074 <= e ->
  exists m1 e1,
    binary_round prec emax s m e
    = (if e1 <=? emax - prec then S754_finite s m1 e1 else S754_infinity s)
    /\ canonical_mantissa prec emax m1 e1 = true
    /\ 2 * Z.abs (scaled m e - scaled m1 e1) <= 2 ^ (e1 + 1074)
    /\ (forall M E, canonical_mantissa prec emax M E = true ->
          scaled m e <= scaled M E -> scaled m1 e1 <= scaled M E)
    /\ (forall M E, canonical_mantissa prec emax M E = true ->
          scaled M E <= scaled m e -> scaled M E <= scaled m1 e1).
Proof.
  intros He. unfold binary_round.
  set (f := fexp prec emax (Z.pos (digits2_pos m) + e)).
  assert (-1074 <= f) as Hf by (unfold f; rewrite fexp_eq; lia).
  pose proof (shl_align_spec m e f) as [He' Hm'].
  pose proof (shl_align_scaled m e f ltac:(lia)) as Hsc.
  destruct (shl_align m e f) as [mz ez]. simpl in He', Hm', Hsc. subst ez.
  rewrite <- Hsc.
  apply binary_round_aux_spec; [lia|].
  rewrite (digits2_pos_shift m mz (e - Z.min e f)) by (lia || done).
  replace (Z.pos (digits2_pos m) + (e - Z.min e f) + Z.min e f)
    with (Z.pos (digits2_pos m) + e) by lia.
  fold f. lia.
Qed.

Lemma bounded_canonical (m : positive) (e : Z) :
  bounded prec emax m e = true ->
  canonical_mantissa prec emax m e = true /\ -1074 <= e <= 971.
Proof.
  intros H. pose proof (bounded_digits m e H) as (He & _).
  unfold bounded in H. apply andb_prop in H as [Hc Hle].
  apply Z.leb_le in Hle. change (emax - prec) with 971 in Hle. done.
Qed.

(** The exponent of a canonical representation grows with the value. *)
Lemma canonical_exponent_mono (M m : positive) (E e : Z) :
  canonical_mantissa prec emax M E = true ->
  canonical_mantissa prec emax m e = true ->
  scaled M E <= scaled m e -> E <= e.
Proof.
  intros HM Hm H. apply canonical_eq in HM, Hm.
  pose proof (magnitude_mono M m E e ltac:(lia) ltac:(lia) H). lia.
Qed.

Lemma SFadd_finite_spec (mb mx : positive) (eb ex : Z) :
  bounded prec emax mb eb = true ->
  bounded prec emax mx ex = true ->
  exists m1 e1,
    SF64add (S754_finite false mb eb) (S754_finite false mx ex)
    = (if e1 <=? emax - prec then S754_finite false m1 e1 else S754_infinity false)
    /\ canonical_mantissa prec emax m1 e1 = true
    /\ 2 * Z.abs (scaled mb eb + scaled mx ex - scaled m1 e1) <= 2 ^ (e1 + 1074)
    /\ (forall M E, canonical_mantissa prec emax M E = true ->
          scaled mb eb + scaled mx ex <= scaled M E -> scaled m1 e1 <= scaled M E)
    /\ (forall M E, canonical_mantissa prec emax M E = true ->
          scaled M E <= scaled mb eb + scaled mx ex -> scaled M E <= scaled m1 e1).
Proof.
  intros Hb Hx.
  apply bounded_canonical in Hb as [_ Hb], Hx as [_ Hx].
  unfold SF64add, SFadd. cbn [cond_Zopp].
  set (ez := Z.min eb ex).
  pose proof (shl_align_scaled mb eb ex ltac:(lia)) as Hsb.
  pose proof (shl_align_scaled mx ex eb ltac:(lia)) as Hsx.
  rewrite (Z.min_comm ex eb) in Hsx. fold ez in Hsb, Hsx.
  replace (shl_align mb eb ez) with (shl_align mb eb ex) in *.
  2:{ unfold shl_align, ez. destruct (Z.min_spec eb ex) as [[? ->]|[? ->]]; [|done].
      rewrite Z.sub_diag. destruct (ex - eb) eqn:?; try lia; done. }
  replace (shl_align mx ex ez) with (shl_align mx ex eb) in *.
  2:{ unfold shl_align, ez. destruct (Z.min_spec eb ex) as [[? ->]|[? ->]]; [done|].
      rewrite Z.sub_diag. destruct (eb - ex) eqn:?; try lia; done. }
  set (a := fst (shl_align mb eb ex)) in *. set (c := fst (shl_align mx ex eb)) in *.
  change (Z.pos a + Z.pos c) with (Z.pos (a + c)). cbn [binary_normalize].
  assert (scaled (a + c) ez = scaled mb eb + scaled mx ex) as <-.
  { rewrite <- Hsb, <- Hsx. unfold scaled. rewrite Pos2Z.inj_add. ring. }
  apply binary_round_spec. unfold ez. lia.
Qed.

Lemma shl_align_min (m : positive) (e e' : Z) :
  shl_align m e (Z.min e e') = shl_align m e e'.
Proof.
  unfold shl_align. destruct (Z.min_spec e e') as [[? ->]|[? ->]]; [|done].
  rewrite Z.sub_diag. destruct (e' - e) eqn:?; try lia; done.
Qed.

Lemma SFsub_finite_spec (ms mx : positive) (es ex : Z) :
  bounded prec emax ms es = true ->
  bounded prec emax mx ex = true ->
  SFltb (S754_finite false ms es) (S754_finite false mx ex) = false ->
  (SF64sub (S754_finite false ms es) (S754_finite false mx ex) = S754_zero false
   /\ scaled ms es = scaled mx ex)
  \/ (exists m1 e1,
        SF64sub (S754_finite false ms es) (S754_finite false mx ex) = S754_finite false m1 e1
        /\ bounded prec emax m1 e1 = true
        /\ e1 <= es
        /\ 2 * Z.abs (scaled ms es - scaled mx ex - scaled m1 e1) <= 2 ^ (e1 + 1074)
        /\ (forall M E, canonical_mantissa prec emax M E = true ->
              scaled M E = scaled ms es - scaled mx ex -> m1 = M /\ e1 = E)).
Proof.
  intros Hs Hx Hcmp.
  pose proof (aligned_mantissas ms mx es ex Hs Hx Hcmp) as Hle.
  apply bounded_canonical in Hs as [Hcs Hs], Hx as [_ Hx].
  unfold SF64sub, SFsub. cbn [cond_Zopp].
  set (ez := Z.min es ex) in *.
  pose proof (shl_align_scaled ms es ex ltac:(lia)) as Hss.
  pose proof (shl_align_scaled mx ex es ltac:(lia)) as Hsx.
  rewrite (Z.min_comm ex es) in Hsx. fold ez in Hss, Hsx.
  rewrite <- (shl_align_min ms es ex) in Hss.
  rewrite <- (shl_align_min mx ex es), (Z.min_comm ex es) in Hsx. fold ez in Hss, Hsx.
  set (a := fst (shl_align ms es ez)) in *. set (c := fst (shl_align mx ex ez)) in *.
  assert (scaled ms es - scaled mx ex = (Z.pos a - Z.pos c) * 2 ^ (ez + 1074)) as Hdiff.
  { rewrite <- Hss, <- Hsx. unfold scaled. ring. }
  destruct (Z.pos a - Z.pos c) as [|D|D] eqn:HD; [left|right|lia].
  - split; [reflexivity|lia].
  - cbn [binary_normalize].
    destruct (binary_round_spec false D ez ltac:(unfold ez; lia))
      as (m1 & e1 & -> & Hc & Hbound & Hup & Hlow).
    change (Z.pos D * 2 ^ (ez + 1074)) with (scaled D ez) in Hdiff.
    rewrite <- Hdiff in *.
    assert (scaled m1 e1 <= scaled ms es) as Hms.
    { apply Hup; [done|]. pose proof (scaled_pos mx ex ltac:(lia)). lia. }
    pose proof (canonical_exponent_mono m1 ms e1 es Hc Hcs Hms) as He1.
    exists m1, e1.
    change (emax - prec) with 971. destruct (Z.leb_spec e1 971) as [_|]; [|lia].
    split; [done|]. split.
    { unfold bounded. rewrite Hc. apply Z.leb_le. change (emax - prec) with 971. lia. }
    split; [done|]. split; [done|].
    intros M E HcM HM. apply canonical_unique; [done..|].
    apply Z.le_antisymm; [apply Hup|apply Hlow]; (done || lia).
Qed.

Lemma SFeqb_finite_refl (m : positive) (e : Z) :
  SFeqb (S754_finite false m e) (S754_finite false m e) = true.
Proof.
  unfold SFeqb, SFcompare. rewrite Z.compare_refl.
  change (Pos.compare_cont Eq m m) with (Pos.compare m m).
  by rewrite Pos.compare_refl.
Qed.

Lemma SFsub_self (m : positive) (e : Z) :
  SF64sub (S754_finite false m e) (S754_finite false m e) = S754_zero false.
Proof.
  unfold SF64sub, SFsub. cbn [cond_Zopp]. by rewrite Z.sub_diag.
Qed.

Lemma add_sub_values (b x : float) :
  (0 <? x)%float = true ->
  (b <? 0)%float = false ->
  (b + x <? infinity)%float = true ->
  (b + x <? x)%float = false ->
  exists vb vx vs vr,
    exact_value b = Some vb
    /\ exact_value x = Some vx
    /\ exact_value (b + x) = Some vs
    /\ exact_value (b + x - x) = Some vr
    /\ Z.abs (vr - vb) <= unit_in_last_place (b + x)
    /\ (vs = vb + vx -> (b + x - x =? b)%float = true).
Proof.
  intros Hx Hb Hfin Hok.
  unfold exact_value, unit_in_last_place.
  rewrite FloatAxioms.eqb_spec, sub_spec. rewrite !ltb_spec in *.
  pose proof (Prim2SF_valid (b + x)) as Hvs.
  rewrite add_spec in *.
  pose proof (Prim2SF_valid b) as Hvb. pose proof (Prim2SF_valid x) as Hvx.
  change (Prim2SF 0) with (S754_zero false) in *.
  change (Prim2SF infinity) with (S754_infinity false) in *.
  destruct (Prim2SF x) as [[]| [] | |[] mx ex]; try (simpl in *; discriminate);
    destruct (Prim2SF b) as [sb| [] | |[] mb eb]; try (simpl in *; discriminate).
  - (* a balance of zero *)
    change (SF64add (S754_zero sb) (S754_finite false mx ex)) with (S754_finite false mx ex).
    rewrite SFsub_self.
    exists 0, (scaled mx ex), (scaled mx ex), 0. repeat split.
    simpl. pose proof (pow2_pos (ex + 1074)).
    apply bounded_canonical in Hvx. lia.
  - (* a positive balance *)
    destruct (SFadd_finite_spec mb mx eb ex Hvb Hvx)
      as (ms & es & Hadd & Hcs & Hb1 & _ & _).
    rewrite Hadd in *. clear Hadd.
    destruct (es <=? emax - prec); [|discriminate].
    apply bounded_canonical in Hvb as Hcb. destruct Hcb as [Hcb Heb].
    pose proof (scaled_pos mb eb ltac:(lia)) as Hpb.
    destruct (SFsub_finite_spec ms mx es ex Hvs Hvx Hok)
      as [[-> Heq]|(mr & er & -> & Hbr & Her & Hb2 & Hex)].
    + exists (scaled mb eb), (scaled mx ex), (scaled ms es), 0. cbn [cond_Zopp].
      repeat split; lia.
    + exists (scaled mb eb), (scaled mx ex), (scaled ms es), (scaled mr er).
      cbn [cond_Zopp]. split; [done|]. split; [done|]. split; [done|]. split; [done|].
      split.
      * apply bounded_canonical in Hbr as [_ Her1].
        assert (2 ^ (er + 1074) <= 2 ^ (es + 1074)) by (apply Z.pow_le_mono_r; lia).
        lia.
      * intros Hs. destruct (Hex mb eb Hcb ltac:(lia)) as [-> ->].
        apply SFeqb_finite_refl.
Qed.

(** Of two positive canonical numbers, the one of greater value is not put
    below the other by the comparison. *)
Lemma SFltb_scaled (ms mx : positive) (es ex : Z) :
  canonical_mantissa prec emax ms es = true ->
  canonical_mantissa prec emax mx ex = true ->
  scaled mx ex <= scaled ms es ->
  SFltb (S754_finite false ms es) (S754_finite false mx ex) = false.
Proof.
  intros Hs Hx Hle.
  pose proof (canonical_exponent_mono mx ms ex es Hx Hs Hle) as He.
  unfold SFltb, SFcompare.
  destruct (Z.compare_spec es ex) as [->|Hlt|Hgt]; [|lia|done].
  change (Pos.compare_cont Eq ms mx) with (Pos.compare ms mx).
  destruct (Pos.compare_spec ms mx) as [|Hlt|]; [done| |done].
  unfold scaled in Hle. apply canonical_eq in Hx.
  pose proof (pow2_pos (ex + 1074) ltac:(lia)). nia.
Qed.

Lemma sum_not_below_amount (b x : float) :
  (0 <? x)%float = true ->
  (b <? 0)%float = false ->
  (b + x <? infinity)%float = true ->
  (b + x <? x)%float = false.
Proof.
  intros Hx Hb Hfin. rewrite !ltb_spec in *.
  pose proof (Prim2SF_valid (b + x)) as Hvs.
  rewrite add_spec in *.
  pose proof (Prim2SF_valid b) as Hvb. pose proof (Prim2SF_valid x) as Hvx.
  change (Prim2SF 0) with (S754_zero false) in *.
  change (Prim2SF infinity) with (S754_infinity false) in *.
  destruct (Prim2SF x) as [[]| [] | |[] mx ex]; try (simpl in *; discriminate);
    destruct (Prim2SF b) as [sb| [] | |[] mb eb]; try (simpl in *; discriminate).
  - change (SF64add (S754_zero sb) (S754_finite false mx ex)) with (S754_finite false mx ex).
    apply bounded_canonical in Hvx as [Hcx _]. by apply SFltb_scaled.
  - destruct (SFadd_finite_spec mb mx eb ex Hvb Hvx)
      as (ms & es & Hadd & Hcs & _ & _ & Hlow).
    rewrite Hadd in *. clear Hadd.
    destruct (es <=? emax - prec); [|discriminate].
    apply bounded_canonical in Hvx as [Hcx Hex], Hvb as [_ Heb].
    apply SFltb_scaled; [done..|]. apply Hlow; [done|].
    pose proof (scaled_pos mb eb ltac:(lia)). lia.
Qed.

End Rounding64.

(** ** Wallet operations *)

Section WalletFacts.

Implicit Types (w : Wallet) (x : float).

Lemma set_balance_Ok x w r w' :
  set_balance x w = (Ok r, w') ->
  (x <? 0)%float = false /\ w' = mkWallet (_currency_code w) x.
Proof.
  unfold set_balance, _validate_balance.
  destruct (x <? 0)%float; intros H; inversion H; auto.
Qed.

Lemma set_balance_Raise x w e w' :
  set_balance x w = (Raise e, w') ->
  e = ValueError NegativeBalance /\ w' = w.
Proof.
  unfold set_balance, _validate_balance.
  destruct (x <? 0)%float; intros H; inversion H; auto.
Qed.

Lemma deposit_Ok x w r w' :
  deposit x w = (Ok r, w') ->
  (x <=? 0)%float = false
  /\ (balance w + x <? 0)%float = false
  /\ w' = mkWallet (_currency_code w) (balance w + x)%float.
Proof.
  unfold deposit. destruct (x <=? 0)%float; [discriminate|].
  intros H. apply set_balance_Ok in H. tauto.
Qed.

Lemma deposit_Raise x w e w' :
  deposit x w = (Raise e, w') ->
  w' = w /\ exists why, e = ValueError why.
Proof.
  unfold deposit. destruct (x <=? 0)%float.
  - intros H; inversion H; eauto.
  - intros H. apply set_balance_Raise in H as [-> ->]. eauto.
Qed.

Lemma withdraw_Ok x w r w' :
  withdraw x w = (Ok r, w') ->
  r = true
  /\ (x <=? 0)%float = false
  /\ (balance w <? x)%float = false
  /\ (balance w - x <? 0)%float = false
  /\ w' = mkWallet (_currency_code w) (balance w - x)%float.
Proof.
  unfold withdraw, bind, ret.
  destruct (x <=? 0)%float; [discriminate|].
  destruct (balance w <? x)%float; [discriminate|].
  destruct (set_balance _ w) as [[[]|e] w1] eqn:E; [|discriminate].
  apply set_balance_Ok in E as [Hv ->].
  intros H; inversion H; auto.
Qed.

Lemma withdraw_Raise x w e w' :
  withdraw x w = (Raise e, w') ->
  w' = w
  /\ ((exists why, e = ValueError why)
      \/ e = InsufficientFundsError (balance w) x (_currency_code w)).
Proof.
  unfold withdraw, bind, ret.
  destruct (x <=? 0)%float; [intros H; inversion H; eauto|].
  destruct (balance w <? x)%float; [intros H; inversion H; eauto|].
  destruct (set_balance _ w) as [[[]|e1] w1] eqn:E; [discriminate|].
  apply set_balance_Raise in E as [-> ->].
  intros H; inversion H; eauto.
Qed.

(** A call that raises leaves the wallet as it was. *)
Lemma apply_op_Raise op w e w' :
  apply_op op w = (Raise e, w') -> w' = w.
Proof.
  destruct op as [x|x]; simpl.
  - intros H. by apply deposit_Raise in H as [-> _].
  - unfold bind. destruct (withdraw x w) as [[b|e1] w1] eqn:E; [discriminate|].
    apply withdraw_Raise in E as [-> _]. intros H; by inversion H.
Qed.

(** A call that returns leaves a balance that is not below zero. *)
Lemma apply_op_Ok op w r w' :
  apply_op op w = (Ok r, w') -> (balance w' <? 0)%float = false.
Proof.
  destruct op as [x|x]; simpl.
  - intros H. by apply deposit_Ok in H as (_ & Hv & ->).
  - unfold bind, ret. destruct (withdraw x w) as [[b|e1] w1] eqn:E; [|discriminate].
    apply withdraw_Ok in E as (_ & _ & _ & Hv & ->). intros H; by inversion H.
Qed.

(** No sequence of calls makes the balance compare below zero. *)
Lemma run_ops_not_below_zero ops w :
  (balance w <? 0)%float = false ->
  (balance (run_ops ops w) <? 0)%float = false.
Proof.
  revert w. induction ops as [|op ops IH]; intros w Hw; simpl; [done|].
  apply IH. destruct (apply_op op w) as [[r|e] w1] eqn:E; simpl.
  - by apply apply_op_Ok in E.
  - by apply apply_op_Raise in E as ->.
Qed.

(** On a wallet whose balance is not below zero the setter never objects to
    what [deposit] and [withdraw] assign: the first raises only for an amount
    [<= 0], the second only for that or for an amount above the balance. *)
Lemma deposit_returns (x : float) (w : Wallet) :
  (x <=? 0)%float = false ->
  (balance w <? 0)%float = false ->
  deposit x w = (Ok tt, mkWallet (_currency_code w) (balance w + x)%float).
Proof.
  intros Hx Hb. unfold deposit, set_balance, _validate_balance.
  by rewrite Hx, (add_not_below_zero _ _ Hx Hb).
Qed.

Lemma withdraw_returns (x : float) (w : Wallet) :
  (x <=? 0)%float = false ->
  (balance w <? x)%float = false ->
  (balance w <? 0)%float = false ->
  withdraw x w = (Ok true, mkWallet (_currency_code w) (balance w - x)%float).
Proof.
  intros Hx Hbx Hb. unfold withdraw, bind, ret, set_balance, _validate_balance.
  by rewrite Hx, Hbx, (sub_not_below_zero _ _ Hx Hbx Hb).
Qed.

(** X2. On a wallet whose balance is not below zero, what a deposit or a
    withdrawal does is decided by the amount alone, the check of the setter
    never fails. [deposit(x)] raises its [ValueError] when [x <= 0] and
    otherwise returns and leaves [balance + x]. [withdraw(x)] raises its
    [ValueError] when [x <= 0], otherwise [InsufficientFundsError] with the
    balance, [x] and the code when [x] is above the balance, and otherwise
    returns and leaves [balance - x]. A call that raises leaves the wallet
    as it was; a call that returns leaves a balance that is not below
    zero. *)
Lemma apply_op_outcomes (op : wallet_op) (w : Wallet) :
  (balance w <? 0)%float = false ->
  match op with
  | Deposit x =>
      if (x <=? 0)%float then
        apply_op op w = (Raise (ValueError NonPositiveDeposit), w)
      else
        apply_op op w = (Ok tt, mkWallet (currency_code w) (balance w + x)%float)
        /\ (balance w + x <? 0)%float = false
  | Withdraw x =>
      if (x <=? 0)%float then
        apply_op op w = (Raise (ValueError NonPositiveWithdraw), w)
      else if (balance w <? x)%float then
        apply_op op w
        = (Raise (InsufficientFundsError (balance w) x (currency_code w)), w)
      else
        apply_op op w = (Ok tt, mkWallet (currency_code w) (balance w - x)%float)
        /\ (balance w - x <? 0)%float = false
  end.
Proof.
  intros Hb. destruct op as [x|x]; simpl.
  - destruct (x <=? 0)%float eqn:Hx.
    + unfold deposit. by rewrite Hx.
    + rewrite (deposit_returns _ _ Hx Hb). split; [done|]. by apply add_not_below_zero.
  - unfold bind, ret. destruct (x <=? 0)%float eqn:Hx.
    + unfold withdraw. by rewrite Hx.
    + destruct (balance w <? x)%float eqn:Hbx.
      * unfold withdraw. by rewrite Hx, Hbx.
      * rewrite (withdraw_returns _ _ Hx Hbx Hb). split; [done|].
        by apply sub_not_below_zero.
Qed.

(** With amounts that are finite numbers the balance stays at least zero,
    call after call. *)
Lemma apply_op_nonneg (op : wallet_op) (w : Wallet) :
  finite_amount op ->
  (0 <=? balance w)%float = true ->
  (0 <=? balance (snd (apply_op op w)))%float = true.
Proof.
  intros Hfin Hb. pose proof (nonneg_not_below_zero _ Hb) as Hb0.
  destruct op as [x|x]; simpl in *.
  - destruct (x <=? 0)%float eqn:Hx.
    + unfold deposit. by rewrite Hx.
    + rewrite (deposit_returns _ _ Hx Hb0). simpl.
      apply add_nonneg; [by apply finite_positive|done..].
  - unfold bind, ret. destruct (x <=? 0)%float eqn:Hx.
    + unfold withdraw. by rewrite Hx.
    + destruct (balance w <? x)%float eqn:Hbx.
      * unfold withdraw. by rewrite Hx, Hbx.
      * rewrite (withdraw_returns _ _ Hx Hbx Hb0). simpl.
        apply sub_nonneg; [by apply finite_positive|done..].
Qed.

(** X1. On a wallet whose balance is at least zero, every sequence of
    deposits and withdrawals whose amounts are finite numbers, accepted or
    refused one by one, leaves a balance that is at least zero. *)
Lemma run_ops_nonneg (ops : list wallet_op) (w : Wallet) :
  Forall finite_amount ops ->
  (0 <=? balance w)%float = true ->
  (0 <=? balance (run_ops ops w))%float = true.
Proof.
  intros Hfin. revert w. induction Hfin as [|op ops Hop _ IH]; intros w Hb; simpl.
  - done.
  - by apply IH, apply_op_nonneg.
Qed.

End WalletFacts.

Lemma run_ops_nonneg_witness :
  let ops := [Deposit 0.2%float; Withdraw 0.1%float; Withdraw 5%float; Deposit (-1)%float] in
  let w := mkWallet "USD" 0.1%float in
  Forall finite_amount ops
  /\ (0 <=? balance w)%float = true
  /\ (0 <=? balance (run_ops ops w))%float = true.
Proof.
  intros ops w.
  assert (Hfin : Forall finite_amount ops) by (repeat constructor).
  assert (Hb : (0 <=? balance w)%float = true) by reflexivity.
  split; [exact Hfin|]. split; [exact Hb|].
  exact (run_ops_nonneg ops w Hfin Hb).
Defined.

Lemma apply_op_outcomes_witness :
  let w := mkWallet "USD" 0.1%float in
  (balance w <? 0)%float = false
  /\ apply_op (Withdraw 5%float) w
     = (Raise (InsufficientFundsError 0.1%float 5%float "USD"), w)
  /\ apply_op (Deposit 0.2%float) w = (Ok tt, mkWallet "USD" (0.1 + 0.2)%float).
Proof.
  intros w.
  assert (Hb : (balance w <? 0)%float = false) by reflexivity.
  split; [exact Hb|]. split.
  - exact (apply_op_outcomes (Withdraw 5%float) w Hb).
  - exact (proj1 (apply_op_outcomes (Deposit 0.2%float) w Hb)).
Defined.

(** C3. Balance non-negativity: the claim is that after every deposit or
    withdrawal on a wallet created with a balance that is not negative,
    [balance >= 0] holds. [Wallet.deposit] rejects [amount <= 0] and the setter
    rejects [value < 0]; NaN passes both comparisons. On a wallet created with
    [0.0], [deposit(nan)] returns, and the balance it leaves is NaN, for which
    [balance >= 0] is false. (With NaN and infinity kept out of the amounts
    the claim holds, see [run_ops_nonneg] and [apply_op_outcomes].) *)
Theorem deposit_nan_accepted :
  Wallet_init "USD" 0%float = Ok (mkWallet "USD" 0%float)
  /\ deposit nan (mkWallet "USD" 0%float) = (Ok tt, mkWallet "USD" nan)
  /\ (0 <=? balance (mkWallet "USD" nan))%float = false.
Proof. repeat split. Qed.

(** The same through infinity: after [deposit(inf)], [withdraw(inf)] is allowed
    ([inf > inf] is false) and leaves [inf - inf]. *)
Example deposit_withdraw_infinity :
  run_ops [Deposit infinity; Withdraw infinity] (mkWallet "USD" 0%float)
  = mkWallet "USD" nan.
Proof. reflexivity. Qed.

(** C8, as stated, fails: on a wallet holding [0.1], [deposit(0.2)] followed
    by [withdraw(0.2)] both return and leave [0.10000000000000003]. *)
Lemma deposit_withdraw_drift :
  exists w1 w2,
    deposit 0.2%float (mkWallet "USD" 0.1%float) = (Ok tt, w1)
    /\ withdraw 0.2%float w1 = (Ok true, w2)
    /\ balance w2 = 0.10000000000000003%float
    /\ (balance w2 =? 0.1)%float = false.
Proof. do 2 eexists. repeat split. Qed.

(** Nor does the claim survive an overflow: on a wallet holding [1e308],
    [deposit(1e308)] leaves infinity, and [withdraw(1e308)] leaves it there. *)
Example deposit_withdraw_overflow :
  run_ops [Deposit 1e308%float; Withdraw 1e308%float] (mkWallet "USD" 1e308%float)
  = mkWallet "USD" infinity.
Proof. reflexivity. Qed.

(** C8, amended. On a wallet whose balance [b] is not below zero, for every
    [x > 0] such that [b + x] is finite (no NaN, no infinity, no overflow),
    [deposit(x)] and then [withdraw(x)] both return: the withdrawal is
    always permitted. The balance they leave is finite and differs from [b]
    by at most one unit in the last place of [b + x], the balance in
    between; and it is equal to [b] whenever the sum [b + x] was computed
    without rounding. Values are exact, counted in units of [2^-1074]. The
    currency code is untouched. *)
Theorem deposit_withdraw_roundtrip (w : Wallet) (x : float) :
  (0 <? x)%float = true ->
  (balance w <? 0)%float = false ->
  (balance w + x <? infinity)%float = true ->
  exists w1 w2 vb vx vs vr,
    deposit x w = (Ok tt, w1)
    /\ withdraw x w1 = (Ok true, w2)
    /\ currency_code w2 = currency_code w
    /\ exact_value (balance w) = Some vb
    /\ exact_value x = Some vx
    /\ exact_value (balance w1) = Some vs
    /\ exact_value (balance w2) = Some vr
    /\ Z.abs (vr - vb) <= unit_in_last_place (balance w1)
    /\ (vs = vb + vx -> (balance w2 =? balance w)%float = true).
Proof.
  intros Hx Hb Hfin.
  pose proof (sum_not_below_amount _ _ Hx Hb Hfin) as Hok.
  destruct (add_sub_values _ _ Hx Hb Hfin Hok)
    as (vb & vx & vs & vr & Hvb & Hvx & Hvs & Hvr & Hulp & Hexact).
  apply positive_not_nonpositive in Hx.
  exists (mkWallet (_currency_code w) (balance w + x)%float),
         (mkWallet (_currency_code w) (balance w + x - x)%float), vb, vx, vs, vr.
  split; [by apply deposit_returns|]. split; [|done].
  apply (withdraw_returns x (mkWallet _ _)); [done..|].
  by apply add_not_below_zero.
Qed.

Lemma deposit_withdraw_roundtrip_witness :
  let w := mkWallet "USD" 0.1%float in
  (0 <? 0.2)%float = true
  /\ (balance w <? 0)%float = false
  /\ (balance w + 0.2 <? infinity)%float = true
  /\ exists w1 w2 vb vx vs vr,
       deposit 0.2%float w = (Ok tt, w1)
       /\ withdraw 0.2%float w1 = (Ok true, w2)
       /\ currency_code w2 = currency_code w
       /\ exact_value (balance w) = Some vb
       /\ exact_value 0.2%float = Some vx
       /\ exact_value (balance w1) = Some vs
       /\ exact_value (balance w2) = Some vr
       /\ Z.abs (vr - vb) <= unit_in_last_place (balance w1)
       /\ (vs = vb + vx -> (balance w2 =? balance w)%float = true).
Proof.
  intros w.
  assert (Hx : (0 <? 0.2)%float = true) by reflexivity.
  assert (Hb : (balance w <? 0)%float = false) by reflexivity.
  assert (Hfin : (balance w + 0.2 <? infinity)%float = true) by reflexivity.
  split; [exact Hx|]. split; [exact Hb|]. split; [exact Hfin|].
  exact (deposit_withdraw_roundtrip w 0.2%float Hx Hb Hfin).
Defined.

(** Whole amounts: 1000 and 500 add up without rounding, the round trip is
    exact. With 0.1 and 0.2 the sum is rounded, and the balance left is two
    neighbours above 0.1, half a unit in the last place of 0.30000000000000004
    away. *)
Example deposit_withdraw_whole_amounts :
  let w := run_ops [Deposit 500%float; Withdraw 500%float] (mkWallet "USD" 1000%float) in
  (exists vb vx,
     exact_value 1000%float = Some vb /\ exact_value 500%float = Some vx
     /\ exact_value (1000 + 500)%float = Some (vb + vx))
  /\ balance w = 1000%float.
Proof. split; [do 2 eexists|]; repeat split. Qed.

Example deposit_withdraw_drift_size :
  let w := run_ops [Deposit 0.2%float; Withdraw 0.2%float] (mkWallet "USD" 0.1%float) in
  exists vb vr,
    exact_value 0.1%float = Some vb /\ exact_value (balance w) = Some vr
    /\ 2 * (vr - vb) = unit_in_last_place (0.1 + 0.2)%float
    /\ next_up (next_up 0.1%float) = balance w.
Proof. do 2 eexists. repeat split. Qed.

(** ** Portfolios and their records *)

Section PortfolioFacts.

Lemma wallets_from_dict_Ok ws m :
  wallets_from_dict ws = Ok m ->
  forall k, m !! k = (fun d => mkWallet k (wd_balance d)) <$> ws !! k.
Proof.
  unfold wallets_from_dict. revert m.
  apply (map_fold_weak_ind
    (fun (acc : result (gmap string Wallet)) (ws : gmap string WalletData) =>
       forall m, acc = Ok m ->
         forall k, m !! k = (fun d => mkWallet k (wd_balance d)) <$> ws !! k)).
  - intros m [= <-] k. by rewrite !lookup_empty.
  - intros i d ws' acc Hi IH m.
    destruct acc as [m0|e]; [|discriminate].
    unfold Wallet_from_dict, Wallet_init, _validate_balance.
    destruct (wd_balance d <? 0)%float; [discriminate|].
    intros [= <-] k. rewrite !lookup_insert. case_decide; subst; [done|].
    by apply IH.
Qed.

Lemma wallets_from_dict_Raise ws e :
  wallets_from_dict ws = Raise e -> e = ValueError NegativeBalance.
Proof.
  unfold wallets_from_dict.
  apply (map_fold_weak_ind
    (fun (acc : result (gmap string Wallet)) (_ : gmap string WalletData) =>
       acc = Raise e -> e = ValueError NegativeBalance)).
  - discriminate.
  - intros i d ws' acc Hi IH.
    destruct acc as [m0|e0]; [|done].
    unfold Wallet_from_dict, Wallet_init, _validate_balance.
    destruct (wd_balance d <? 0)%float; [|discriminate].
    by intros [= <-].
Qed.
End PortfolioFacts.

Section PortfolioOps.

Lemma Portfolio_from_dict_Ok d p :
  Portfolio_from_dict d = Ok p ->
  _user_id p = pd_user_id d
  /\ forall k, _wallets p !! k = (fun x => mkWallet k (wd_balance x)) <$> pd_wallets d !! k.
Proof.
  unfold Portfolio_from_dict.
  destruct (wallets_from_dict (pd_wallets d)) as [m|e] eqn:E; [|discriminate].
  intros [= <-]. split; [done|]. by apply wallets_from_dict_Ok.
Qed.

Lemma Portfolio_from_dict_Raise d e :
  Portfolio_from_dict d = Raise e -> e = ValueError NegativeBalance.
Proof.
  unfold Portfolio_from_dict.
  destruct (wallets_from_dict (pd_wallets d)) as [m|e0] eqn:E; [discriminate|].
  intros [= <-]. by apply wallets_from_dict_Raise in E.
Qed.

Lemma stored_balance_from_dict d p k :
  Portfolio_from_dict d = Ok p ->
  balance <$> _wallets p !! k = stored_balance d k.
Proof.
  intros [_ H]%Portfolio_from_dict_Ok. rewrite H. unfold stored_balance.
  by destruct (pd_wallets d !! k).
Qed.

Lemma stored_balance_to_dict p k :
  stored_balance (Portfolio_to_dict p) k = balance <$> _wallets p !! k.
Proof.
  unfold stored_balance, Portfolio_to_dict; simpl. rewrite lookup_fmap.
  by destruct (_wallets p !! k).
Qed.

Lemma on_wallet_withdraw_Ok k x p r p' :
  on_wallet k (withdraw x) p = (Ok r, p') ->
  exists w0, _wallets p !! k = Some w0
    /\ (x <=? 0)%float = false
    /\ (balance w0 <? x)%float = false
    /\ p' = mkPortfolio (_user_id p)
              (<[k := mkWallet (_currency_code w0) (balance w0 - x)%float]> (_wallets p)).
Proof.
  unfold on_wallet. destruct (_wallets p !! k) as [w0|]; [|discriminate].
  destruct (withdraw x w0) as [[b|e] w1] eqn:E; intros [= <- <-].
  apply withdraw_Ok in E as (_ & ? & ? & _ & ->). eauto.
Qed.

Lemma on_wallet_withdraw_Raise k x p e p' :
  on_wallet k (withdraw x) p = (Raise e, p') ->
  (exists why, e = ValueError why)
  \/ e = AttributeError /\ _wallets p !! k = None
  \/ exists w0, _wallets p !! k = Some w0 /\ (balance w0 <? x)%float = true.
Proof.
  unfold on_wallet. destruct (_wallets p !! k) as [w0|]; [|intros [= <- <-]; auto].
  destruct (withdraw x w0) as [[b|e1] w1] eqn:E; intros [= <- <-].
  revert E. unfold withdraw, bind, ret.
  destruct (x <=? 0)%float; [intros [= <- <-]; eauto|].
  destruct (balance w0 <? x)%float eqn:Hlt; [intros _; right; right; eauto|].
  destruct (set_balance _ w0) as [[[]|e2] w2] eqn:E2; [discriminate|].
  apply set_balance_Raise in E2 as [-> ->]. intros [= <-]. eauto.
Qed.

Lemma on_wallet_deposit_Ok k x p r p' :
  on_wallet k (deposit x) p = (Ok r, p') ->
  exists w0, _wallets p !! k = Some w0
    /\ (x <=? 0)%float = false
    /\ p' = mkPortfolio (_user_id p)
              (<[k := mkWallet (_currency_code w0) (balance w0 + x)%float]> (_wallets p)).
Proof.
  unfold on_wallet. destruct (_wallets p !! k) as [w0|]; [|discriminate].
  destruct (deposit x w0) as [[b|e] w1] eqn:E; intros [= <- <-].
  apply deposit_Ok in E as (? & _ & ->). eauto.
Qed.

Lemma on_wallet_deposit_Raise k x p e p' :
  on_wallet k (deposit x) p = (Raise e, p') ->
  (exists why, e = ValueError why) \/ e = AttributeError /\ _wallets p !! k = None.
Proof.
  unfold on_wallet. destruct (_wallets p !! k) as [w0|]; [|intros [= <- <-]; auto].
  destruct (deposit x w0) as [[b|e1] w1] eqn:E; intros [= <- <-].
  apply deposit_Raise in E as [_ ?]. auto.
Qed.

Lemma add_currency_Ok k p r p' :
  add_currency k p = (Ok r, p') ->
  _wallets p !! k = None
  /\ p' = mkPortfolio (_user_id p) (<[k := mkWallet k 0%float]> (_wallets p)).
Proof.
  unfold add_currency, holds. destruct (_wallets p !! k); [discriminate|].
  simpl. by intros [= <- <-].
Qed.

Lemma add_currency_Raise k p e p' :
  add_currency k p = (Raise e, p') -> exists why, e = ValueError why.
Proof.
  unfold add_currency, holds. destruct (_wallets p !! k); [|discriminate].
  intros [= <- <-]. eauto.
Qed.

End PortfolioOps.

(** Lookups through a stack of insertions, by cases on the keys. *)
Ltac finish_lookup :=
  rewrite ?lookup_insert; repeat case_decide; simplify_eq; simpl;
  try done; try congruence.

Section Transfers.

Lemma buy_transfer_Ok c a cost p r p' usd :
  _wallets p !! "USD" = Some usd ->
  buy_transfer c a cost p = (Ok r, p') ->
  (a <=? 0)%float = false
  /\ (cost <=? 0)%float = false
  /\ _user_id p' = _user_id p
  /\ forall k,
      balance <$> _wallets p' !! k =
        if decide (k = c) then
          Some ((if decide (c = "USD") then balance usd - cost
                 else default 0 (balance <$> _wallets p !! c)) + a)%float
        else if decide (k = "USD") then Some (balance usd - cost)%float
        else balance <$> _wallets p !! k.
Proof.
  intros Husd. unfold buy_transfer, bind, gets, ret.
  destruct (on_wallet "USD" (withdraw cost) p) as [[b|e] p1] eqn:E1; [|discriminate].
  apply on_wallet_withdraw_Ok in E1 as (w0 & Hw0 & Hcost & _ & ->).
  rewrite Husd in Hw0. injection Hw0 as <-.
  unfold holds at 1; simpl.
  destruct (decide (c = "USD")) as [->|Hc].
  - rewrite lookup_insert_eq.
    intros H. apply on_wallet_deposit_Ok in H as (w1 & Hw1 & Ha & ->). simpl in *.
    rewrite lookup_insert_eq in Hw1. injection Hw1 as <-.
    repeat split; [done..|]. intros k. finish_lookup.
  - rewrite lookup_insert_ne by done.
    destruct (_wallets p !! c) as [wc|] eqn:Hwc.
    + intros H. apply on_wallet_deposit_Ok in H as (w1 & Hw1 & Ha & ->). simpl in *.
      rewrite lookup_insert_ne in Hw1 by done. rewrite Hwc in Hw1. injection Hw1 as <-.
      repeat split; [done..|]. intros k. finish_lookup.
    + destruct (add_currency c _) as [[[]|e] p2] eqn:E2; [|discriminate].
      apply add_currency_Ok in E2 as [_ ->]. simpl.
      intros H. apply on_wallet_deposit_Ok in H as (w1 & Hw1 & Ha & ->). simpl in *.
      rewrite lookup_insert_eq in Hw1. injection Hw1 as <-.
      repeat split; [done..|]. intros k. finish_lookup.
Qed.

Lemma buy_transfer_Raise c a cost p e p' usd :
  _wallets p !! "USD" = Some usd ->
  (balance usd <? cost)%float = false ->
  buy_transfer c a cost p = (Raise e, p') ->
  exists why, e = ValueError why.
Proof.
  intros Husd Hge. unfold buy_transfer, bind, gets, ret.
  destruct (on_wallet "USD" (withdraw cost) p) as [[b|e1] p1] eqn:E1.
  - apply on_wallet_withdraw_Ok in E1 as (w0 & Hw0 & Hcost & _ & ->).
    unfold holds at 1; simpl.
    destruct (<["USD":=_]> (_wallets p) !! c) as [wc|] eqn:Hwc.
    + intros H. apply on_wallet_deposit_Raise in H as [?|[_ H]]; [done|].
      simpl in H. congruence.
    + destruct (add_currency c _) as [[[]|e2] p2] eqn:E2.
      * apply add_currency_Ok in E2 as [_ ->].
        intros H. apply on_wallet_deposit_Raise in H as [?|[_ H]]; [done|].
        simpl in H. by rewrite lookup_insert_eq in H.
      * apply add_currency_Raise in E2. by intros [= <- <-].
  - intros [= <- <-].
    apply on_wallet_withdraw_Raise in E1 as [?|[[_ H]|(w0 & Hw0 & Hlt)]];
      [done|congruence|].
    rewrite Husd in Hw0. injection Hw0 as <-. congruence.
Qed.

Lemma sell_transfer_Ok c a rev p r p' wc :
  _wallets p !! c = Some wc ->
  sell_transfer c a rev p = (Ok r, p') ->
  (a <=? 0)%float = false
  /\ (rev <=? 0)%float = false
  /\ _user_id p' = _user_id p
  /\ forall k,
      balance <$> _wallets p' !! k =
        if decide (k = "USD") then
          Some ((if decide (c = "USD") then balance wc - a
                 else default 0 (balance <$> _wallets p !! "USD")) + rev)%float
        else if decide (k = c) then Some (balance wc - a)%float
        else balance <$> _wallets p !! k.
Proof.
  intros Hwc. unfold sell_transfer, bind, gets, ret.
  destruct (on_wallet c (withdraw a) p) as [[b|e] p1] eqn:E1; [|discriminate].
  apply on_wallet_withdraw_Ok in E1 as (w0 & Hw0 & Ha & _ & ->).
  rewrite Hwc in Hw0. injection Hw0 as <-.
  unfold get_wallet at 1; simpl.
  destruct (decide (c = "USD")) as [->|Hc].
  - rewrite lookup_insert_eq.
    intros H. apply on_wallet_deposit_Ok in H as (w1 & Hw1 & Hrev & ->). simpl in *.
    rewrite lookup_insert_eq in Hw1. injection Hw1 as <-.
    repeat split; [done..|]. intros k. finish_lookup.
  - rewrite lookup_insert_ne by done.
    destruct (_wallets p !! "USD") as [wu|] eqn:Hwu.
    + intros H. apply on_wallet_deposit_Ok in H as (w1 & Hw1 & Hrev & ->). simpl in *.
      rewrite lookup_insert_ne in Hw1 by done. rewrite Hwu in Hw1. injection Hw1 as <-.
      repeat split; [done..|]. intros k. finish_lookup.
    + destruct (add_currency "USD" _) as [[[]|e] p2] eqn:E2; [|discriminate].
      apply add_currency_Ok in E2 as [_ ->]. simpl.
      intros H. apply on_wallet_deposit_Ok in H as (w1 & Hw1 & Hrev & ->). simpl in *.
      rewrite lookup_insert_eq in Hw1. injection Hw1 as <-.
      repeat split; [done..|]. intros k. finish_lookup.
Qed.

Lemma sell_transfer_Raise c a rev p e p' wc :
  _wallets p !! c = Some wc ->
  (balance wc <? a)%float = false ->
  sell_transfer c a rev p = (Raise e, p') ->
  exists why, e = ValueError why.
Proof.
  intros Hwc Hge. unfold sell_transfer, bind, gets, ret.
  destruct (on_wallet c (withdraw a) p) as [[b|e1] p1] eqn:E1.
  - apply on_wallet_withdraw_Ok in E1 as (w0 & Hw0 & Ha & _ & ->).
    unfold get_wallet at 1; simpl.
    destruct (<[c:=_]> (_wallets p) !! "USD") as [wu|] eqn:Hwu.
    + intros H. apply on_wallet_deposit_Raise in H as [?|[_ H]]; [done|].
      simpl in H. congruence.
    + destruct (add_currency "USD" _) as [[[]|e2] p2] eqn:E2.
      * apply add_currency_Ok in E2 as [_ ->].
        intros H. apply on_wallet_deposit_Raise in H as [?|[_ H]]; [done|].
        simpl in H. by rewrite lookup_insert_eq in H.
      * apply add_currency_Raise in E2. by intros [= <- <-].
  - intros [= <- <-].
    apply on_wallet_withdraw_Raise in E1 as [?|[[_ H]|(w0 & Hw0 & Hlt)]];
      [done|congruence|].
    rewrite Hwc in Hw0. injection Hw0 as <-. congruence.
Qed.

End Transfers.


(** ** The two trades, case by case *)

Ltac refuse :=
  left; eexists; split;
  [reflexivity | first [by left | right; eexists; reflexivity]].

Section Trades.

Lemma buy_currency_cases u c a w :
  (exists r, buy_currency u c a w = (r, w) /\ refused r)
  \/ (exists i pd entry usd0 pd',
        find_portfolio u (portfolios_data w) = Some (i, pd)
        /\ rates_data w !! (c +:+ "_USD") = Some entry
        /\ stored_balance pd "USD" = Some usd0
        /\ (a <=? 0)%float = false
        /\ (usd0 <? a * rate entry)%float = false
        /\ pd_user_id pd' = pd_user_id pd
        /\ (forall k,
             stored_balance pd' k =
               if decide (k = c) then
                 Some ((if decide (c = "USD") then usd0 - a * rate entry
                        else holding pd c) + a)%float
               else if decide (k = "USD") then Some (usd0 - a * rate entry)%float
               else stored_balance pd k)
        /\ buy_currency u c a w = (Ok true, write_portfolio i pd' w)).
Proof.
  unfold buy_currency, bind, show_portfolio, gets, ret, refused.
  destruct (find_portfolio u (portfolios_data w)) as [[i pd]|] eqn:Hfind; [|refuse].
  destruct (Portfolio_from_dict pd) as [p|e] eqn:Hp;
    [|apply Portfolio_from_dict_Raise in Hp as ->; refuse].
  destruct (rates_data w !! (c +:+ "_USD")) as [entry|] eqn:Hrate; [|refuse].
  unfold get_wallet.
  destruct (_wallets p !! "USD") as [usd|] eqn:Husd; [|refuse].
  destruct (balance usd <? a * rate entry)%float eqn:Hge; [refuse|].
  unfold with_object.
  destruct (buy_transfer c a (a * rate entry) p) as [[[] | e] p'] eqn:Ht.
  - right. unfold store_portfolio. rewrite Hfind. simpl.
    eapply buy_transfer_Ok in Ht as (Ha & _ & Hid & Hk); [|done].
    pose proof (stored_balance_from_dict pd p "USD" Hp) as HU.
    rewrite Husd in HU. simpl in HU.
    exists i, pd, entry, (balance usd), (Portfolio_to_dict p').
    repeat split; [done..| |].
    + simpl. rewrite Hid. by apply Portfolio_from_dict_Ok in Hp as [-> _].
    + intros k. rewrite stored_balance_to_dict, Hk. unfold holding.
      by rewrite <- !(stored_balance_from_dict pd p _ Hp).
  - destruct (buy_transfer_Raise _ _ _ _ _ _ _ Husd Hge Ht) as [why ->]. refuse.
Qed.

Lemma sell_currency_cases u c a w :
  (exists r, sell_currency u c a w = (r, w) /\ refused r)
  \/ (exists i pd entry c0 pd',
        find_portfolio u (portfolios_data w) = Some (i, pd)
        /\ rates_data w !! (c +:+ "_USD") = Some entry
        /\ stored_balance pd c = Some c0
        /\ (a <=? 0)%float = false
        /\ (c0 <? a)%float = false
        /\ pd_user_id pd' = pd_user_id pd
        /\ (forall k,
             stored_balance pd' k =
               if decide (k = "USD") then
                 Some ((if decide (c = "USD") then c0 - a
                        else holding pd "USD") + a * rate entry)%float
               else if decide (k = c) then Some (c0 - a)%float
               else stored_balance pd k)
        /\ sell_currency u c a w = (Ok true, write_portfolio i pd' w)).
Proof.
  unfold sell_currency, bind, show_portfolio, gets, ret, refused.
  destruct (find_portfolio u (portfolios_data w)) as [[i pd]|] eqn:Hfind; [|refuse].
  destruct (Portfolio_from_dict pd) as [p|e] eqn:Hp;
    [|apply Portfolio_from_dict_Raise in Hp as ->; refuse].
  unfold get_wallet.
  destruct (_wallets p !! c) as [wc|] eqn:Hwc; [|refuse].
  destruct (balance wc <? a)%float eqn:Hge; [refuse|].
  destruct (rates_data w !! (c +:+ "_USD")) as [entry|] eqn:Hrate; [|refuse].
  unfold with_object.
  destruct (sell_transfer c a (a * rate entry) p) as [[[] | e] p'] eqn:Ht.
  - right. unfold store_portfolio. rewrite Hfind. simpl.
    eapply sell_transfer_Ok in Ht as (Ha & _ & Hid & Hk); [|done].
    pose proof (stored_balance_from_dict pd p c Hp) as HC.
    rewrite Hwc in HC. simpl in HC.
    exists i, pd, entry, (balance wc), (Portfolio_to_dict p').
    repeat split; [done..| |].
    + simpl. rewrite Hid. by apply Portfolio_from_dict_Ok in Hp as [-> _].
    + intros k. rewrite stored_balance_to_dict, Hk. unfold holding.
      by rewrite <- !(stored_balance_from_dict pd p _ Hp).
  - destruct (sell_transfer_Raise _ _ _ _ _ _ _ Hwc Hge Ht) as [why ->]. refuse.
Qed.

End Trades.

Section StoreFacts.

Lemma find_portfolio_Some u data i pd :
  find_portfolio u data = Some (i, pd) ->
  data !! i = Some pd /\ pd_user_id pd = u.
Proof. intros H. apply list_find_Some in H. tauto. Qed.

(** Replacing the first record of a user by another record of the same user
    leaves it the first record of the user. *)
Lemma find_portfolio_write u data i pd pd' :
  find_portfolio u data = Some (i, pd) ->
  pd_user_id pd' = pd_user_id pd ->
  find_portfolio u (<[i := pd']> data) = Some (i, pd').
Proof.
  intros H Hid. apply list_find_Some in H as (Hi & Hu & Hfirst).
  apply list_find_Some. split; [|split].
  - apply list_lookup_insert_eq. by apply lookup_lt_Some in Hi.
  - congruence.
  - intros j y Hj Hlt. rewrite list_lookup_insert_ne in Hj by lia. eauto.
Qed.

Lemma stored_for_write u code w i pd pd' :
  find_portfolio u (portfolios_data w) = Some (i, pd) ->
  pd_user_id pd' = pd_user_id pd ->
  stored_for u code (write_portfolio i pd' w) = stored_balance pd' code.
Proof.
  intros H Hid. unfold stored_for, write_portfolio; simpl.
  by rewrite (find_portfolio_write _ _ _ _ _ H Hid).
Qed.

End StoreFacts.

(** ** Calls that return *)

Section Progress.

Lemma wallets_from_dict_valid (ws : gmap string WalletData) :
  (forall k d, ws !! k = Some d -> (wd_balance d <? 0)%float = false) ->
  exists m, wallets_from_dict ws = Ok m.
Proof.
  unfold wallets_from_dict.
  apply (map_fold_weak_ind
    (fun (acc : result (gmap string Wallet)) (ws : gmap string WalletData) =>
       (forall k d, ws !! k = Some d -> (wd_balance d <? 0)%float = false) ->
       exists m, acc = Ok m)).
  - eauto.
  - intros i d ws' acc Hi IH Hvalid.
    destruct IH as [m ->].
    { intros k d' Hk. apply (Hvalid k). rewrite lookup_insert_ne; [done|congruence]. }
    unfold Wallet_from_dict, Wallet_init, _validate_balance.
    rewrite (Hvalid i d) by apply lookup_insert_eq. eauto.
Qed.

Lemma Portfolio_from_dict_valid (pd : PortfolioData) :
  valid_record pd ->
  exists p, Portfolio_from_dict pd = Ok p
    /\ forall k w, _wallets p !! k = Some w -> (balance w <? 0)%float = false.
Proof.
  intros Hvalid. unfold Portfolio_from_dict.
  destruct (wallets_from_dict_valid _ Hvalid) as [m Hm]. rewrite Hm.
  eexists; split; [done|]. simpl. intros k w.
  rewrite (wallets_from_dict_Ok _ _ Hm).
  destruct (pd_wallets pd !! k) as [d|] eqn:Hd; [|done].
  intros [= <-]. by apply (Hvalid k).
Qed.

Lemma buy_transfer_returns c a cost p usd :
  (forall k w, _wallets p !! k = Some w -> (balance w <? 0)%float = false) ->
  _wallets p !! "USD" = Some usd ->
  (a <=? 0)%float = false ->
  (cost <=? 0)%float = false ->
  (balance usd <? cost)%float = false ->
  exists p', buy_transfer c a cost p = (Ok tt, p').
Proof.
  intros Hvalid Husd Ha Hcost Hge.
  pose proof (Hvalid _ _ Husd) as Hu.
  unfold buy_transfer, bind, gets, ret, on_wallet.
  rewrite Husd, (withdraw_returns _ _ Hcost Hge Hu).
  unfold holds; simpl.
  destruct (decide (c = "USD")) as [->|Hc].
  - rewrite lookup_insert_eq. cbn [_wallets _user_id]. rewrite lookup_insert_eq.
    rewrite deposit_returns; [eauto|done|].
    simpl. by apply sub_not_below_zero.
  - rewrite lookup_insert_ne by done.
    destruct (_wallets p !! c) as [wc|] eqn:Hwc.
    + cbn [_wallets _user_id]. rewrite lookup_insert_ne by done. rewrite Hwc.
      rewrite deposit_returns; [eauto|done|]. by apply (Hvalid c).
    + unfold add_currency, holds. cbn [_wallets _user_id].
      rewrite lookup_insert_ne by done. rewrite Hwc.
      change (Wallet_init c 0%float) with (Ok (mkWallet c 0%float)).
      cbn [_wallets _user_id]. rewrite lookup_insert_eq.
      rewrite deposit_returns; [eauto|done..].
Qed.

Lemma sell_transfer_returns c a rev p wc :
  (forall k w, _wallets p !! k = Some w -> (balance w <? 0)%float = false) ->
  _wallets p !! c = Some wc ->
  (a <=? 0)%float = false ->
  (rev <=? 0)%float = false ->
  (balance wc <? a)%float = false ->
  exists p', sell_transfer c a rev p = (Ok tt, p').
Proof.
  intros Hvalid Hwc Ha Hrev Hge.
  pose proof (Hvalid _ _ Hwc) as Hc0.
  unfold sell_transfer, bind, gets, ret, on_wallet.
  rewrite Hwc, (withdraw_returns _ _ Ha Hge Hc0).
  unfold get_wallet; simpl.
  destruct (decide (c = "USD")) as [->|Hc].
  - rewrite lookup_insert_eq. cbn [_wallets _user_id]. rewrite lookup_insert_eq.
    rewrite deposit_returns; [eauto|done|].
    simpl. by apply sub_not_below_zero.
  - rewrite lookup_insert_ne by done.
    destruct (_wallets p !! "USD") as [wu|] eqn:Hwu.
    + cbn [_wallets _user_id]. rewrite lookup_insert_ne by done. rewrite Hwu.
      rewrite deposit_returns; [eauto|done|]. by apply (Hvalid "USD").
    + unfold add_currency, holds. cbn [_wallets _user_id].
      rewrite lookup_insert_ne by done. rewrite Hwu.
      change (Wallet_init "USD" 0%float) with (Ok (mkWallet "USD" 0%float)).
      cbn [_wallets _user_id]. rewrite lookup_insert_eq.
      rewrite deposit_returns; [eauto|done..].
Qed.

(** X3. A purchase returns [True] whenever its checks pass: the first record
    of the user loads (no stored balance below zero), the rate of the
    currency to USD is cached, the amount and the cost, the amount times the
    rate, are positive, and the USD wallet exists with a balance that is not
    below the cost. No wallet operation then raises. *)
Theorem buy_currency_returns_true u c a w i pd entry usd :
  find_portfolio u (portfolios_data w) = Some (i, pd) ->
  valid_record pd ->
  rates_data w !! (c +:+ "_USD") = Some entry ->
  stored_balance pd "USD" = Some usd ->
  (a <=? 0)%float = false ->
  (a * rate entry <=? 0)%float = false ->
  (usd <? a * rate entry)%float = false ->
  fst (buy_currency u c a w) = Ok true.
Proof.
  intros Hf Hvalid He Hu Ha Hcost Hge.
  destruct (Portfolio_from_dict_valid pd Hvalid) as (p & Hp & Hpv).
  unfold buy_currency, bind, show_portfolio, gets, ret.
  rewrite Hf, Hp, He. unfold get_wallet.
  pose proof (stored_balance_from_dict pd p "USD" Hp) as HU. rewrite Hu in HU.
  destruct (_wallets p !! "USD") as [usdw|] eqn:Husd; [|done].
  injection HU as HU. rewrite HU, Hge.
  destruct (buy_transfer_returns c a (a * rate entry) p usdw Hpv Husd Ha Hcost)
    as [p' Hp']; [by rewrite HU|].
  unfold with_object, store_portfolio. by rewrite Hp', Hf.
Qed.

(** X4. A sale returns [True] whenever its checks pass: the first record of
    the user loads, the wallet of the currency exists with a balance that is
    not below the amount, the rate of the currency to USD is cached, and the
    amount and the revenue, the amount times the rate, are positive. *)
Theorem sell_currency_returns_true u c a w i pd entry held :
  find_portfolio u (portfolios_data w) = Some (i, pd) ->
  valid_record pd ->
  stored_balance pd c = Some held ->
  (held <? a)%float = false ->
  rates_data w !! (c +:+ "_USD") = Some entry ->
  (a <=? 0)%float = false ->
  (a * rate entry <=? 0)%float = false ->
  fst (sell_currency u c a w) = Ok true.
Proof.
  intros Hf Hvalid Hc Hge He Ha Hrev.
  destruct (Portfolio_from_dict_valid pd Hvalid) as (p & Hp & Hpv).
  unfold sell_currency, bind, show_portfolio, gets, ret.
  rewrite Hf, Hp. unfold get_wallet.
  pose proof (stored_balance_from_dict pd p c Hp) as HC. rewrite Hc in HC.
  destruct (_wallets p !! c) as [wc|] eqn:Hwc; [|done].
  injection HC as HC. rewrite HC, Hge, He.
  destruct (sell_transfer_returns c a (a * rate entry) p wc Hpv Hwc Ha Hrev)
    as [p' Hp']; [by rewrite HC|].
  unfold with_object, store_portfolio. by rewrite Hp', Hf.
Qed.

End Progress.

Lemma buy_currency_returns_true_witness :
  let pd := mkPortfolioData 1 {["USD" := mkWalletData "USD" 1000%float]} in
  let entry := mkRateEntry 50000%float "2024-01-01T00:00:00" in
  find_portfolio 1 (portfolios_data scenario_world) = Some (0%nat, pd)
  /\ valid_record pd
  /\ rates_data scenario_world !! "BTC_USD" = Some entry
  /\ stored_balance pd "USD" = Some 1000%float
  /\ fst (buy_currency 1 "BTC" 0.01%float scenario_world) = Ok true.
Proof.
  intros pd entry.
  assert (Hf : find_portfolio 1 (portfolios_data scenario_world) = Some (0%nat, pd))
    by reflexivity.
  assert (Hv : valid_record pd).
  { intros k x Hk. unfold pd in Hk. cbn [pd_wallets] in Hk.
    apply lookup_singleton_Some in Hk as [_ <-]. reflexivity. }
  assert (He : rates_data scenario_world !! ("BTC" +:+ "_USD") = Some entry)
    by (vm_compute; reflexivity).
  assert (Hu : stored_balance pd "USD" = Some 1000%float) by (vm_compute; reflexivity).
  split; [exact Hf|]. split; [exact Hv|]. split; [exact He|]. split; [exact Hu|].
  exact (buy_currency_returns_true 1 "BTC" 0.01%float scenario_world 0%nat pd entry
           1000%float Hf Hv He Hu eq_refl eq_refl eq_refl).
Defined.

Lemma sell_currency_returns_true_witness :
  let pd := mkPortfolioData 1 {["BTC" := mkWalletData "BTC" 2%float]} in
  let entry := mkRateEntry 50000%float "2024-01-01T00:00:00" in
  let w := mkWorld [pd] (rates_data scenario_world) (fun _ => 0) 0 [] in
  find_portfolio 1 (portfolios_data w) = Some (0%nat, pd)
  /\ valid_record pd
  /\ stored_balance pd "BTC" = Some 2%float
  /\ rates_data w !! "BTC_USD" = Some entry
  /\ fst (sell_currency 1 "BTC" 1%float w) = Ok true.
Proof.
  intros pd entry w.
  assert (Hf : find_portfolio 1 (portfolios_data w) = Some (0%nat, pd)) by reflexivity.
  assert (Hv : valid_record pd).
  { intros k x Hk. unfold pd in Hk. cbn [pd_wallets] in Hk.
    apply lookup_singleton_Some in Hk as [_ <-]. reflexivity. }
  assert (Hc : stored_balance pd "BTC" = Some 2%float) by (vm_compute; reflexivity).
  assert (He : rates_data w !! ("BTC" +:+ "_USD") = Some entry) by (vm_compute; reflexivity).
  split; [exact Hf|]. split; [exact Hv|]. split; [exact Hc|]. split; [exact He|].
  exact (sell_currency_returns_true 1 "BTC" 1%float w 0%nat pd entry 2%float
           Hf Hv Hc eq_refl He eq_refl eq_refl).
Defined.

(** ** Value conservation (C1) *)

(** C1, as stated, fails when the traded currency is USD itself and the cache
    holds a rate under [USD_USD]: both references are to the one USD wallet.
    With 1000 USD and a rate of 2, buying 10 USD returns [True] and stores a
    balance of 990, which is neither [1000 - 10 * 2] nor [1000 + 10]. *)
Lemma buy_usd_not_conserved :
  let w := mkWorld [mkPortfolioData 1 {["USD" := mkWalletData "USD" 1000%float]}]
                   {["USD_USD" := mkRateEntry 2%float "2024-01-01T00:00:00"]}
                   (fun _ => 0) 0 [] in
  let run := buy_currency 1 "USD" 10%float w in
  stored_for 1 "USD" w = Some 1000%float
  /\ fst run = Ok true
  /\ stored_for 1 "USD" (snd run) = Some 990%float
  /\ (990 =? 1000 - 10 * 2)%float = false
  /\ (990 =? 1000 + 10)%float = false.
Proof. repeat split; vm_compute; reflexivity. Qed.

(** C1, amended: for a currency other than USD. After a [buy_currency] that
    returned [True], the store shows for the user a USD balance of
    [usd - amount * rate] and a balance of [held + amount] for the currency,
    where [usd] and [held] are the balances it showed before the call ([held]
    is [0.0] when there was no wallet of the currency) and [rate] is the
    cached rate of the pair. After a [sell_currency] that returned [True], it
    shows [held - amount] for the currency and [usd + amount * rate] for USD
    ([usd] is [0.0] when there was no USD wallet). The arithmetic is that of
    binary64. *)
Theorem trade_conserves_value (u : Z) (c : string) (a : float) (w w' : World) :
  c <> "USD" ->
  (buy_currency u c a w = (Ok true, w') ->
   exists entry usd,
     rates_data w !! (c +:+ "_USD") = Some entry
     /\ stored_for u "USD" w = Some usd
     /\ stored_for u "USD" w' = Some (usd - a * rate entry)%float
     /\ stored_for u c w' = Some (default 0 (stored_for u c w) + a)%float)
  /\ (sell_currency u c a w = (Ok true, w') ->
      exists entry held,
        rates_data w !! (c +:+ "_USD") = Some entry
        /\ stored_for u c w = Some held
        /\ stored_for u c w' = Some (held - a)%float
        /\ stored_for u "USD" w' =
             Some (default 0 (stored_for u "USD" w) + a * rate entry)%float).
Proof.
  intros Hc. split; intros Hrun.
  - destruct (buy_currency_cases u c a w)
      as [(r & Hr & Href)|(i & pd & entry & usd & pd' & Hf & He & Hu & _ & _ & Hid & Hk & Hr)];
      rewrite Hrun in Hr.
    + injection Hr as <- <-. destruct Href as [?|[? ?]]; discriminate.
    + injection Hr as ->. exists entry, usd.
      rewrite !(stored_for_write _ _ _ _ _ _ Hf Hid).
      unfold stored_for. rewrite Hf. repeat split; [done..| |].
      * rewrite (Hk "USD"). by rewrite decide_False, decide_True by done.
      * rewrite (Hk c). by rewrite decide_True, decide_False by done.
  - destruct (sell_currency_cases u c a w)
      as [(r & Hr & Href)|(i & pd & entry & held & pd' & Hf & He & Hu & _ & _ & Hid & Hk & Hr)];
      rewrite Hrun in Hr.
    + injection Hr as <- <-. destruct Href as [?|[? ?]]; discriminate.
    + injection Hr as ->. exists entry, held.
      rewrite !(stored_for_write _ _ _ _ _ _ Hf Hid).
      unfold stored_for. rewrite Hf. repeat split; [done..| |].
      * rewrite (Hk c). by rewrite decide_False, decide_True by done.
      * rewrite (Hk "USD"). by rewrite decide_True, decide_False by done.
Qed.

Lemma trade_conserves_value_witness :
  let w := scenario_world in
  let w1 := snd (buy_currency 1 "BTC" 0.01%float w) in
  let w2 := snd (sell_currency 1 "BTC" 0.01%float w1) in
  "BTC" <> "USD"
  /\ buy_currency 1 "BTC" 0.01%float w = (Ok true, w1)
  /\ sell_currency 1 "BTC" 0.01%float w1 = (Ok true, w2)
  /\ (exists entry usd,
        rates_data w !! "BTC_USD" = Some entry
        /\ stored_for 1 "USD" w = Some usd
        /\ stored_for 1 "USD" w1 = Some (usd - 0.01 * rate entry)%float
        /\ stored_for 1 "BTC" w1 = Some (default 0 (stored_for 1 "BTC" w) + 0.01)%float)
  /\ (exists entry held,
        rates_data w1 !! "BTC_USD" = Some entry
        /\ stored_for 1 "BTC" w1 = Some held
        /\ stored_for 1 "BTC" w2 = Some (held - 0.01)%float
        /\ stored_for 1 "USD" w2 =
             Some (default 0 (stored_for 1 "USD" w1) + 0.01 * rate entry)%float).
Proof.
  intros w w1 w2.
  assert (Hne : "BTC" <> "USD") by discriminate.
  assert (Hb : buy_currency 1 "BTC" 0.01%float w = (Ok true, w1)) by (vm_compute; reflexivity).
  assert (Hs : sell_currency 1 "BTC" 0.01%float w1 = (Ok true, w2)) by (vm_compute; reflexivity).
  split; [exact Hne|]. split; [exact Hb|]. split; [exact Hs|]. split.
  - exact (proj1 (trade_conserves_value 1 "BTC" 0.01%float w w1 Hne) Hb).
  - exact (proj2 (trade_conserves_value 1 "BTC" 0.01%float w1 w2 Hne) Hs).
Defined.

(** The scenario of the specification: 0.01 BTC bought at 50000 leaves 500 USD
    and 0.01 BTC; sold again at the same rate, 1000 USD and 0.0 BTC. *)
Example scenario_buy_then_sell :
  let w1 := snd (buy_currency 1 "BTC" 0.01%float scenario_world) in
  let w2 := snd (sell_currency 1 "BTC" 0.01%float w1) in
  stored_for 1 "USD" w1 = Some 500%float
  /\ stored_for 1 "BTC" w1 = Some 0.01%float
  /\ stored_for 1 "USD" w2 = Some 1000%float
  /\ stored_for 1 "BTC" w2 = Some 0%float.
Proof. repeat split; vm_compute; reflexivity. Qed.

(** ** Atomicity and the single write (C2) *)

(** C2. A [buy_currency] or [sell_currency] that does not return [True]
    (it returns [False] at one of its checks, or a wallet operation raises)
    leaves the world exactly as it was: [portfolios_data] is unchanged and
    the journal has no new entry. One that returns [True] makes exactly one
    assignment [portfolios_data[i] = record], at the index of the first
    record of the user, with a record of that user. *)
Theorem trade_atomic (u : Z) (c : string) (a : float) (w : World) :
  forall trade, trade = buy_currency \/ trade = sell_currency ->
  forall r w', trade u c a w = (r, w') ->
    (r <> Ok true -> w' = w)
    /\ (r = Ok true ->
        exists i pd pd',
          find_portfolio u (portfolios_data w) = Some (i, pd)
          /\ pd_user_id pd' = u
          /\ portfolios_data w' = <[i := pd']> (portfolios_data w)
          /\ journal w' = PortfolioWrite i pd' :: journal w
          /\ rates_data w' = rates_data w).
Proof.
  intros trade Htrade r w' Hrun.
  assert ((exists r0, trade u c a w = (r0, w) /\ refused r0)
          \/ exists i pd pd',
               find_portfolio u (portfolios_data w) = Some (i, pd)
               /\ pd_user_id pd' = pd_user_id pd
               /\ trade u c a w = (Ok true, write_portfolio i pd' w)) as Hcases.
  { destruct Htrade as [-> | ->].
    - destruct (buy_currency_cases u c a w)
        as [?|(i & pd & ? & ? & pd' & Hf & _ & _ & _ & _ & Hid & _ & Hr)];
        [by left|right; by exists i, pd, pd'].
    - destruct (sell_currency_cases u c a w)
        as [?|(i & pd & ? & ? & pd' & Hf & _ & _ & _ & _ & Hid & _ & Hr)];
        [by left|right; by exists i, pd, pd']. }
  destruct Hcases as [(r0 & Hr0 & Href)|(i & pd & pd' & Hf & Hid & Hr0)];
    rewrite Hrun in Hr0; injection Hr0 as -> ->.
  - split; [done|]. intros ->. destruct Href as [?|[? ?]]; discriminate.
  - split; [done|]. intros _. exists i, pd, pd'.
    apply find_portfolio_Some in Hf as Hpd. destruct Hpd as [_ Hu].
    repeat split; [done|congruence].
Qed.

Lemma trade_atomic_witness :
  let w := scenario_world in
  let w' := snd (buy_currency 1 "BTC" 0.01%float w) in
  (buy_currency = buy_currency \/ buy_currency = sell_currency)
  /\ buy_currency 1 "BTC" 0.01%float w = (Ok true, w')
  /\ ((Ok true <> Ok true -> w' = w)
      /\ (Ok true = Ok true ->
          exists i pd pd',
            find_portfolio 1 (portfolios_data w) = Some (i, pd)
            /\ pd_user_id pd' = 1
            /\ portfolios_data w' = <[i := pd']> (portfolios_data w)
            /\ journal w' = PortfolioWrite i pd' :: journal w
            /\ rates_data w' = rates_data w)).
Proof.
  intros w w'.
  assert (Hrun : buy_currency 1 "BTC" 0.01%float w = (Ok true, w'))
    by (vm_compute; reflexivity).
  split; [by left|]. split; [exact Hrun|].
  exact (trade_atomic 1 "BTC" 0.01%float w buy_currency (or_introl eq_refl) _ _ Hrun).
Defined.

(** Each check of a purchase, failing in turn on the scenario: no portfolio
    (user 2), no rate (ETH), not enough USD (1 BTC costs 50000); and with the
    USD wallet missing (user 3 below holds only BTC). Every time the result
    is [False] and the world is as before. *)
Example scenario_purchases_refused :
  buy_currency 2 "BTC" 0.01%float scenario_world = (Ok false, scenario_world)
  /\ buy_currency 1 "ETH" 0.01%float scenario_world = (Ok false, scenario_world)
  /\ buy_currency 1 "BTC" 1%float scenario_world = (Ok false, scenario_world)
  /\ (let w := mkWorld [mkPortfolioData 3 {["BTC" := mkWalletData "BTC" 1%float]}]
                      (rates_data scenario_world) (fun _ => 0) 0 [] in
      buy_currency 3 "BTC" 0.01%float w = (Ok false, w)).
Proof. repeat split; vm_compute; reflexivity. Qed.

(** Selling a currency that is not held: [False], no wallet made, no write. *)
Example scenario_sell_without_holding :
  sell_currency 1 "ETH" 1%float scenario_world = (Ok false, scenario_world).
Proof. vm_compute; reflexivity. Qed.

(** ** Amounts that are not positive (C9) *)




(** With the portfolio, the rate and the wallets in place, what a trade of
    [-1] ends with is the [ValueError] of [Wallet.withdraw]. *)
Example nonpositive_amount_value_error :
  buy_currency 1 "BTC" (-1)%float scenario_world
    = (Raise (ValueError NonPositiveWithdraw), scenario_world).
Proof. vm_compute; reflexivity. Qed.

(** ** The rate a trade applies (C10) *)

Section RateOnly.

Variables (u : Z) (c : string) (a : float).

Lemma buy_currency_rate_only w1 w2 :
  portfolios_data w1 = portfolios_data w2 ->
  rate <$> rates_data w1 !! (c +:+ "_USD") = rate <$> rates_data w2 !! (c +:+ "_USD") ->
  fst (buy_currency u c a w1) = fst (buy_currency u c a w2)
  /\ portfolios_data (snd (buy_currency u c a w1))
     = portfolios_data (snd (buy_currency u c a w2)).
Proof.
  intros Hpd Hrate.
  unfold buy_currency, bind, show_portfolio, gets, ret, with_object, store_portfolio.
  rewrite <- Hpd.
  destruct (find_portfolio u (portfolios_data w1)) as [[i pd]|] eqn:Hf; [|done].
  destruct (Portfolio_from_dict pd) as [p|e]; [|done].
  destruct (rates_data w1 !! (c +:+ "_USD")) as [e1|],
           (rates_data w2 !! (c +:+ "_USD")) as [e2|];
    simpl in Hrate; try discriminate; [injection Hrate as Hr|done].
  rewrite <- Hr.
  destruct (get_wallet "USD" p) as [usd|]; [|done].
  destruct (balance usd <? a * rate e1)%float; [done|].
  destruct (buy_transfer c a (a * rate e1) p) as [[[]|e] p']; [|done].
  simpl. rewrite <- Hpd, Hf. simpl. by rewrite Hpd.
Qed.

Lemma sell_currency_rate_only w1 w2 :
  portfolios_data w1 = portfolios_data w2 ->
  rate <$> rates_data w1 !! (c +:+ "_USD") = rate <$> rates_data w2 !! (c +:+ "_USD") ->
  fst (sell_currency u c a w1) = fst (sell_currency u c a w2)
  /\ portfolios_data (snd (sell_currency u c a w1))
     = portfolios_data (snd (sell_currency u c a w2)).
Proof.
  intros Hpd Hrate.
  unfold sell_currency, bind, show_portfolio, gets, ret, with_object, store_portfolio.
  rewrite <- Hpd.
  destruct (find_portfolio u (portfolios_data w1)) as [[i pd]|] eqn:Hf; [|done].
  destruct (Portfolio_from_dict pd) as [p|e]; [|done].
  destruct (get_wallet c p) as [wc|]; [|done].
  destruct (balance wc <? a)%float; [done|].
  destruct (rates_data w1 !! (c +:+ "_USD")) as [e1|],
           (rates_data w2 !! (c +:+ "_USD")) as [e2|];
    simpl in Hrate; try discriminate; [injection Hrate as Hr|done].
  rewrite <- Hr.
  destruct (sell_transfer c a (a * rate e1) p) as [[[]|e] p']; [|done].
  simpl. rewrite <- Hpd, Hf. simpl. by rewrite Hpd.
Qed.

End RateOnly.

(** C10. The rate a trade applies is the rate of the cached entry under
    [currency_USD], as it is. Neither trade reads the clock, calls the rate
    source or writes the rate cache; its outcome and what it stores depend
    on the entry through the rate alone, whatever the time stamp of the
    entry and whatever the time, so an entry of any age is applied; and
    without an entry under that key the trade is refused and nothing
    changes. After a purchase that returned [True] the store shows for the
    user the USD balance it showed before less [amount * rate], a balance
    that was not below this cost; after a sale that returned [True], the USD
    balance it showed before ([0.0] without a USD wallet) plus
    [amount * rate]. When the currency traded is USD itself, the one USD
    wallet also takes the amount: [usd - amount * rate + amount] for a
    purchase, [held - amount + amount * rate] for a sale. And a trade whose
    other checks pass returns [True] with the entry that is cached, whatever
    its time stamp: for a purchase, the record of the user loads, the amount
    and the cost are positive and the USD balance is not below the cost; for
    a sale, the record loads, the amount and the revenue are positive and
    the balance of the currency is not below the amount. *)
Theorem trade_applies_cached_rate_as_is (u : Z) (c : string) (a : float) (w : World) :
  (forall trade, trade = buy_currency \/ trade = sell_currency ->
     (rates_data (snd (trade u c a w)) = rates_data w
      /\ ticks (snd (trade u c a w)) = ticks w
      /\ List.filter is_parser_call (journal (snd (trade u c a w)))
         = List.filter is_parser_call (journal w))
     /\ (forall entry stamp clk n,
           rates_data w !! (c +:+ "_USD") = Some entry ->
           let w2 := mkWorld (portfolios_data w)
                             (<[c +:+ "_USD" := mkRateEntry (rate entry) stamp]> (rates_data w))
                             clk n (journal w) in
           fst (trade u c a w2) = fst (trade u c a w)
           /\ portfolios_data (snd (trade u c a w2)) = portfolios_data (snd (trade u c a w)))
     /\ (rates_data w !! (c +:+ "_USD") = None ->
         exists r, trade u c a w = (r, w) /\ refused r))
  /\ (forall entry,
        rates_data w !! (c +:+ "_USD") = Some entry ->
        fst (buy_currency u c a w) = Ok true ->
        exists usd,
          stored_for u "USD" w = Some usd
          /\ (usd <? a * rate entry)%float = false
          /\ stored_for u "USD" (snd (buy_currency u c a w))
             = Some (if decide (c = "USD") then usd - a * rate entry + a
                     else usd - a * rate entry)%float)
  /\ (forall entry,
        rates_data w !! (c +:+ "_USD") = Some entry ->
        fst (sell_currency u c a w) = Ok true ->
        exists held,
          stored_for u c w = Some held
          /\ (held <? a)%float = false
          /\ stored_for u "USD" (snd (sell_currency u c a w))
             = Some ((if decide (c = "USD") then held - a
                      else default 0 (stored_for u "USD" w)) + a * rate entry)%float)
  /\ (forall entry i pd usd,
        rates_data w !! (c +:+ "_USD") = Some entry ->
        find_portfolio u (portfolios_data w) = Some (i, pd) ->
        valid_record pd ->
        stored_balance pd "USD" = Some usd ->
        (a <=? 0)%float = false ->
        (a * rate entry <=? 0)%float = false ->
        (usd <? a * rate entry)%float = false ->
        fst (buy_currency u c a w) = Ok true)
  /\ (forall entry i pd held,
        rates_data w !! (c +:+ "_USD") = Some entry ->
        find_portfolio u (portfolios_data w) = Some (i, pd) ->
        valid_record pd ->
        stored_balance pd c = Some held ->
        (a <=? 0)%float = false ->
        (a * rate entry <=? 0)%float = false ->
        (held <? a)%float = false ->
        fst (sell_currency u c a w) = Ok true).
Proof.
  split; [|split; [|split; [|split]]].
  - intros trade Htrade.
    assert ((exists r0, trade u c a w = (r0, w) /\ refused r0)
            \/ exists i pd' entry,
                 rates_data w !! (c +:+ "_USD") = Some entry
                 /\ trade u c a w = (Ok true, write_portfolio i pd' w)) as Hcases.
    { destruct Htrade as [-> | ->].
      - destruct (buy_currency_cases u c a w)
          as [?|(i & ? & entry & ? & pd' & _ & He & _ & _ & _ & _ & _ & Hr)];
          [by left|right; by exists i, pd', entry].
      - destruct (sell_currency_cases u c a w)
          as [?|(i & ? & entry & ? & pd' & _ & He & _ & _ & _ & _ & _ & Hr)];
          [by left|right; by exists i, pd', entry]. }
    split; [|split].
    + destruct Hcases as [(r0 & -> & _)|(i & pd' & entry & _ & ->)]; by simpl.
    + intros entry stamp clk n He w2.
      assert (rate <$> rates_data w2 !! (c +:+ "_USD")
              = rate <$> rates_data w !! (c +:+ "_USD")) as Hrate.
      { unfold w2; simpl. by rewrite lookup_insert_eq, He. }
      destruct Htrade as [-> | ->].
      * by apply buy_currency_rate_only.
      * by apply sell_currency_rate_only.
    + intros Hnone.
      destruct Hcases as [?|(i & pd' & entry & He & _)]; [done|congruence].
  - intros entry He Hrun.
    destruct (buy_currency_cases u c a w)
      as [(r & Hr & Href)
         |(i & pd & entry0 & usd & pd' & Hf & He0 & Hu & _ & Hge & Hid & Hk & Hr)];
      rewrite Hr in Hrun |- *; simpl in Hrun.
    + subst r. destruct Href as [?|[? ?]]; discriminate.
    + rewrite He in He0. injection He0 as <-. exists usd.
      simpl. rewrite (stored_for_write _ _ _ _ _ _ Hf Hid).
      unfold stored_for. rewrite Hf. split; [done|]. split; [done|].
      rewrite (Hk "USD"). destruct (decide (c = "USD")) as [->|Hc].
      * by rewrite decide_True.
      * by rewrite decide_False, decide_True by done.
  - intros entry He Hrun.
    destruct (sell_currency_cases u c a w)
      as [(r & Hr & Href)
         |(i & pd & entry0 & held & pd' & Hf & He0 & Hu & _ & Hge & Hid & Hk & Hr)];
      rewrite Hr in Hrun |- *; simpl in Hrun.
    + subst r. destruct Href as [?|[? ?]]; discriminate.
    + rewrite He in He0. injection He0 as <-. exists held.
      simpl. rewrite (stored_for_write _ _ _ _ _ _ Hf Hid).
      unfold stored_for. rewrite Hf. split; [done|]. split; [done|].
      rewrite (Hk "USD"), decide_True by done. done.
  - intros entry i pd usd He Hf Hvalid Hu Ha Hcost Hge.
    destruct (Portfolio_from_dict_valid pd Hvalid) as (p & Hp & Hpv).
    unfold buy_currency, bind, show_portfolio, gets, ret.
    rewrite Hf, Hp, He. unfold get_wallet.
    pose proof (stored_balance_from_dict pd p "USD" Hp) as HU. rewrite Hu in HU.
    destruct (_wallets p !! "USD") as [usdw|] eqn:Husd; [|done].
    injection HU as HU. rewrite HU, Hge.
    destruct (buy_transfer_returns c a (a * rate entry) p usdw Hpv Husd Ha Hcost)
      as [p' Hp']; [by rewrite HU|].
    unfold with_object, store_portfolio. by rewrite Hp', Hf.
  - intros entry i pd held He Hf Hvalid Hc Ha Hrev Hge.
    destruct (Portfolio_from_dict_valid pd Hvalid) as (p & Hp & Hpv).
    unfold sell_currency, bind, show_portfolio, gets, ret.
    rewrite Hf, Hp. unfold get_wallet.
    pose proof (stored_balance_from_dict pd p c Hp) as HC. rewrite Hc in HC.
    destruct (_wallets p !! c) as [wc|] eqn:Hwc; [|done].
    injection HC as HC. rewrite HC, Hge, He.
    destruct (sell_transfer_returns c a (a * rate entry) p wc Hpv Hwc Ha Hrev)
      as [p' Hp']; [by rewrite HC|].
    unfold with_object, store_portfolio. by rewrite Hp', Hf.
Qed.

Lemma trade_applies_cached_rate_as_is_witness :
  let w := scenario_world in
  let entry := mkRateEntry 50000%float "2024-01-01T00:00:00" in
  let stale := mkWorld (portfolios_data w)
                 (<["BTC_USD" := mkRateEntry 50000%float "1999-12-31T23:59:59"]> (rates_data w))
                 (fun _ => 1000000000000000000) 7 (journal w) in
  rates_data w !! "BTC_USD" = Some entry
  /\ rates_data (snd (buy_currency 1 "BTC" 0.01%float w)) = rates_data w
  /\ fst (buy_currency 1 "BTC" 0.01%float stale) = fst (buy_currency 1 "BTC" 0.01%float w)
  /\ fst (buy_currency 1 "BTC" 0.01%float stale) = Ok true
  /\ (exists usd,
        stored_for 1 "USD" w = Some usd
        /\ (usd <? 0.01 * rate entry)%float = false
        /\ stored_for 1 "USD" (snd (buy_currency 1 "BTC" 0.01%float w))
           = Some (if decide ("BTC" = "USD") then usd - 0.01 * rate entry + 0.01
                   else usd - 0.01 * rate entry)%float).
Proof.
  intros w entry stale.
  assert (Hor : buy_currency = buy_currency \/ buy_currency = sell_currency) by (by left).
  assert (He : rates_data w !! "BTC_USD" = Some entry) by (vm_compute; reflexivity).
  assert (Hrun : fst (buy_currency 1 "BTC" 0.01%float w) = Ok true) by (vm_compute; reflexivity).
  pose proof (trade_applies_cached_rate_as_is 1 "BTC" 0.01%float w) as (Hany & Hbuy & _ & _ & _).
  destruct (Hany buy_currency Hor) as ((Hrates & _ & _) & Hage & _).
  split; [exact He|]. split; [exact Hrates|]. split; [|split].
  - exact (proj1 (Hage _ "1999-12-31T23:59:59" (fun _ => 1000000000000000000) 7%nat He)).
  - vm_compute; reflexivity.
  - exact (Hbuy entry He Hrun).
Defined.

(** A stale rate is the rate applied: with [BTC_USD] cached at 50000 under
    a time stamp of 1999 and a source that would answer 59337.21, buying 0.01
    BTC takes 500 USD. *)
Example scenario_buy_at_stale_rate :
  let w := mkWorld (portfolios_data scenario_world)
             {["BTC_USD" := mkRateEntry 50000%float "1999-12-31T23:59:59"]}
             (fun _ => 1000000000000000000) 0 [] in
  mock_rates !! "BTC_USD" = Some 59337.21%float
  /\ fst (buy_currency 1 "BTC" 0.01%float w) = Ok true
  /\ stored_for 1 "USD" (snd (buy_currency 1 "BTC" 0.01%float w)) = Some 500%float
  /\ journal (snd (buy_currency 1 "BTC" 0.01%float w))
     = [PortfolioWrite 0 (mkPortfolioData 1 {["BTC" := mkWalletData "BTC" 0.01%float;
                                               "USD" := mkWalletData "USD" 500%float]})].
Proof. repeat split; vm_compute; reflexivity. Qed.

(** ** Freshness of a cached rate (C4, C5, C6) *)

Section RateCacheFacts.

Variable fromisoformat : string -> parsed_datetime.
Variable isoformat : Z -> string.

Lemma is_rate_fresh_naive s t w :
  fromisoformat s = NaiveDT t ->
  is_rate_fresh fromisoformat s 5 w
    = (Ok (clock w (ticks w) - t <=? freshness_window), ticked w).
Proof. intros H. unfold is_rate_fresh. by rewrite H. Qed.

(** A hit: the entry is returned as it is; only the clock was read. *)
Lemma get_exchange_rate_hit from_curr to_curr e t w :
  rates_data w !! (from_curr +:+ "_" +:+ to_curr) = Some e ->
  fromisoformat (updated_at e) = NaiveDT t ->
  clock w (ticks w) - t <= freshness_window ->
  get_exchange_rate fromisoformat isoformat from_curr to_curr w = (Ok (Some e), ticked w).
Proof.
  intros He Ht Hage. unfold get_exchange_rate, bind, gets, ret.
  rewrite He, (is_rate_fresh_naive _ t) by done.
  by rewrite (proj2 (Z.leb_le _ _) Hage).
Qed.

(** A stale entry: the source is called; what it answers is stored, saved
    and returned. *)
Lemma get_exchange_rate_stale from_curr to_curr e t w :
  rates_data w !! (from_curr +:+ "_" +:+ to_curr) = Some e ->
  fromisoformat (updated_at e) = NaiveDT t ->
  freshness_window < clock w (ticks w) - t ->
  get_exchange_rate fromisoformat isoformat from_curr to_curr w =
    match mock_rates !! (from_curr +:+ "_" +:+ to_curr) with
    | Some r =>
        let entry := mkRateEntry r (isoformat (clock w (S (ticks w)))) in
        let rates := <[from_curr +:+ "_" +:+ to_curr := entry]> (rates_data w) in
        (Ok (Some entry),
         mkWorld (portfolios_data w) rates (clock w) (S (S (ticks w)))
                 (SaveRates rates :: ParserCall from_curr to_curr :: journal w))
    | None => (Ok None, asked from_curr to_curr (ticked w))
    end.
Proof.
  intros He Ht Hage. unfold get_exchange_rate, bind, gets, ret.
  rewrite He, (is_rate_fresh_naive _ t) by done.
  rewrite (proj2 (Z.leb_gt _ _) Hage).
  unfold fetch_rate_from_parser, bind, log_event, modify; simpl.
  by destruct (mock_rates !! (from_curr +:+ "_" +:+ to_curr)).
Qed.

(** No entry, or one whose time stamp does not parse: the source is called
    without a reading of the clock before. *)
Lemma get_exchange_rate_miss from_curr to_curr w :
  (rates_data w !! (from_curr +:+ "_" +:+ to_curr) = None
   \/ exists e, rates_data w !! (from_curr +:+ "_" +:+ to_curr) = Some e
                /\ fromisoformat (updated_at e) = Malformed) ->
  mock_rates !! (from_curr +:+ "_" +:+ to_curr) = None ->
  get_exchange_rate fromisoformat isoformat from_curr to_curr w
    = (Ok None, asked from_curr to_curr w).
Proof.
  intros Hmiss Hsrc. unfold get_exchange_rate, bind, gets, ret.
  destruct Hmiss as [-> | (e & -> & He)].
  - unfold fetch_rate_from_parser, bind, log_event, modify; simpl. by rewrite Hsrc.
  - unfold is_rate_fresh. rewrite He. unfold ret.
    unfold fetch_rate_from_parser, bind, log_event, modify; simpl. by rewrite Hsrc.
Qed.

End RateCacheFacts.

Lemma length_append (s1 s2 : string) :
  String.length (s1 +:+ s2) = (String.length s1 + String.length s2)%nat.
Proof. induction s1 as [|a s1 IH]; simpl; [done|]. by rewrite IH. Qed.

(** The stub of the rate source knows no pair of a code with itself. *)
Lemma mock_rates_same_code (c : string) :
  mock_rates !! (c +:+ "_" +:+ c) = None.
Proof.
  unfold mock_rates.
  rewrite !lookup_insert_ne, lookup_empty; [done|..];
    intros H; pose proof (f_equal String.length H) as Hl;
    rewrite length_append in Hl; simpl in Hl;
    destruct c as [|a1 [|a2 [|a3 [|a4 c]]]]; simpl in Hl; try lia;
    simpl in H; injection H; intros; subst; discriminate.
Qed.

(** C4. A cached entry whose age, the reading of the clock minus the time it
    was fetched at, is at most the freshness window of 5 minutes is returned
    as it is: the rate source is not called and the cache is not written (the
    only change to the world is that the clock was read once). That holds at
    an age of exactly the window. At any greater age, one microsecond more
    included, the rate source is called, once. *)
Theorem cached_rate_freshness_boundary
    (fromisoformat : string -> parsed_datetime) (isoformat : Z -> string)
    (from_curr to_curr : string) (e : RateEntry) (t : Z) (w : World) :
  rates_data w !! (from_curr +:+ "_" +:+ to_curr) = Some e ->
  fromisoformat (updated_at e) = NaiveDT t ->
  let age := clock w (ticks w) - t in
  let run := get_exchange_rate fromisoformat isoformat from_curr to_curr w in
  freshness_window = 5 * 60 * 1000000
  /\ (age <= freshness_window ->
      run = (Ok (Some e), ticked w)
      /\ journal (snd run) = journal w
      /\ rates_data (snd run) = rates_data w)
  /\ (age = freshness_window -> run = (Ok (Some e), ticked w))
  /\ (freshness_window < age ->
      List.filter is_parser_call (journal (snd run))
      = ParserCall from_curr to_curr :: List.filter is_parser_call (journal w))
  /\ (age = freshness_window + 1 ->
      List.filter is_parser_call (journal (snd run))
      = ParserCall from_curr to_curr :: List.filter is_parser_call (journal w)).
Proof.
  intros He Ht age run.
  assert (Hstale : freshness_window < age ->
            List.filter is_parser_call (journal (snd run))
            = ParserCall from_curr to_curr :: List.filter is_parser_call (journal w)).
  { intros Hage. unfold run.
    rewrite (get_exchange_rate_stale _ _ _ _ e t) by done.
    by destruct (mock_rates !! (from_curr +:+ "_" +:+ to_curr)). }
  split; [done|]. split; [|split; [|split]].
  - intros Hage. unfold run.
    by rewrite (get_exchange_rate_hit _ _ _ _ e t) by done.
  - intros Hage. unfold run.
    apply (get_exchange_rate_hit _ _ _ _ e t); [done..|]. fold age. lia.
  - exact Hstale.
  - intros Hage. apply Hstale. lia.
Qed.

Lemma cached_rate_freshness_boundary_witness :
  let w := cache_world "EUR_USD" 1.1%float 300000000 in
  let e := mkRateEntry 1.1%float "2024-01-01T00:00:00" in
  rates_data w !! "EUR_USD" = Some e
  /\ example_fromisoformat (updated_at e) = NaiveDT 0
  /\ clock w (ticks w) - 0 = freshness_window
  /\ get_exchange_rate example_fromisoformat example_isoformat "EUR" "USD" w
     = (Ok (Some e), ticked w).
Proof.
  intros w e.
  assert (He : rates_data w !! ("EUR" +:+ "_" +:+ "USD") = Some e) by (vm_compute; reflexivity).
  assert (Ht : example_fromisoformat (updated_at e) = NaiveDT 0) by reflexivity.
  assert (Hage : clock w (ticks w) - 0 = freshness_window) by reflexivity.
  split; [exact He|]. split; [exact Ht|]. split; [exact Hage|].
  exact (proj1 (proj2 (proj2
    (cached_rate_freshness_boundary example_fromisoformat example_isoformat
       "EUR" "USD" e 0 w He Ht))) Hage).
Defined.

(** One microsecond past the window, for a pair the stub knows: the source is
    called and its answer replaces the entry. *)
Example refetch_one_microsecond_late :
  let w := cache_world "BTC_USD" 50000%float 300000001 in
  let run := get_exchange_rate example_fromisoformat example_isoformat "BTC" "USD" w in
  fst run = Ok (Some (mkRateEntry 59337.21%float "2024-01-01T00:05:00.000001"))
  /\ List.filter is_parser_call (journal (snd run)) = [ParserCall "BTC" "USD"].
Proof. split; vm_compute; reflexivity. Qed.

(** C5. When the cached entry is older than the freshness window and the rate
    source has no answer for the pair, [get_exchange_rate] returns [None],
    its "rate unavailable": the stale entry is not returned, and the cache is
    left as it was. *)
Theorem stale_rate_is_hard_miss
    (fromisoformat : string -> parsed_datetime) (isoformat : Z -> string)
    (from_curr to_curr : string) (e : RateEntry) (t : Z) (w : World) :
  rates_data w !! (from_curr +:+ "_" +:+ to_curr) = Some e ->
  fromisoformat (updated_at e) = NaiveDT t ->
  freshness_window < clock w (ticks w) - t ->
  mock_rates !! (from_curr +:+ "_" +:+ to_curr) = None ->
  let run := get_exchange_rate fromisoformat isoformat from_curr to_curr w in
  run = (Ok None, asked from_curr to_curr (ticked w))
  /\ fst run <> Ok (Some e)
  /\ rates_data (snd run) = rates_data w.
Proof.
  intros He Ht Hage Hsrc run. unfold run.
  rewrite (get_exchange_rate_stale _ _ _ _ e t), Hsrc by done.
  by repeat split.
Qed.

Lemma stale_rate_is_hard_miss_witness :
  let w := cache_world "EUR_USD" 1.1%float 360000000 in
  let e := mkRateEntry 1.1%float "2024-01-01T00:00:00" in
  let run := get_exchange_rate example_fromisoformat example_isoformat "EUR" "USD" w in
  rates_data w !! "EUR_USD" = Some e
  /\ example_fromisoformat (updated_at e) = NaiveDT 0
  /\ freshness_window < clock w (ticks w) - 0
  /\ mock_rates !! "EUR_USD" = None
  /\ run = (Ok None, asked "EUR" "USD" (ticked w))
  /\ fst run <> Ok (Some e)
  /\ rates_data (snd run) = rates_data w.
Proof.
  intros w e run.
  assert (He : rates_data w !! ("EUR" +:+ "_" +:+ "USD") = Some e) by (vm_compute; reflexivity).
  assert (Ht : example_fromisoformat (updated_at e) = NaiveDT 0) by reflexivity.
  assert (Hage : freshness_window < clock w (ticks w) - 0) by reflexivity.
  assert (Hsrc : mock_rates !! ("EUR" +:+ "_" +:+ "USD") = None) by (vm_compute; reflexivity).
  split; [exact He|]. split; [exact Ht|]. split; [exact Hage|]. split; [exact Hsrc|].
  exact (stale_rate_is_hard_miss example_fromisoformat example_isoformat
           "EUR" "USD" e 0 w He Ht Hage Hsrc).
Defined.

(** C6, as stated, fails: [get_exchange_rate] has no case for equal codes.
    On an empty cache the rate of USD to USD is looked up under [USD_USD],
    the rate source is called, and the result is [None], not an entry with a
    rate of 1.0. *)
Lemma same_code_rate_unavailable :
  let w := mkWorld [] ∅ (fun _ => 0) 0 [] in
  let run := get_exchange_rate example_fromisoformat example_isoformat "USD" "USD" w in
  fst run = Ok None
  /\ journal (snd run) = [ParserCall "USD" "USD"].
Proof. split; vm_compute; reflexivity. Qed.

(** C6, amended. A pair of equal codes is treated as any other pair. The
    cache is read under the key [c_c]: an entry there that is fresh is
    returned as it is; with no entry, or one that is stale or whose time
    stamp does not parse, the rate source is called for [(c, c)], it knows no
    such pair, and the result is [None] with the cache left as it was. (An
    entry whose time stamp carries an offset ends the call with a
    [TypeError].) *)
Theorem same_code_rate_like_any_pair
    (fromisoformat : string -> parsed_datetime) (isoformat : Z -> string)
    (c : string) (w : World) :
  let run := get_exchange_rate fromisoformat isoformat c c w in
  (rates_data w !! (c +:+ "_" +:+ c) = None -> run = (Ok None, asked c c w))
  /\ (forall e, rates_data w !! (c +:+ "_" +:+ c) = Some e ->
        match fromisoformat (updated_at e) with
        | Malformed => run = (Ok None, asked c c w)
        | NaiveDT t =>
            if clock w (ticks w) - t <=? freshness_window
            then run = (Ok (Some e), ticked w)
            else run = (Ok None, asked c c (ticked w))
        | AwareDT _ => run = (Raise TypeError, ticked w)
        end).
Proof.
  intros run. pose proof (mock_rates_same_code c) as Hsrc. split.
  - intros Hnone. apply get_exchange_rate_miss; auto.
  - intros e He. destruct (fromisoformat (updated_at e)) as [|t|t] eqn:Ht.
    + apply get_exchange_rate_miss; eauto.
    + destruct (Z.leb_spec (clock w (ticks w) - t) freshness_window) as [Hage|Hage].
      * by apply (get_exchange_rate_hit _ _ _ _ e t).
      * unfold run. by rewrite (get_exchange_rate_stale _ _ _ _ e t), Hsrc by done.
    + unfold run, get_exchange_rate, bind, gets, ret. rewrite He.
      unfold is_rate_fresh. by rewrite Ht.
Qed.

Lemma same_code_rate_like_any_pair_witness :
  let w := mkWorld [] ∅ (fun _ => 0) 0 [] in
  rates_data w !! "USD_USD" = None
  /\ get_exchange_rate example_fromisoformat example_isoformat "USD" "USD" w
     = (Ok None, asked "USD" "USD" w).
Proof.
  intros w.
  assert (Hnone : rates_data w !! ("USD" +:+ "_" +:+ "USD") = None) by reflexivity.
  split; [exact Hnone|].
  exact (proj1 (same_code_rate_like_any_pair example_fromisoformat example_isoformat
                  "USD" w) Hnone).
Defined.

(** ** Currency codes (C7) *)

Lemma upper_not_lower_nor_space (c : ascii) :
  is_ascii_upper c = true ->
  is_ascii_lower c = false /\ (N_of_ascii c =? 32)%N = false.
Proof.
  unfold is_ascii_upper, is_ascii_lower.
  intros [H1 H2]%andb_prop. apply N.leb_le in H1, H2. split.
  - apply andb_false_iff. left. apply N.leb_gt. lia.
  - apply N.eqb_neq. lia.
Qed.

Lemma all_upper_facts (s : string) :
  string_forallb is_ascii_upper s = true ->
  string_forallb (fun c => negb (is_ascii_lower c)) s = true
  /\ has_space s = false
  /\ (s <> EmptyString -> string_existsb is_ascii_upper s = true).
Proof.
  unfold has_space. induction s as [|c s IH]; simpl; [done|].
  intros [Hc Hs]%andb_prop. destruct (upper_not_lower_nor_space c Hc) as [-> ->].
  destruct (IH Hs) as (-> & -> & _). rewrite Hc. done.
Qed.

(** Every code of the pattern passes the check of [Currency.__init__]: the
    check is at least as permissive as the pattern. *)
Lemma pattern_codes_accepted (code : string) :
  matches_code_pattern code = true -> code_rejected code = false.
Proof.
  unfold matches_code_pattern, code_rejected, isupper.
  intros [[H2 H5]%andb_prop Hup]%andb_prop.
  apply Nat.leb_le in H2, H5.
  destruct (all_upper_facts code Hup) as (-> & -> & Hex).
  destruct code as [|a code]; [simpl in H2; lia|].
  rewrite Hex by done.
  rewrite (proj2 (Nat.ltb_ge _ _) H2), (proj2 (Nat.ltb_ge _ _) H5).
  done.
Qed.

(** C7. The claim is that a code is accepted exactly when it is made of two
    to five letters [A] to [Z]. [Currency.__init__] tests the length, the
    absence of a space and [code.isupper()], which only asks that no letter
    be lowercase and that there be one letter: the code [A1] passes, though
    it does not match the pattern (so do [B-2] and [X_Y]). *)
Theorem currency_code_with_digit_accepted :
  Currency_init "Alpha One" "A1" = Ok (mkCurrency "Alpha One" "A1")
  /\ matches_code_pattern "A1" = false
  /\ code_rejected "B-2" = false
  /\ code_rejected "X_Y" = false.
Proof. repeat split. Qed.

(** * Further properties *)

(** ** Trades and the rest of the store *)

Lemma find_portfolio_write_other u u' data i pd pd' :
  u' <> u ->
  data !! i = Some pd ->
  pd_user_id pd = u ->
  pd_user_id pd' = u ->
  find_portfolio u' (<[i := pd']> data) = find_portfolio u' data.
Proof.
  intros Hne Hi Hpd Hpd'. unfold find_portfolio.
  destruct (list_find (fun p => pd_user_id p = u') data) as [[j pdj]|] eqn:Hfind.
  - apply list_find_Some in Hfind as (Hj & Hu & Hfirst).
    assert (i <> j) by (intros ->; congruence).
    apply list_find_Some. split; [|split].
    + by rewrite list_lookup_insert_ne.
    + done.
    + intros k y Hk Hlt. destruct (decide (k = i)) as [->|Hki].
      * rewrite list_lookup_insert_eq in Hk by (by eapply lookup_lt_Some).
        injection Hk as <-. congruence.
      * rewrite list_lookup_insert_ne in Hk by done. eauto.
  - apply list_find_None in Hfind. apply list_find_None.
    apply Forall_insert; [done|congruence].
Qed.

(** What a trade leaves of the store, whatever its outcome. *)
Lemma trade_world u c a w trade :
  trade = buy_currency \/ trade = sell_currency ->
  snd (trade u c a w) = w
  \/ exists i pd pd',
       find_portfolio u (portfolios_data w) = Some (i, pd)
       /\ pd_user_id pd' = pd_user_id pd
       /\ (forall k, k <> c -> k <> "USD" -> stored_balance pd' k = stored_balance pd k)
       /\ snd (trade u c a w) = write_portfolio i pd' w.
Proof.
  intros [-> | ->].
  - destruct (buy_currency_cases u c a w)
      as [(r & -> & _)|(i & pd & ? & ? & pd' & Hf & _ & _ & _ & _ & Hid & Hk & ->)];
      [by left|right].
    exists i, pd, pd'. repeat split; [done..|].
    intros k Hc Hu. rewrite Hk. by rewrite !decide_False by done.
  - destruct (sell_currency_cases u c a w)
      as [(r & -> & _)|(i & pd & ? & ? & pd' & Hf & _ & _ & _ & _ & Hid & Hk & ->)];
      [by left|right].
    exists i, pd, pd'. repeat split; [done..|].
    intros k Hc Hu. rewrite Hk. by rewrite !decide_False by done.
Qed.

(** X5. A purchase or a sale, whatever its outcome, leaves every balance of
    every other user as the store showed it, leaves the balances of the user
    in every currency other than the traded one and USD, and neither adds nor
    removes a record. *)
Theorem trade_leaves_the_rest (u : Z) (c : string) (a : float) (w : World) :
  forall trade, trade = buy_currency \/ trade = sell_currency ->
  let w' := snd (trade u c a w) in
  (forall u' k, u' <> u -> stored_for u' k w' = stored_for u' k w)
  /\ (forall k, k <> c -> k <> "USD" -> stored_for u k w' = stored_for u k w)
  /\ length (portfolios_data w') = length (portfolios_data w).
Proof.
  intros trade Htrade w'. unfold w'.
  destruct (trade_world u c a w trade Htrade)
    as [->|(i & pd & pd' & Hf & Hid & Hk & ->)]; [done|].
  pose proof (find_portfolio_Some _ _ _ _ Hf) as [Hi Hu].
  split; [|split].
  - intros u' k Hne. unfold stored_for, write_portfolio; simpl.
    rewrite (find_portfolio_write_other u u' _ i pd pd'); [done..|congruence].
  - intros k Hc Hx. rewrite (stored_for_write _ _ _ _ _ _ Hf Hid).
    unfold stored_for. rewrite Hf. by apply Hk.
  - unfold write_portfolio; simpl. by rewrite length_insert.
Qed.

Lemma trade_leaves_the_rest_witness :
  let w := mkWorld [mkPortfolioData 1 {["USD" := mkWalletData "USD" 1000%float;
                                         "EUR" := mkWalletData "EUR" 7%float]};
                    mkPortfolioData 2 {["USD" := mkWalletData "USD" 50%float]}]
                   (rates_data scenario_world) (fun _ => 0) 0 [] in
  let w' := snd (buy_currency 1 "BTC" 0.01%float w) in
  (buy_currency = buy_currency \/ buy_currency = sell_currency)
  /\ stored_for 1 "BTC" w' = Some 0.01%float
  /\ stored_for 2 "USD" w' = stored_for 2 "USD" w
  /\ stored_for 1 "EUR" w' = stored_for 1 "EUR" w
  /\ length (portfolios_data w') = length (portfolios_data w).
Proof.
  intros w w'.
  assert (Hor : buy_currency = buy_currency \/ buy_currency = sell_currency) by (by left).
  destruct (trade_leaves_the_rest 1 "BTC" 0.01%float w buy_currency Hor)
    as (Hothers & Hrest & Hlen).
  split; [exact Hor|]. split; [vm_compute; reflexivity|].
  split; [apply Hothers; discriminate|].
  split; [apply Hrest; discriminate|exact Hlen].
Defined.

(** ** Portfolio records *)

Lemma wallets_from_dict_Ok_valid (ws : gmap string WalletData) (m : gmap string Wallet) :
  wallets_from_dict ws = Ok m ->
  forall k d, ws !! k = Some d -> (wd_balance d <? 0)%float = false.
Proof.
  unfold wallets_from_dict. revert m.
  apply (map_fold_weak_ind
    (fun (acc : result (gmap string Wallet)) (ws : gmap string WalletData) =>
       forall m, acc = Ok m ->
         forall k d, ws !! k = Some d -> (wd_balance d <? 0)%float = false)).
  - intros m _ k d. by rewrite lookup_empty.
  - intros i x ws' acc Hi IH m.
    destruct acc as [m0|e]; [|discriminate].
    unfold Wallet_from_dict, Wallet_init, _validate_balance.
    destruct (wd_balance x <? 0)%float eqn:Hx; [discriminate|].
    intros _ k d. rewrite lookup_insert. case_decide; [by intros [= <-]|].
    by apply (IH m0).
Qed.

Lemma Portfolio_from_dict_Ok_valid (d : PortfolioData) (p : Portfolio) :
  Portfolio_from_dict d = Ok p -> valid_record d.
Proof.
  unfold Portfolio_from_dict.
  destruct (wallets_from_dict (pd_wallets d)) as [m|e] eqn:Hm; [|discriminate].
  intros _ k x. by apply (wallets_from_dict_Ok_valid _ _ Hm).
Qed.

(** X6. [Portfolio.from_dict] returns exactly for the records none of whose
    stored balances is below zero, and raises the [ValueError] of the balance
    check for every other record. *)
Theorem portfolio_loads_iff_valid (d : PortfolioData) :
  ((exists p, Portfolio_from_dict d = Ok p) <-> valid_record d)
  /\ (~ valid_record d -> Portfolio_from_dict d = Raise (ValueError NegativeBalance)).
Proof.
  assert ((exists p, Portfolio_from_dict d = Ok p) <-> valid_record d) as Hiff.
  { split.
    - intros [p Hp]. by apply (Portfolio_from_dict_Ok_valid d p).
    - intros Hv. destruct (Portfolio_from_dict_valid d Hv) as (p & Hp & _). eauto. }
  split; [exact Hiff|].
  intros Hnot. destruct (Portfolio_from_dict d) as [p|e] eqn:Hp.
  - destruct Hnot. apply Hiff. eauto.
  - by apply Portfolio_from_dict_Raise in Hp as ->.
Qed.

Lemma portfolio_loads_iff_valid_witness :
  let d := mkPortfolioData 1 {["USD" := mkWalletData "USD" (-5)%float]} in
  ~ valid_record d
  /\ Portfolio_from_dict d = Raise (ValueError NegativeBalance).
Proof.
  intros d.
  assert (Hnot : ~ valid_record d).
  { intros Hv. specialize (Hv "USD" (mkWalletData "USD" (-5)%float) eq_refl).
    discriminate Hv. }
  split; [exact Hnot|].
  exact (proj2 (portfolio_loads_iff_valid d) Hnot).
Defined.

(** X7. Saving a loaded portfolio and loading it again gives the same
    portfolio: [from_dict(p.to_dict())] is [p] for every [p] that [from_dict]
    returned. The record saved shows the user and the balances of the record
    loaded, and is that very record when each of its wallets carries the code
    it is filed under. *)
Theorem portfolio_round_trip (d : PortfolioData) (p : Portfolio) :
  Portfolio_from_dict d = Ok p ->
  Portfolio_from_dict (Portfolio_to_dict p) = Ok p
  /\ pd_user_id (Portfolio_to_dict p) = pd_user_id d
  /\ (forall k, stored_balance (Portfolio_to_dict p) k = stored_balance d k)
  /\ ((forall k x, pd_wallets d !! k = Some x -> wd_currency_code x = k) ->
      Portfolio_to_dict p = d).
Proof.
  intros Hp.
  pose proof (Portfolio_from_dict_Ok _ _ Hp) as [Hid Hw].
  split; [|split; [|split]].
  - assert (valid_record (Portfolio_to_dict p)) as Hv.
    { intros k x. simpl. rewrite lookup_fmap, Hw.
      destruct (pd_wallets d !! k) as [x0|] eqn:Hx0; [|done]. simpl. intros [= <-]. simpl.
      apply (Portfolio_from_dict_Ok_valid d p Hp k x0 Hx0). }
    destruct (Portfolio_from_dict_valid _ Hv) as (p' & Hp' & _). rewrite Hp'. f_equal.
    pose proof (Portfolio_from_dict_Ok _ _ Hp') as [Hid' Hw'].
    destruct p as [uid ws], p' as [uid' ws']. simpl in *. f_equal; [done|].
    apply map_eq. intros k. rewrite Hw', lookup_fmap, Hw.
    by destruct (pd_wallets d !! k).
  - done.
  - intros k. by rewrite stored_balance_to_dict, (stored_balance_from_dict d p k Hp).
  - intros Hcodes. destruct d as [uid ws]. unfold Portfolio_to_dict. simpl in *.
    f_equal; [done|]. apply map_eq. intros k. rewrite lookup_fmap, Hw.
    destruct (ws !! k) as [x|] eqn:Hx; [|done]. simpl.
    specialize (Hcodes k x Hx). destruct x as [cx bx]. simpl in *. by subst.
Qed.

Lemma portfolio_round_trip_witness :
  let d := mkPortfolioData 1 {["USD" := mkWalletData "usd" 1000%float]} in
  let p := mkPortfolio 1 {["USD" := mkWallet "USD" 1000%float]} in
  Portfolio_from_dict d = Ok p
  /\ Portfolio_from_dict (Portfolio_to_dict p) = Ok p
  /\ stored_balance (Portfolio_to_dict p) "USD" = stored_balance d "USD".
Proof.
  intros d p.
  assert (Hp : Portfolio_from_dict d = Ok p) by (vm_compute; reflexivity).
  destruct (portfolio_round_trip d p Hp) as (Hround & _ & Hbal & _).
  split; [exact Hp|]. split; [exact Hround|]. exact (Hbal "USD").
Defined.

(** ** [show_portfolio] *)

(** X8. [show_portfolio] never changes the store. It returns [None] exactly
    when no record carries the user id; otherwise it answers from the first
    such record alone: the portfolio it returns has the user id and, wallet
    by wallet, the balances of that record, and the call raises when that
    record has a balance below zero, whatever the later records hold. *)
Theorem show_portfolio_first_record (u : Z) (w : World) :
  snd (show_portfolio u w) = w
  /\ (fst (show_portfolio u w) = Ok None <->
      Forall (fun d => pd_user_id d <> u) (portfolios_data w))
  /\ (forall p, fst (show_portfolio u w) = Ok (Some p) ->
        _user_id p = u
        /\ forall k, balance <$> _wallets p !! k = stored_for u k w)
  /\ (forall i d, find_portfolio u (portfolios_data w) = Some (i, d) ->
        ~ valid_record d ->
        fst (show_portfolio u w) = Raise (ValueError NegativeBalance)).
Proof.
  unfold show_portfolio, stored_for.
  destruct (find_portfolio u (portfolios_data w)) as [[i d]|] eqn:Hf.
  - pose proof (find_portfolio_Some _ _ _ _ Hf) as [Hi Hu].
    destruct (Portfolio_from_dict d) as [p|e] eqn:Hp; simpl.
    + split; [done|]. split; [|split].
      * split; [done|]. intros Hall.
        apply (list_find_None (fun p => pd_user_id p = u)) in Hall.
        unfold find_portfolio in Hf. congruence.
      * intros p' [= <-]. split.
        -- apply Portfolio_from_dict_Ok in Hp as [-> _]. done.
        -- intros k. by apply stored_balance_from_dict.
      * intros i' d' [= <- <-] Hnot. destruct Hnot.
        by apply (Portfolio_from_dict_Ok_valid d p).
    + split; [done|]. split; [|split].
      * split; [done|]. intros Hall.
        apply (list_find_None (fun p => pd_user_id p = u)) in Hall.
        unfold find_portfolio in Hf. congruence.
      * done.
      * intros _ _ _ _. by apply Portfolio_from_dict_Raise in Hp as ->.
  - simpl. split; [done|]. split; [|split; [done|done]].
    split; [|done]. intros _. by apply (list_find_None (fun p => pd_user_id p = u)).
Qed.

Lemma show_portfolio_first_record_witness :
  let w := mkWorld [mkPortfolioData 1 {["USD" := mkWalletData "USD" 1000%float]};
                    mkPortfolioData 1 {["USD" := mkWalletData "USD" (-3)%float]}]
                   ∅ (fun _ => 0) 0 [] in
  let p := mkPortfolio 1 {["USD" := mkWallet "USD" 1000%float]} in
  fst (show_portfolio 1 w) = Ok (Some p)
  /\ _user_id p = 1
  /\ balance <$> _wallets p !! "USD" = stored_for 1 "USD" w.
Proof.
  intros w p.
  assert (Hshow : fst (show_portfolio 1 w) = Ok (Some p)) by (vm_compute; reflexivity).
  destruct (show_portfolio_first_record 1 w) as (_ & _ & Hsome & _).
  destruct (Hsome p Hshow) as [Hid Hbal].
  split; [exact Hshow|]. split; [exact Hid|exact (Hbal "USD")].
Defined.

(** ** The fixed-rate valuation *)

Lemma add_wallet_value_unrated (r total : float) (v : Wallet) :
  has_rate v = false -> add_wallet_value r total v = total.
Proof.
  unfold has_rate, add_wallet_value.
  by destruct (exchange_rates !! currency_code v).
Qed.

Lemma fold_add_wallet_value_skip (r : float) (values : list Wallet) (total : float) :
  fold_left (add_wallet_value r) values total
  = fold_left (add_wallet_value r) (List.filter has_rate values) total.
Proof.
  revert total. induction values as [|v values IH]; intros total; [done|].
  cbn [fold_left List.filter]. destruct (has_rate v) eqn:Hv.
  - cbn [fold_left]. apply IH.
  - rewrite (add_wallet_value_unrated _ _ _ Hv). apply IH.
Qed.

(** X9. [Portfolio.get_total_value] raises a [ValueError] for a base currency
    that is not one of the four of its table, whatever the wallets. For a base
    of the table it returns, and the wallets of currencies outside the table
    count for nothing: the total is that of the other wallets alone, and it is
    [0.0] when there is no other wallet. *)
Theorem total_value_skips_unrated (values : list Wallet) (base_currency : string) :
  (exchange_rates !! base_currency = None ->
   get_total_value values base_currency
   = Raises (ValueErrorIn (NoFixedRate base_currency)))
  /\ (forall r, exchange_rates !! base_currency = Some r ->
        get_total_value values base_currency
        = get_total_value (List.filter has_rate values) base_currency
        /\ (Forall (fun v => has_rate v = false) values ->
            get_total_value values base_currency = Returns 0%float)).
Proof.
  unfold get_total_value. split.
  - by intros ->.
  - intros r ->. split.
    + f_equal. apply fold_add_wallet_value_skip.
    + intros Hnone. f_equal. rewrite fold_add_wallet_value_skip.
      replace (List.filter has_rate values) with (@nil Wallet); [done|].
      induction Hnone as [|v values Hv _ IH]; [done|].
      cbn [List.filter]. by rewrite Hv.
Qed.

Lemma total_value_skips_unrated_witness :
  let values := [mkWallet "ETH" 3%float; mkWallet "USD" 250%float;
                 mkWallet "DOGE" 1000%float] in
  exchange_rates !! "USD" = Some 1%float
  /\ get_total_value values "USD" = get_total_value [mkWallet "USD" 250%float] "USD"
  /\ get_total_value values "USD" = Returns 250%float
  /\ exchange_rates !! "ETH" = None
  /\ get_total_value values "ETH" = Raises (ValueErrorIn (NoFixedRate "ETH")).
Proof.
  intros values.
  assert (Hbase : exchange_rates !! "USD" = Some 1%float) by (vm_compute; reflexivity).
  assert (Heth : exchange_rates !! "ETH" = None) by (vm_compute; reflexivity).
  destruct (total_value_skips_unrated values "USD") as [_ Hsome].
  destruct (total_value_skips_unrated values "ETH") as [Hnone _].
  split; [exact Hbase|]. split; [exact (proj1 (Hsome _ Hbase))|].
  split; [vm_compute; reflexivity|]. split; [exact Heth|exact (Hnone Heth)].
Defined.

(** ** Stripping a string *)

Lemma lstrip_head (s : str) :
  match lstrip s with
  | [] => True
  | c :: _ => isspace c = false
  end.
Proof.
  induction s as [|c s IH]; simpl; [done|].
  destruct (isspace c) eqn:Hc; [done|]. done.
Qed.

Lemma lstrip_fixed (c : N) (s : str) :
  isspace c = false -> lstrip (c :: s) = c :: s.
Proof. intros H. simpl. by rewrite H. Qed.

Lemma rstrip_head (c : N) (s : str) :
  isspace c = false ->
  exists rest, rstrip (c :: s) = c :: rest.
Proof.
  intros H. simpl. destruct (rstrip s); [rewrite H|]; eauto.
Qed.

Lemma rstrip_idempotent (s : str) : rstrip (rstrip s) = rstrip s.
Proof.
  induction s as [|c s IH]; simpl; [done|].
  destruct (rstrip s) as [|d kept] eqn:Hs.
  - destruct (isspace c) eqn:Hc; simpl; [done|]. by rewrite Hc.
  - change (rstrip (c :: d :: kept)) with
      (match rstrip (d :: kept) with
       | [] => if isspace c then [] else [c]
       | k => c :: k
       end).
    by rewrite IH.
Qed.

(** Stripping twice is stripping once. *)
Lemma strip_idempotent (s : str) : strip (strip s) = strip s.
Proof.
  unfold strip. pose proof (lstrip_head s) as Hhead.
  destruct (lstrip s) as [|c rest] eqn:Hl; [done|].
  destruct (rstrip_head c rest Hhead) as [kept Hk]. rewrite Hk.
  rewrite (lstrip_fixed _ _ Hhead), <- Hk. apply rstrip_idempotent.
Qed.

(** A string made of white space strips to the empty string, and only such
    a string does. *)
Lemma rstrip_nil (s : str) : rstrip s = [] <-> forallb isspace s = true.
Proof.
  induction s as [|c s IH]; simpl; [done|].
  destruct (rstrip s) as [|d kept].
  - rewrite (proj1 IH eq_refl), andb_true_r. by destruct (isspace c).
  - split; [done|]. intros [_ H]%andb_prop. by apply IH in H.
Qed.

Lemma strip_nil (s : str) : strip s = [] <-> forallb isspace s = true.
Proof.
  unfold strip. rewrite rstrip_nil.
  induction s as [|c s IH]; simpl; [done|].
  destruct (isspace c) eqn:Hc; [done|]. simpl. by rewrite Hc.
Qed.

Lemma _validate_username_cases (username : str) :
  (strip username = []
   /\ _validate_username username = Raises (ValueErrorIn EmptyUsername))
  \/ (strip username <> []
      /\ _validate_username username = Returns (strip username)).
Proof.
  unfold _validate_username. destruct username as [|c s]; [by left|].
  destruct (strip (c :: s)) eqn:Hs; [by left|by right].
Qed.

Lemma User_init_cases (user_id : Z) (username hashed salt : str) (date : datetime) :
  (strip username = []
   /\ User_init user_id username hashed salt date = Raises (ValueErrorIn EmptyUsername))
  \/ (strip username <> []
      /\ User_init user_id username hashed salt date
         = Returns (mkUser user_id (strip username) hashed salt date)).
Proof.
  unfold User_init.
  destruct (_validate_username_cases username) as [[H ->]|[H ->]]; [by left|by right].
Qed.

Lemma max_user_id_bound (users_data : list UserData) :
  Forall (fun v => ud_user_id v <= max_user_id users_data) users_data.
Proof.
  destruct users_data as [|u rest]; [constructor|]. simpl.
  assert (forall l m, m <= fold_left (fun m v => Z.max m (ud_user_id v)) l m
            /\ Forall (fun v => ud_user_id v
                        <= fold_left (fun m v => Z.max m (ud_user_id v)) l m) l) as H.
  { induction l as [|v l IH]; intros m; simpl; [split; [lia|constructor]|].
    destruct (IH (Z.max m (ud_user_id v))) as [H1 H2]. split; [lia|].
    constructor; [lia|done]. }
  destruct (H rest (ud_user_id u)) as [H1 H2]. by constructor.
Qed.

(** ** Users *)

Section UserFacts.

Variable sha256_hexdigest : str -> str.
Variable fromisoformat : str -> parsed_datetime.
Variable isoformat_of : datetime -> str.

Lemma verify_password_true (u : User) (password : str) :
  verify_password sha256_hexdigest u password = true <->
  (4 <= length password)%nat
  /\ encodable (password ++ user_salt u) = true
  /\ sha256_hexdigest (password ++ user_salt u) = user_hashed_password u.
Proof.
  unfold verify_password, _hash_password, sha256_of.
  destruct (Nat.ltb_spec (length password) 4) as [Hlt|Hge].
  - split; [done|]. intros [? _]. lia.
  - destruct (encodable (password ++ user_salt u)).
    + rewrite bool_decide_eq_true. split; [by intros ->|by intros (_ & _ & ->)].
    + split; [done|]. by intros (_ & ? & _).
Qed.

(** Loading what [to_dict] wrote gives the user back, when the date is read
    back as it was written and the name is one that [__init__] lets through
    as it is. *)
Lemma User_from_dict_to_dict (u : User) :
  strip (user_username u) = user_username u ->
  user_username u <> [] ->
  parsed_value (fromisoformat (isoformat_of (user_registration_date u)))
    = Some (user_registration_date u) ->
  User_from_dict fromisoformat (User_to_dict isoformat_of u) = Returns u.
Proof.
  intros Hs Hne Hd. unfold User_from_dict, User_to_dict. simpl. rewrite Hd.
  destruct (User_init_cases (user_user_id u) (user_username u) (user_hashed_password u)
              (user_salt u) (user_registration_date u)) as [[H _]|[_ ->]].
  - congruence.
  - rewrite Hs. by destruct u.
Qed.

Lemma User_from_dict_fields (data : UserData) (u : User) :
  User_from_dict fromisoformat data = Returns u ->
  user_user_id u = ud_user_id data
  /\ user_username u = strip (ud_username data)
  /\ user_hashed_password u = ud_hashed_password data
  /\ user_salt u = ud_salt data.
Proof.
  unfold User_from_dict.
  destruct (parsed_value _) as [d|]; [|done].
  destruct (User_init_cases (ud_user_id data) (ud_username data)
              (ud_hashed_password data) (ud_salt data) d) as [[_ ->]|[_ ->]]; [done|].
  by intros [= <-].
Qed.

Lemma login_user_skip (users : list UserData) (username password : str) (rest : list UserData) :
  Forall (fun v => ud_username v <> username) users ->
  login_user sha256_hexdigest fromisoformat (users ++ rest) username password
  = login_user sha256_hexdigest fromisoformat rest username password.
Proof.
  induction 1 as [|v users Hv _ IH]; [done|]. simpl.
  by rewrite bool_decide_false.
Qed.

Lemma register_user_cases (users_data : list UserData)
    (username password salt : str) (date : datetime) :
  register_user sha256_hexdigest users_data username password salt date
  = if encodable (password ++ salt) then
      match strip username with
      | [] => Raises (ValueErrorIn EmptyUsername)
      | name =>
          Returns (mkUser (max_user_id users_data + 1) name
                          (sha256_hexdigest (password ++ salt)) salt date)
      end
    else Raises (ValueErrorIn CannotEncode).
Proof.
  unfold register_user, sha256_of. destruct (encodable (password ++ salt)); [|done].
  destruct (User_init_cases (max_user_id users_data + 1) username
              (sha256_hexdigest (password ++ salt)) salt date) as [[H ->]|[H ->]].
  - by rewrite H.
  - by destruct (strip username).
Qed.

(** X10. [register_user] raises [UnicodeEncodeError] when the password
    followed by the salt holds a surrogate, and otherwise a [ValueError]
    when the name is empty or made of white space only, of any script, and
    for nothing else: the length of the password is not checked. The user
    it returns has an id above every id in [users_data] (1 when there is
    none), the name stripped and the hash of the password followed by the
    salt. *)
Theorem register_user_fresh_id (users_data : list UserData)
    (username password salt : str) (date : datetime) :
  (encodable (password ++ salt) = false ->
   register_user sha256_hexdigest users_data username password salt date
   = Raises (ValueErrorIn CannotEncode))
  /\ (encodable (password ++ salt) = true ->
      forallb isspace username = true ->
      register_user sha256_hexdigest users_data username password salt date
      = Raises (ValueErrorIn EmptyUsername))
  /\ (encodable (password ++ salt) = true ->
      forallb isspace username = false ->
      register_user sha256_hexdigest users_data username password salt date
      = Returns (mkUser (max_user_id users_data + 1) (strip username)
                        (sha256_hexdigest (password ++ salt)) salt date))
  /\ Forall (fun v => ud_user_id v < max_user_id users_data + 1) users_data
  /\ (users_data = [] -> max_user_id users_data + 1 = 1).
Proof.
  rewrite register_user_cases.
  split; [by intros ->|]. split; [|split; [|split]].
  - intros -> Hblank. apply strip_nil in Hblank. by rewrite Hblank.
  - intros -> Hname.
    destruct (strip username) eqn:Hs; [|done].
    apply strip_nil in Hs. congruence.
  - eapply Forall_impl; [apply max_user_id_bound|simpl; intros; lia].
  - by intros ->.
Qed.

(** X11. A password of fewer than four characters is never verified: no
    [login_user] returns a user for it, whatever the records. [register_user]
    all the same registers a user with such a password. *)
Theorem short_password_never_logs_in (password : str) :
  (length password < 4)%nat ->
  (forall u, verify_password sha256_hexdigest u password = false)
  /\ (forall users_data username u,
        login_user sha256_hexdigest fromisoformat users_data username password
        <> Returns (Some u))
  /\ (forall users_data username salt date,
        strip username <> [] ->
        encodable (password ++ salt) = true ->
        exists u,
          register_user sha256_hexdigest users_data username password salt date
          = Returns u).
Proof.
  intros Hshort.
  assert (forall u, verify_password sha256_hexdigest u password = false) as Hverify.
  { intros u. unfold verify_password, _hash_password.
    by rewrite (proj2 (Nat.ltb_lt _ _) Hshort). }
  split; [exact Hverify|]. split.
  - intros users_data username u. induction users_data as [|v rest IH]; simpl; [done|].
    destruct (bool_decide (ud_username v = username)); [|done].
    destruct (User_from_dict fromisoformat v) as [u'|e]; [|done].
    by rewrite Hverify.
  - intros users_data username salt date Hname Henc.
    rewrite register_user_cases, Henc.
    destruct (strip username); [done|eauto].
Qed.

(** X12. Registering and then logging in: once the record of a user that
    [register_user] returned is appended to [users_data], [login_user] with
    the stripped name and the same password, of four characters or more,
    returns that user, provided no record before it carries the name and the
    registration date is read back as it was written. *)
Theorem register_then_login (users_data : list UserData)
    (username password salt : str) (date : datetime) (u : User) :
  register_user sha256_hexdigest users_data username password salt date = Returns u ->
  (4 <= length password)%nat ->
  Forall (fun v => ud_username v <> strip username) users_data ->
  parsed_value (fromisoformat (isoformat_of date)) = Some date ->
  login_user sha256_hexdigest fromisoformat
    (users_data ++ [User_to_dict isoformat_of u]) (strip username) password
  = Returns (Some u).
Proof.
  intros Hreg Hlen Hfree Hdate. rewrite register_user_cases in Hreg.
  destruct (encodable (password ++ salt)) eqn:Henc; [|discriminate].
  destruct (strip username) as [|c name] eqn:Hname; [discriminate|].
  injection Hreg as <-.
  rewrite login_user_skip by done. simpl. rewrite bool_decide_true by done.
  rewrite User_from_dict_to_dict; simpl;
    [|rewrite <- Hname; apply strip_idempotent|done|done].
  rewrite (proj2 (verify_password_true _ _)); [done|]. by repeat split.
Qed.

(** X13. [User.from_dict] after [User.to_dict] gives back every user that
    [User.__init__] built, when the date is read back as it was written. On
    any record, [from_dict] raises a [ValueError] for a date that does not
    parse (before the name is looked at) and for a name that is empty or
    made of white space only, and otherwise keeps the name stripped. *)
Theorem user_round_trip (user_id : Z) (username hashed salt : str)
    (date : datetime) (u : User) :
  User_init user_id username hashed salt date = Returns u ->
  parsed_value (fromisoformat (isoformat_of date)) = Some date ->
  User_from_dict fromisoformat (User_to_dict isoformat_of u) = Returns u
  /\ (forall data,
        match parsed_value (fromisoformat (ud_registration_date data)) with
        | None => User_from_dict fromisoformat data = Raises (ValueErrorIn BadIsoString)
        | Some d =>
            if forallb isspace (ud_username data) then
              User_from_dict fromisoformat data = Raises (ValueErrorIn EmptyUsername)
            else
              User_from_dict fromisoformat data
              = Returns (mkUser (ud_user_id data) (strip (ud_username data))
                                (ud_hashed_password data) (ud_salt data) d)
        end).
Proof.
  intros Hinit Hdate. split.
  - destruct (User_init_cases user_id username hashed salt date) as [[_ H]|[Hne H]];
      rewrite H in Hinit; [discriminate|]. injection Hinit as <-.
    apply User_from_dict_to_dict; [apply strip_idempotent|done|done].
  - intros data. unfold User_from_dict.
    destruct (parsed_value (fromisoformat (ud_registration_date data))) as [d|]; [|done].
    destruct (User_init_cases (ud_user_id data) (ud_username data)
                (ud_hashed_password data) (ud_salt data) d) as [[H ->]|[H ->]].
    + apply strip_nil in H. by rewrite H.
    + destruct (forallb isspace (ud_username data)) eqn:Hb; [|done].
      apply strip_nil in Hb. congruence.
Qed.

(** X14. [User.change_password] raises a [ValueError] for a password of fewer
    than four characters, and [UnicodeEncodeError] for a longer one that,
    followed by the salt, holds a surrogate. For any other it returns, the
    user differs in the hash alone, the new password is verified on it, and
    any password verified on it has the hash of the new one (with the
    salt). *)
Theorem change_password_then_verify (u : User) (new_password : str) :
  ((length new_password < 4)%nat ->
   change_password sha256_hexdigest u new_password = Raises (ValueErrorIn ShortPassword))
  /\ ((4 <= length new_password)%nat ->
      encodable (new_password ++ user_salt u) = false ->
      change_password sha256_hexdigest u new_password = Raises (ValueErrorIn CannotEncode))
  /\ ((4 <= length new_password)%nat ->
      encodable (new_password ++ user_salt u) = true ->
      exists u',
        change_password sha256_hexdigest u new_password = Returns u'
        /\ verify_password sha256_hexdigest u' new_password = true
        /\ user_user_id u' = user_user_id u
        /\ user_username u' = user_username u
        /\ user_salt u' = user_salt u
        /\ user_registration_date u' = user_registration_date u
        /\ forall q, verify_password sha256_hexdigest u' q = true ->
             sha256_hexdigest (q ++ user_salt u)
             = sha256_hexdigest (new_password ++ user_salt u)).
Proof.
  unfold change_password, _hash_password, sha256_of. split; [|split].
  - intros H. by rewrite (proj2 (Nat.ltb_lt _ _) H).
  - intros H Henc. by rewrite (proj2 (Nat.ltb_ge _ _) H), Henc.
  - intros H Henc. rewrite (proj2 (Nat.ltb_ge _ _) H), Henc. eexists. split; [done|].
    split; [by apply verify_password_true|]. repeat split.
    intros q Hq. by apply verify_password_true in Hq as (_ & _ & Hq).
Qed.

(** X15. When [login_user] returns a user, some record of [users_data]
    carries exactly the name given, loads as that user, and the password, of
    four characters or more, hashes with the salt of the record to the hash
    it stores. When no record carries the name, it returns [None]. *)
Theorem login_user_sound (users_data : list UserData) (username password : str) :
  (forall u,
     login_user sha256_hexdigest fromisoformat users_data username password
     = Returns (Some u) ->
     exists data,
       data ∈ users_data
       /\ ud_username data = username
       /\ User_from_dict fromisoformat data = Returns u
       /\ (4 <= length password)%nat
       /\ encodable (password ++ ud_salt data) = true
       /\ sha256_hexdigest (password ++ ud_salt data) = ud_hashed_password data)
  /\ (Forall (fun v => ud_username v <> username) users_data ->
      login_user sha256_hexdigest fromisoformat users_data username password
      = Returns None).
Proof.
  split.
  - intros u. induction users_data as [|v rest IH]; simpl; [done|].
    destruct (bool_decide_reflect (ud_username v = username)) as [Hname|Hname].
    + destruct (User_from_dict fromisoformat v) as [u'|e] eqn:Hload; [|done].
      destruct (verify_password sha256_hexdigest u' password) eqn:Hv.
      * intros [= <-]. exists v. apply verify_password_true in Hv as (Hlen & Henc & Hhash).
        destruct (User_from_dict_fields _ _ Hload) as (_ & _ & Hh & Hs).
        rewrite Hh, Hs in Hhash. rewrite Hs in Henc.
        repeat split; [apply list_elem_of_here|done..].
      * intros H. destruct (IH H) as (data & Hin & Hrest).
        exists data. split; [by apply list_elem_of_further|done].
    + intros H. destruct (IH H) as (data & Hin & Hrest).
      exists data. split; [by apply list_elem_of_further|done].
  - intros Hnone. rewrite <- (app_nil_r users_data). by rewrite login_user_skip.
Qed.

End UserFacts.

Lemma short_password_never_logs_in_witness :
  let name := str_of "bob" in
  let password := [1082; 1086; 1090]%N in
  let salt := str_of "x5T9!" in
  let u := mkUser 1 name (example_sha256_hexdigest (password ++ salt)) salt (Naive 0) in
  (length password < 4)%nat
  /\ register_user example_sha256_hexdigest [] (160%N :: name) password salt (Naive 0)
     = Returns u
  /\ verify_password example_sha256_hexdigest u password = false
  /\ login_user example_sha256_hexdigest example_fromisoformat_str
       [User_to_dict example_isoformat_of u] name password
     <> Returns (Some u).
Proof.
  intros name password salt u.
  assert (Hshort : (length password < 4)%nat) by (simpl; lia).
  destruct (short_password_never_logs_in example_sha256_hexdigest example_fromisoformat_str
              password Hshort) as (Hverify & Hlogin & _).
  split; [exact Hshort|]. split; [vm_compute; reflexivity|]. split; [exact (Hverify u)|].
  exact (Hlogin _ _ u).
Defined.

Lemma register_then_login_witness :
  let name := str_of "bob" in
  let password := str_of "secret" in
  let salt := str_of "x5T9!" in
  let u := mkUser 1 name (example_sha256_hexdigest (password ++ salt)) salt (Naive 0) in
  register_user example_sha256_hexdigest [] (str_of " bob ") password salt (Naive 0)
  = Returns u
  /\ (4 <= length password)%nat
  /\ parsed_value (example_fromisoformat_str (example_isoformat_of (Naive 0)))
     = Some (Naive 0)
  /\ login_user example_sha256_hexdigest example_fromisoformat_str
       ([] ++ [User_to_dict example_isoformat_of u]) (strip (str_of " bob ")) password
     = Returns (Some u).
Proof.
  intros name password salt u.
  assert (Hreg : register_user example_sha256_hexdigest [] (str_of " bob ") password salt
                   (Naive 0) = Returns u) by (vm_compute; reflexivity).
  assert (Hlen : (4 <= length password)%nat) by (simpl; lia).
  assert (Hdate : parsed_value (example_fromisoformat_str (example_isoformat_of (Naive 0)))
                  = Some (Naive 0)) by (vm_compute; reflexivity).
  split; [exact Hreg|]. split; [exact Hlen|]. split; [exact Hdate|].
  exact (register_then_login example_sha256_hexdigest example_fromisoformat_str
           example_isoformat_of [] (str_of " bob ") password salt (Naive 0) u
           Hreg Hlen (Forall_nil_2 _) Hdate).
Defined.

Lemma user_round_trip_witness :
  let u := mkUser 7 (str_of "alice") (str_of "hash") (str_of "salt") (Naive 0) in
  User_init 7 (str_of "alice" ++ [32; 12288]%N) (str_of "hash") (str_of "salt") (Naive 0)
  = Returns u
  /\ parsed_value (example_fromisoformat_str (example_isoformat_of (Naive 0)))
     = Some (Naive 0)
  /\ User_from_dict example_fromisoformat_str (User_to_dict example_isoformat_of u)
     = Returns u.
Proof.
  intros u.
  assert (Hinit : User_init 7 (str_of "alice" ++ [32; 12288]%N) (str_of "hash")
                    (str_of "salt") (Naive 0) = Returns u) by (vm_compute; reflexivity).
  assert (Hdate : parsed_value (example_fromisoformat_str (example_isoformat_of (Naive 0)))
                  = Some (Naive 0)) by (vm_compute; reflexivity).
  split; [exact Hinit|]. split; [exact Hdate|].
  exact (proj1 (user_round_trip example_fromisoformat_str example_isoformat_of
                  7 (str_of "alice" ++ [32; 12288]%N) (str_of "hash") (str_of "salt")
                  (Naive 0) u Hinit Hdate)).
Defined.

(** Characters beyond ASCII: a name of one no-break space is blank, and a
    password of three Cyrillic letters is short, though it takes six bytes;
    a password with a lone surrogate cannot be hashed. *)
Example blank_and_short_beyond_ascii :
  let password := [1082; 1086; 1090]%N in
  let salt := str_of "x5T9!" in
  let u := mkUser 1 (str_of "bob") (str_of "hash") salt (Naive 0) in
  register_user example_sha256_hexdigest [] [160%N] (str_of "secret") salt (Naive 0)
  = Raises (ValueErrorIn EmptyUsername)
  /\ change_password example_sha256_hexdigest u password
     = Raises (ValueErrorIn ShortPassword)
  /\ change_password example_sha256_hexdigest u (55296%N :: str_of "abc")
     = Raises (ValueErrorIn CannotEncode)
  /\ verify_password example_sha256_hexdigest u (55296%N :: str_of "abc") = false.
Proof. repeat split. Qed.

(** ** The registry of currencies *)

Lemma ascii_upper_fixed (c : ascii) :
  is_ascii_lower c = false -> ascii_upper c = c.
Proof. unfold ascii_upper. by intros ->. Qed.

Lemma ascii_upper_lower (c : ascii) :
  is_ascii_lower c = false -> ascii_upper (ascii_lower c) = c.
Proof.
  destruct c as [[] [] [] [] [] [] [] []]; vm_compute; intros; congruence.
Qed.

Lemma upper_fixed (s : string) :
  string_forallb (fun c => negb (is_ascii_lower c)) s = true -> upper s = s.
Proof.
  unfold upper. induction s as [|c s IH]; simpl; [done|].
  intros [Hc Hs]%andb_prop. apply negb_true_iff in Hc.
  by rewrite (ascii_upper_fixed c Hc), IH.
Qed.

Lemma upper_lower_fixed (s : string) :
  string_forallb (fun c => negb (is_ascii_lower c)) s = true -> upper (lower s) = s.
Proof.
  unfold upper, lower. induction s as [|c s IH]; simpl; [done|].
  intros [Hc Hs]%andb_prop. apply negb_true_iff in Hc.
  by rewrite (ascii_upper_lower c Hc), IH.
Qed.

Lemma lower_ascii_only (s : string) : ascii_only s -> ascii_only (lower s).
Proof.
  unfold ascii_only, lower. induction s as [|c s IH]; simpl; [done|].
  intros [Hc Hs]%andb_prop. rewrite (IH Hs), andb_true_r.
  revert Hc. destruct c as [[] [] [] [] [] [] [] []]; vm_compute; congruence.
Qed.

(** A code that [Currency.__init__] lets through has no lowercase letter. *)
Lemma accepted_code_no_lower (code : string) :
  code_rejected code = false ->
  string_forallb (fun c => negb (is_ascii_lower c)) code = true.
Proof.
  unfold code_rejected, isupper. intros H.
  apply orb_false_iff in H as [_ H]. apply negb_false_iff in H.
  by apply andb_prop in H as [H _].
Qed.

Lemma Currency_init_Ok (name code : string) (c : Currency) :
  Currency_init name code = Ok c ->
  c = mkCurrency name code /\ name <> EmptyString /\ code_rejected code = false.
Proof.
  unfold Currency_init. destruct name as [|a name]; [done|].
  destruct (code_rejected code); [done|]. by intros [= <-].
Qed.

Lemma constructed_code (c : currency) :
  constructed c -> code_rejected (currency_code_of c) = false.
Proof.
  destruct c as [f|k]; simpl.
  - intros (name & code & country & H). unfold FiatCurrency_init in H.
    destruct (Currency_init name code) as [b|e] eqn:Hb; [|done].
    apply Currency_init_Ok in Hb as (-> & _ & Hcode).
    destruct country; [done|]. by injection H as <-.
  - intros (name & code & algo & cap & H). unfold CryptoCurrency_init in H.
    destruct (Currency_init name code) as [b|e] eqn:Hb; [|done].
    apply Currency_init_Ok in Hb as (-> & _ & Hcode).
    destruct algo; [done|]. destruct (cap <? 0)%float; [done|]. by injection H as <-.
Qed.

(** X16. A currency built by one of the two constructors with a code of
    ASCII characters, once registered, is found by [get_currency] under its
    code written in any mix of upper and lower case: under the code itself,
    under the code in lowercase, and under every string of ASCII characters
    that [upper()] turns into the code. *)
Theorem registered_currency_found (c : currency) (registry : gmap string currency) :
  constructed c ->
  ascii_only (currency_code_of c) ->
  get_currency (currency_code_of c) (register_currency c registry) = Returns c
  /\ get_currency (lower (currency_code_of c)) (register_currency c registry) = Returns c
  /\ ascii_only (lower (currency_code_of c))
  /\ forall q, ascii_only q -> upper q = currency_code_of c ->
       get_currency q (register_currency c registry) = Returns c.
Proof.
  intros Hc Hascii. apply constructed_code, accepted_code_no_lower in Hc.
  assert (forall q, upper q = currency_code_of c ->
            get_currency q (register_currency c registry) = Returns c) as Hq.
  { intros q Hq. unfold get_currency, register_currency.
    by rewrite Hq, lookup_insert_eq. }
  split; [apply Hq; by apply upper_fixed|].
  split; [apply Hq; by apply upper_lower_fixed|].
  split; [by apply lower_ascii_only|]. intros q _. apply Hq.
Qed.

Lemma registered_currency_found_witness :
  let c := Fiat (mkFiatCurrency (mkCurrency "US Dollar" "USD") "United States") in
  constructed c
  /\ ascii_only (currency_code_of c)
  /\ get_currency "USD" (register_currency c ∅) = Returns c
  /\ get_currency "usd" (register_currency c ∅) = Returns c
  /\ get_currency "uSd" (register_currency c ∅) = Returns c.
Proof.
  intros c.
  assert (Hc : constructed c) by (exists "US Dollar", "USD", "United States"; reflexivity).
  assert (Ha : ascii_only (currency_code_of c)) by reflexivity.
  destruct (registered_currency_found c ∅ Hc Ha) as (Hcode & Hlower & _ & Hany).
  split; [exact Hc|]. split; [exact Ha|].
  split; [exact Hcode|]. split; [exact Hlower|].
  exact (Hany "uSd" eq_refl eq_refl).
Defined.

(** X18. What the constructors guarantee of an instance whose code is made
    of ASCII characters: a name that is not empty; a code of two to five
    characters, without space, that [upper()] leaves as it is; for a fiat
    currency an issuing country that is not empty; for a crypto currency an
    algorithm that is not empty and a market capitalisation that does not
    compare below zero. *)
Theorem constructed_currency_invariants (c : currency) :
  constructed c ->
  ascii_only (currency_code_of c) ->
  (2 <= String.length (currency_code_of c) <= 5)%nat
  /\ has_space (currency_code_of c) = false
  /\ upper (currency_code_of c) = currency_code_of c
  /\ match c with
     | Fiat f => name (fiat_currency f) <> EmptyString /\ issuing_country f <> EmptyString
     | Crypto k =>
         name (crypto_currency k) <> EmptyString
         /\ algorithm k <> EmptyString
         /\ (market_cap k <? 0)%float = false
     end.
Proof.
  intros Hc _. pose proof (constructed_code c Hc) as Hcode.
  pose proof (accepted_code_no_lower _ Hcode) as Hlow.
  unfold code_rejected in Hcode.
  apply orb_false_iff in Hcode as [Hcode _].
  apply orb_false_iff in Hcode as [Hcode Hspace].
  apply orb_false_iff in Hcode as [Hcode H5].
  apply orb_false_iff in Hcode as [_ H2].
  apply Nat.ltb_ge in H2, H5.
  split; [lia|]. split; [done|]. split; [by apply upper_fixed|].
  destruct c as [f|k]; simpl in Hc.
  - destruct Hc as (n & cd & country & H). unfold FiatCurrency_init in H.
    destruct (Currency_init n cd) as [b|e] eqn:Hb; [|done].
    apply Currency_init_Ok in Hb as (-> & Hn & _).
    destruct country; [done|]. by injection H as <-.
  - destruct Hc as (n & cd & algo & cap & H). unfold CryptoCurrency_init in H.
    destruct (Currency_init n cd) as [b|e] eqn:Hb; [|done].
    apply Currency_init_Ok in Hb as (-> & Hn & _).
    destruct algo; [done|]. destruct (cap <? 0)%float eqn:Hcap; [done|].
    by injection H as <-.
Qed.

Lemma constructed_currency_invariants_witness :
  let c := Crypto (mkCryptoCurrency (mkCurrency "Bitcoin" "BTC") "SHA-256" 1.12e12%float) in
  constructed c
  /\ ascii_only (currency_code_of c)
  /\ (2 <= String.length (currency_code_of c) <= 5)%nat
  /\ upper (currency_code_of c) = currency_code_of c
  /\ (market_cap (mkCryptoCurrency (mkCurrency "Bitcoin" "BTC") "SHA-256" 1.12e12%float)
       <? 0)%float = false.
Proof.
  intros c.
  assert (Hc : constructed c)
    by (exists "Bitcoin", "BTC", "SHA-256", 1.12e12%float; reflexivity).
  assert (Ha : ascii_only (currency_code_of c)) by reflexivity.
  destruct (constructed_currency_invariants c Hc Ha) as (Hlen & _ & Hup & _ & _ & Hcap).
  split; [exact Hc|]. split; [exact Ha|].
  split; [exact Hlen|]. split; [exact Hup|exact Hcap].
Defined.

(** ** The rate cache, call after call *)

Section RateCacheMore.

Variable fromisoformat : string -> parsed_datetime.
Variable isoformat : Z -> string.

(** [get_exchange_rate], case by case. *)
Lemma get_exchange_rate_cases (from_curr to_curr : string) (w : World) :
  get_exchange_rate fromisoformat isoformat from_curr to_curr w =
    match rates_data w !! (from_curr +:+ "_" +:+ to_curr) with
    | Some e =>
        match fromisoformat (updated_at e) with
        | Malformed => refetch isoformat from_curr to_curr w
        | NaiveDT t =>
            if clock w (ticks w) - t <=? freshness_window
            then (Ok (Some e), ticked w)
            else refetch isoformat from_curr to_curr (ticked w)
        | AwareDT _ => (Raise TypeError, ticked w)
        end
    | None => refetch isoformat from_curr to_curr w
    end.
Proof.
  assert (forall w0,
    (new_rate <- fetch_rate_from_parser isoformat from_curr to_curr ;;
     match new_rate with
     | Some entry =>
         set_rate (from_curr +:+ "_" +:+ to_curr) entry ;;; save_rates ;;; ret (Some entry)
     | None => ret None
     end) w0 = refetch isoformat from_curr to_curr w0) as Hfetch.
  { intros w0. unfold refetch, fetch_rate_from_parser, bind, log_event, modify; simpl.
    by destruct (mock_rates !! (from_curr +:+ "_" +:+ to_curr)). }
  unfold get_exchange_rate. unfold bind at 1. unfold gets at 1. unfold bind at 1.
  destruct (rates_data w !! (from_curr +:+ "_" +:+ to_curr)) as [e|].
  - unfold is_rate_fresh.
    destruct (fromisoformat (updated_at e)) as [|t|t].
    + unfold bind at 1. unfold ret at 1. unfold ret at 1. apply Hfetch.
    + unfold bind at 1. unfold bind at 1. unfold datetime_now at 1. unfold ret at 1.
      unfold ret at 1. fold (ticked w). fold freshness_window.
      destruct (clock w (ticks w) - t <=? freshness_window); [done|]. apply Hfetch.
    + done.
  - unfold ret at 1. apply Hfetch.
Qed.

Lemma refetch_rates (from_curr to_curr : string) (w : World) :
  let run := refetch isoformat from_curr to_curr w in
  let key := from_curr +:+ "_" +:+ to_curr in
  portfolios_data (snd run) = portfolios_data w
  /\ clock (snd run) = clock w
  /\ (forall k, k <> key -> rates_data (snd run) !! k = rates_data w !! k)
  /\ match fst run with
     | Ok (Some e) =>
         rates_data (snd run) !! key = Some e
         /\ mock_rates !! key = Some (rate e)
         /\ updated_at e = isoformat (clock w (ticks w))
         /\ ticks (snd run) = S (ticks w)
     | _ => fst run = Ok None /\ mock_rates !! key = None
            /\ rates_data (snd run) = rates_data w
     end.
Proof.
  unfold refetch. destruct (mock_rates !! (from_curr +:+ "_" +:+ to_curr)) as [r|]; simpl.
  - repeat split; [|by rewrite lookup_insert_eq].
    intros k Hk. by rewrite lookup_insert_ne.
  - done.
Qed.

(** X19. The cache after a call of [get_exchange_rate] agrees with its
    answer: an entry that is returned is the entry the cache then holds for
    the pair; when [None] is returned or [TypeError] is raised the cache is
    as it was; the entries of every other pair, and the portfolios, are
    untouched in all cases. *)
Theorem rate_cache_agrees_with_answer (from_curr to_curr : string) (w : World) :
  let run := get_exchange_rate fromisoformat isoformat from_curr to_curr w in
  let key := from_curr +:+ "_" +:+ to_curr in
  (forall e, fst run = Ok (Some e) -> rates_data (snd run) !! key = Some e)
  /\ (fst run = Ok None \/ fst run = Raise TypeError ->
      rates_data (snd run) = rates_data w)
  /\ (forall k, k <> key -> rates_data (snd run) !! k = rates_data w !! k)
  /\ portfolios_data (snd run) = portfolios_data w.
Proof.
  intros run key. unfold run. rewrite get_exchange_rate_cases. fold key.
  assert (forall w0, rates_data w0 = rates_data w -> portfolios_data w0 = portfolios_data w ->
    let r := refetch isoformat from_curr to_curr w0 in
    (forall e, fst r = Ok (Some e) -> rates_data (snd r) !! key = Some e)
    /\ (fst r = Ok None \/ fst r = Raise TypeError -> rates_data (snd r) = rates_data w)
    /\ (forall k, k <> key -> rates_data (snd r) !! k = rates_data w !! k)
    /\ portfolios_data (snd r) = portfolios_data w) as Hre.
  { intros w0 Hr Hp r. destruct (refetch_rates from_curr to_curr w0) as (H1 & _ & H3 & H4).
    fold r key in H1, H3, H4. rewrite <- Hr, <- Hp.
    destruct (fst r) as [[e|]|x] eqn:Hfst.
    - destruct H4 as (H4 & _). repeat split; [|by intros [?|?]|done..].
      by intros e' [= <-].
    - destruct H4 as (_ & _ & H4). by repeat split.
    - by destruct H4 as (H4 & _). }
  destruct (rates_data w !! key) as [e|] eqn:He; [|by apply Hre].
  destruct (fromisoformat (updated_at e)) as [|t|t]; [by apply Hre| |by simpl].
  destruct (clock w (ticks w) - t <=? freshness_window); [|by apply Hre].
  simpl. split; [by intros e' [= <-]|]. split; [done|]. by split.
Qed.

(** X20. A rate that was just fetched is served from the cache next time.
    When a call for a pair that is not cached has returned an entry, the
    entry carries the rate of the source for the pair and the reading of the
    clock as its time stamp; and a second call whose reading of the clock is
    within the freshness window of the first returns the same entry without
    calling the source again and without touching the cache, provided the
    time stamp is read back as the time it was written for. *)
Theorem fetched_rate_served_again (from_curr to_curr : string) (e : RateEntry) (w : World) :
  let run1 := get_exchange_rate fromisoformat isoformat from_curr to_curr w in
  let run2 := get_exchange_rate fromisoformat isoformat from_curr to_curr (snd run1) in
  rates_data w !! (from_curr +:+ "_" +:+ to_curr) = None ->
  fst run1 = Ok (Some e) ->
  fromisoformat (updated_at e) = NaiveDT (clock w (ticks w)) ->
  clock w (S (ticks w)) - clock w (ticks w) <= freshness_window ->
  mock_rates !! (from_curr +:+ "_" +:+ to_curr) = Some (rate e)
  /\ updated_at e = isoformat (clock w (ticks w))
  /\ fst run2 = Ok (Some e)
  /\ journal (snd run2) = journal (snd run1)
  /\ rates_data (snd run2) = rates_data (snd run1)
  /\ List.filter is_parser_call (journal (snd run2))
     = ParserCall from_curr to_curr :: List.filter is_parser_call (journal w).
Proof.
  intros run1 run2 Hnone Hret Hiso Hage.
  assert (run1 = refetch isoformat from_curr to_curr w) as H1.
  { unfold run1. by rewrite get_exchange_rate_cases, Hnone. }
  rewrite H1 in Hret. unfold refetch in H1, Hret.
  destruct (mock_rates !! (from_curr +:+ "_" +:+ to_curr)) as [r|]; [|discriminate].
  simpl in Hret. injection Hret as <-. simpl in Hiso.
  assert (run2 = (Ok (Some (mkRateEntry r (isoformat (clock w (ticks w))))),
                  ticked (snd run1))) as H2.
  { unfold run2. rewrite get_exchange_rate_cases, H1. simpl.
    rewrite lookup_insert_eq. simpl. rewrite Hiso.
    by rewrite (proj2 (Z.leb_le _ _) Hage). }
  rewrite H2, H1. by simpl.
Qed.

(** X21. [get_exchange_rate] makes up no rate: an entry it returns is the one
    the cache held for the pair, or carries the rate that the table of the
    source has for the pair; and for a pair that is neither cached nor in
    that table, which has the four pairs of USD with BTC and ETH only, it
    returns [None]. *)
Theorem rate_is_cached_or_from_source (from_curr to_curr : string) (w : World) :
  let run := get_exchange_rate fromisoformat isoformat from_curr to_curr w in
  let key := from_curr +:+ "_" +:+ to_curr in
  (forall e, fst run = Ok (Some e) ->
     rates_data w !! key = Some e \/ mock_rates !! key = Some (rate e))
  /\ (rates_data w !! key = None -> mock_rates !! key = None ->
      run = (Ok None, asked from_curr to_curr w))
  /\ (forall k x, mock_rates !! k = Some x ->
        k = "USD_BTC" \/ k = "BTC_USD" \/ k = "USD_ETH" \/ k = "ETH_USD").
Proof.
  intros run key. split; [|split].
  - intros e. unfold run. rewrite get_exchange_rate_cases. fold key.
    assert (forall w0, fst (refetch isoformat from_curr to_curr w0) = Ok (Some e) ->
              mock_rates !! key = Some (rate e)) as Hre.
    { intros w0 H. pose proof (refetch_rates from_curr to_curr w0) as (_ & _ & _ & H4).
      simpl in H4. rewrite H in H4. tauto. }
    destruct (rates_data w !! key) as [e0|]; [|by right; eapply Hre].
    destruct (fromisoformat (updated_at e0)) as [|t|t]; [by right; eapply Hre| |done].
    destruct (clock w (ticks w) - t <=? freshness_window); [|by right; eapply Hre].
    simpl. intros [= <-]. by left.
  - intros Hnone Hsrc. unfold run. rewrite get_exchange_rate_cases. fold key.
    rewrite Hnone. unfold refetch. fold key. by rewrite Hsrc.
  - intros k x. unfold mock_rates. rewrite !lookup_insert.
    repeat case_decide; subst; auto. by rewrite lookup_empty.
Qed.

(** X22. The time stamp of a cached entry decides alone whether the entry is
    served. One that does not parse is never fresh: the source is called at
    once, without a reading of the clock. One that carries an offset ends the
    call with a [TypeError], the subtraction of an aware datetime from a naive
    one, whatever the source knows: the cache and the journal are as they
    were. *)
Theorem unreadable_time_stamp (from_curr to_curr : string) (e : RateEntry) (w : World) :
  rates_data w !! (from_curr +:+ "_" +:+ to_curr) = Some e ->
  let run := get_exchange_rate fromisoformat isoformat from_curr to_curr w in
  (fromisoformat (updated_at e) = Malformed ->
   run = refetch isoformat from_curr to_curr w
   /\ List.filter is_parser_call (journal (snd run))
      = ParserCall from_curr to_curr :: List.filter is_parser_call (journal w))
  /\ (forall t, fromisoformat (updated_at e) = AwareDT t ->
        run = (Raise TypeError, ticked w)
        /\ rates_data (snd run) = rates_data w
        /\ journal (snd run) = journal w).
Proof.
  intros He run. unfold run. rewrite get_exchange_rate_cases, He. split.
  - intros ->. split; [done|]. unfold refetch.
    by destruct (mock_rates !! (from_curr +:+ "_" +:+ to_curr)).
  - by intros t ->.
Qed.

End RateCacheMore.

Lemma fetched_rate_served_again_witness :
  let w := mkWorld [] ∅ (fun n => if (n =? 0)%nat then 300000000 else 360000000) 0 [] in
  let entry := mkRateEntry 59337.21%float "2024-01-01T00:05:00" in
  let parse := fun s => if String.eqb s "2024-01-01T00:05:00" then NaiveDT 300000000
                        else example_fromisoformat s in
  let run1 := get_exchange_rate parse example_isoformat "BTC" "USD" w in
  let run2 := get_exchange_rate parse example_isoformat "BTC" "USD" (snd run1) in
  rates_data w !! "BTC_USD" = None
  /\ fst run1 = Ok (Some entry)
  /\ mock_rates !! "BTC_USD" = Some 59337.21%float
  /\ fst run2 = Ok (Some entry)
  /\ journal (snd run2) = journal (snd run1).
Proof.
  intros w entry parse run1 run2.
  assert (Hnone : rates_data w !! ("BTC" +:+ "_" +:+ "USD") = None) by reflexivity.
  assert (Hret : fst run1 = Ok (Some entry)) by (vm_compute; reflexivity).
  assert (Hiso : parse (updated_at entry) = NaiveDT (clock w (ticks w))) by reflexivity.
  assert (Hage : clock w (S (ticks w)) - clock w (ticks w) <= freshness_window)
    by (vm_compute; discriminate).
  destruct (fetched_rate_served_again parse example_isoformat "BTC" "USD" entry w
              Hnone Hret Hiso Hage) as (Hsrc & _ & H2 & H3 & _).
  split; [exact Hnone|]. split; [exact Hret|]. split; [exact Hsrc|].
  split; [exact H2|exact H3].
Defined.

Lemma unreadable_time_stamp_witness :
  let e := mkRateEntry 1.1%float "2024-01-01T00:00:00+00:00" in
  let w := mkWorld [] {["EUR_USD" := e]} (fun _ => 0) 0 [] in
  rates_data w !! "EUR_USD" = Some e
  /\ example_fromisoformat (updated_at e) = AwareDT 0
  /\ get_exchange_rate example_fromisoformat example_isoformat "EUR" "USD" w
     = (Raise TypeError, ticked w).
Proof.
  intros e w.
  assert (He : rates_data w !! ("EUR" +:+ "_" +:+ "USD") = Some e) by (vm_compute; reflexivity).
  assert (Ht : example_fromisoformat (updated_at e) = AwareDT 0) by reflexivity.
  destruct (unreadable_time_stamp example_fromisoformat example_isoformat "EUR" "USD" e w He)
    as [_ Haware].
  split; [exact He|]. split; [exact Ht|]. exact (proj1 (Haware 0 Ht)).
Defined.

(** ** [get_rate] and the trades *)

(** X23. The rate that [get_rate] reports for a currency is the rate the
    trades apply. When it reports none, a purchase and a sale are refused and
    change nothing. When a trade of a currency other than USD returns [True],
    [get_rate] reports a rate, and the USD balance of the user has moved by
    the amount times that rate: down for a purchase, up for a sale. *)
Theorem get_rate_is_the_rate_applied (u : Z) (c : string) (a : float) (w : World) :
  (get_rate (rates_data w) c = None ->
   (exists r, buy_currency u c a w = (r, w) /\ refused r)
   /\ (exists r, sell_currency u c a w = (r, w) /\ refused r))
  /\ (c <> "USD" -> fst (buy_currency u c a w) = Ok true ->
      exists r usd,
        get_rate (rates_data w) c = Some r
        /\ stored_for u "USD" w = Some usd
        /\ stored_for u "USD" (snd (buy_currency u c a w)) = Some (usd - a * r)%float)
  /\ (c <> "USD" -> fst (sell_currency u c a w) = Ok true ->
      exists r,
        get_rate (rates_data w) c = Some r
        /\ stored_for u "USD" (snd (sell_currency u c a w))
           = Some (default 0 (stored_for u "USD" w) + a * r)%float).
Proof.
  unfold get_rate. split; [|split].
  - intros Hnone.
    destruct (rates_data w !! (c +:+ "_USD")) as [e|] eqn:He; [done|]. split.
    + destruct (buy_currency_cases u c a w)
        as [?|(? & ? & ? & ? & ? & _ & He' & _)]; [done|congruence].
    + destruct (sell_currency_cases u c a w)
        as [?|(? & ? & ? & ? & ? & _ & He' & _)]; [done|congruence].
  - intros Hc Hrun.
    destruct (buy_currency_cases u c a w)
      as [(r & Hr & Href)|(i & pd & entry & usd & pd' & Hf & He & Hu & _ & _ & Hid & Hk & Hr)];
      rewrite Hr in Hrun |- *; simpl in Hrun.
    + destruct Href as [->|[? ->]]; discriminate.
    + exists (rate entry), usd. rewrite He. split; [done|]. simpl.
      rewrite (stored_for_write _ _ _ _ _ _ Hf Hid). unfold stored_for. rewrite Hf.
      split; [done|]. rewrite (Hk "USD"). by rewrite decide_False, decide_True by done.
  - intros Hc Hrun.
    destruct (sell_currency_cases u c a w)
      as [(r & Hr & Href)|(i & pd & entry & held & pd' & Hf & He & Hu & _ & _ & Hid & Hk & Hr)];
      rewrite Hr in Hrun |- *; simpl in Hrun.
    + destruct Href as [->|[? ->]]; discriminate.
    + exists (rate entry). rewrite He. split; [done|]. simpl.
      rewrite (stored_for_write _ _ _ _ _ _ Hf Hid). unfold stored_for. rewrite Hf.
      rewrite (Hk "USD"). by rewrite decide_True, decide_False by done.
Qed.
